(** * Touch gesture engine of the tablet KVM client: model and properties

    A shallow embedding of the pointer recogniser ([js/input/mouse.js]), the
    zoom/pan controller ([js/ui/zoom.js]) and the jog-shuttle scroll widget
    ([js/ui/scroll-widget.js]).

    Conventions of the embedding:
    - JavaScript numbers are exact rationals ([Q]); [Date.now()] is an integer
      number of milliseconds ([Z]).  IEEE rounding, [NaN] and the infinities
      are outside the model, so a quotient is only meaningful for a non-zero
      divisor.
    - [Math.sqrt] is a parameter [Msqrt] of the model: no property of the
      square root is used by any result below.
    - The DOM is read through a snapshot [env] taken when an event is
      dispatched (clock, bounding rectangle, offset size, stream geometry).
    - Every object is a record threaded through its handlers; the calls into
      the websocket encoder are collected, in order, as a list of [hid]
      frames.
    - [setTimeout] handles are fields holding the due time of the timer; the
      expiry of a timer is an event of its own. *)

From Stdlib Require Import ZArith QArith Qround Qabs Qminmax List Bool String Lia Lqa.
Import ListNotations.
Open Scope Q_scope.

(** ** JavaScript arithmetic *)

Module Js.

Definition Math_floor (v : Q) : Q := inject_Z (Qfloor v).

(** [Math.round] rounds to the nearest integer, halves towards +infinity. *)
Definition Math_round (v : Q) : Q := inject_Z (Qfloor (v + (1 # 2))).

Definition Math_abs (v : Q) : Q := Qabs v.
Definition Math_min (a b : Q) : Q := Qmin a b.
Definition Math_max (a b : Q) : Q := Qmax a b.

(** Truthiness of a number: everything but zero. *)
Definition truthy (v : Q) : bool := negb (Qeq_bool v 0).
Definition truthyZ (v : Z) : bool := negb (v =? 0)%Z.

(** [a || b] on numbers. *)
Definition or_else (a b : Q) : Q := if truthy a then a else b.

Definition ltb (a b : Q) : bool := negb (Qle_bool b a).
Definition gtb (a b : Q) : bool := ltb b a.
Definition leb (a b : Q) : bool := Qle_bool a b.
Definition geb (a b : Q) : bool := Qle_bool b a.

Definition isSome {A : Type} (o : option A) : bool :=
  match o with Some _ => true | None => false end.

Definition num_of_N (n : N) : Q := inject_Z (Z.of_N n).

(** A square root to run examples with: exact on the squares of rationals,
    rounded down to a multiple of the inverse denominator elsewhere. *)
Definition sqrt_floor (v : Q) : Q :=
  inject_Z (Z.sqrt (Qnum v * Zpos (Qden v))) / inject_Z (Zpos (Qden v)).

End Js.

(** ** Frames handed to the websocket encoder *)

Module Wire.

Inductive button := Left | Right | Middle.

Inductive hid :=
| MouseButton (b : button) (state : bool)
| MouseMoveAbs (x y : Q)
| MouseRelative (dx dy : Q)
| MouseWheel (dx dy : Q).

(** The range of a signed 16-bit coordinate. *)
Definition in_int16 (v : Q) : Prop := -32768 <= v /\ v <= 32767.

(** A frame whose absolute coordinates, if it has any, fit 16 signed bits. *)
Definition abs_ok (h : hid) : Prop :=
  match h with
  | MouseMoveAbs x y => in_int16 x /\ in_int16 y
  | _ => True
  end.

Definition is_button (h : hid) : bool :=
  match h with MouseButton _ _ => true | _ => false end.
Definition is_relative (h : hid) : bool :=
  match h with MouseRelative _ _ => true | _ => false end.
Definition is_wheel (h : hid) : bool :=
  match h with MouseWheel _ _ => true | _ => false end.
Definition is_move_abs (h : hid) : bool :=
  match h with MouseMoveAbs _ _ => true | _ => false end.

End Wire.

(** ** The touch surface as seen by the handlers *)

Module Dom.

Record touch := { clientX : Q; clientY : Q }.

Record touch_event := { touches : list touch; changedTouches : list touch }.

Record rect := { left : Q; top : Q; width : Q; height : Q }.

(** Result of [StreamManager.getResolution]. *)
Record resolution := {
  realWidth : N; realHeight : N; viewWidth : N; viewHeight : N }.

(** Rectangle of the displayed stream inside the container. *)
Record geometry := { geo_x : Q; geo_y : Q; geo_width : Q; geo_height : Q }.

Record pos := mkPos { pos_x : Q; pos_y : Q }.

(** What the handlers read from the page while they run. *)
Record env := {
  now : Z;                          (* Date.now() *)
  boundingRect : rect;              (* container.getBoundingClientRect() *)
  offsetWidth : N;                  (* container.offsetWidth *)
  offsetHeight : N;                 (* container.offsetHeight *)
  streamResolution : option resolution;
  streamGeometry : option geometry  (* _getStreamGeometry && _getStreamGeometry() *)
}.

(** The geometry callback installed by the application. *)
Definition getStreamGeometry (res : resolution) : option geometry :=
  let viewW := Js.num_of_N (viewWidth res) in
  let viewH := Js.num_of_N (viewHeight res) in
  let realW := Js.num_of_N (realWidth res) in
  let realH := Js.num_of_N (realHeight res) in
  if negb (Js.truthy realW) || negb (Js.truthy realH) then None
  else
    let ratio := Js.Math_min (viewW / realW) (viewH / realH) in
    Some {| geo_x := Js.Math_round ((viewW - ratio * realW) / 2);
            geo_y := Js.Math_round ((viewH - ratio * realH) / 2);
            geo_width := Js.Math_round (ratio * realW);
            geo_height := Js.Math_round (ratio * realH) |}.

End Dom.

(** ** ZoomController ([js/ui/zoom.js]) *)

Module Zoom.
Import Dom.

Definition PINCH_THRESHOLD : Q := 15.

(** Observable actions of the controller on the page. *)
Inductive effect :=
| ApplyTransform (scale translateX translateY : Q)
| NotifyChange (zoomed : bool) (scale : Q).

Record state := {
  _zoomed : bool;
  _scale : Q;
  _translateX : Q;
  _translateY : Q;
  _isPanning : bool;
  _panStartMidX : Q;
  _panStartMidY : Q;
  _panStartTX : Q;
  _panStartTY : Q;
  _pinchStartDist : Q;
  _pinchStartScale : Q;
  _pinchStartTX : Q;
  _pinchStartTY : Q;
  _pinchFocalX : Q;
  _pinchFocalY : Q;
  _isPinching : bool;
  _gestureUndecided : bool;
  _isScroll : bool;
  _undecidedMidX : Q;
  _undecidedMidY : Q
}.

Definition set_zoomed (v : bool) (s : state) : state :=
  {| _zoomed := v; _scale := _scale s; _translateX := _translateX s; _translateY :=
     _translateY s; _isPanning := _isPanning s; _panStartMidX := _panStartMidX s;
     _panStartMidY := _panStartMidY s; _panStartTX := _panStartTX s; _panStartTY :=
     _panStartTY s; _pinchStartDist := _pinchStartDist s; _pinchStartScale :=
     _pinchStartScale s; _pinchStartTX := _pinchStartTX s; _pinchStartTY := _pinchStartTY
     s; _pinchFocalX := _pinchFocalX s; _pinchFocalY := _pinchFocalY s; _isPinching :=
     _isPinching s; _gestureUndecided := _gestureUndecided s; _isScroll := _isScroll s;
     _undecidedMidX := _undecidedMidX s; _undecidedMidY := _undecidedMidY s |}.
Definition set_scale (v : Q) (s : state) : state :=
  {| _zoomed := _zoomed s; _scale := v; _translateX := _translateX s; _translateY :=
     _translateY s; _isPanning := _isPanning s; _panStartMidX := _panStartMidX s;
     _panStartMidY := _panStartMidY s; _panStartTX := _panStartTX s; _panStartTY :=
     _panStartTY s; _pinchStartDist := _pinchStartDist s; _pinchStartScale :=
     _pinchStartScale s; _pinchStartTX := _pinchStartTX s; _pinchStartTY := _pinchStartTY
     s; _pinchFocalX := _pinchFocalX s; _pinchFocalY := _pinchFocalY s; _isPinching :=
     _isPinching s; _gestureUndecided := _gestureUndecided s; _isScroll := _isScroll s;
     _undecidedMidX := _undecidedMidX s; _undecidedMidY := _undecidedMidY s |}.
Definition set_translateX (v : Q) (s : state) : state :=
  {| _zoomed := _zoomed s; _scale := _scale s; _translateX := v; _translateY :=
     _translateY s; _isPanning := _isPanning s; _panStartMidX := _panStartMidX s;
     _panStartMidY := _panStartMidY s; _panStartTX := _panStartTX s; _panStartTY :=
     _panStartTY s; _pinchStartDist := _pinchStartDist s; _pinchStartScale :=
     _pinchStartScale s; _pinchStartTX := _pinchStartTX s; _pinchStartTY := _pinchStartTY
     s; _pinchFocalX := _pinchFocalX s; _pinchFocalY := _pinchFocalY s; _isPinching :=
     _isPinching s; _gestureUndecided := _gestureUndecided s; _isScroll := _isScroll s;
     _undecidedMidX := _undecidedMidX s; _undecidedMidY := _undecidedMidY s |}.
Definition set_translateY (v : Q) (s : state) : state :=
  {| _zoomed := _zoomed s; _scale := _scale s; _translateX := _translateX s; _translateY
     := v; _isPanning := _isPanning s; _panStartMidX := _panStartMidX s; _panStartMidY :=
     _panStartMidY s; _panStartTX := _panStartTX s; _panStartTY := _panStartTY s;
     _pinchStartDist := _pinchStartDist s; _pinchStartScale := _pinchStartScale s;
     _pinchStartTX := _pinchStartTX s; _pinchStartTY := _pinchStartTY s; _pinchFocalX :=
     _pinchFocalX s; _pinchFocalY := _pinchFocalY s; _isPinching := _isPinching s;
     _gestureUndecided := _gestureUndecided s; _isScroll := _isScroll s; _undecidedMidX
     := _undecidedMidX s; _undecidedMidY := _undecidedMidY s |}.
Definition set_isPanning (v : bool) (s : state) : state :=
  {| _zoomed := _zoomed s; _scale := _scale s; _translateX := _translateX s; _translateY
     := _translateY s; _isPanning := v; _panStartMidX := _panStartMidX s; _panStartMidY
     := _panStartMidY s; _panStartTX := _panStartTX s; _panStartTY := _panStartTY s;
     _pinchStartDist := _pinchStartDist s; _pinchStartScale := _pinchStartScale s;
     _pinchStartTX := _pinchStartTX s; _pinchStartTY := _pinchStartTY s; _pinchFocalX :=
     _pinchFocalX s; _pinchFocalY := _pinchFocalY s; _isPinching := _isPinching s;
     _gestureUndecided := _gestureUndecided s; _isScroll := _isScroll s; _undecidedMidX
     := _undecidedMidX s; _undecidedMidY := _undecidedMidY s |}.
Definition set_panStartMidX (v : Q) (s : state) : state :=
  {| _zoomed := _zoomed s; _scale := _scale s; _translateX := _translateX s; _translateY
     := _translateY s; _isPanning := _isPanning s; _panStartMidX := v; _panStartMidY :=
     _panStartMidY s; _panStartTX := _panStartTX s; _panStartTY := _panStartTY s;
     _pinchStartDist := _pinchStartDist s; _pinchStartScale := _pinchStartScale s;
     _pinchStartTX := _pinchStartTX s; _pinchStartTY := _pinchStartTY s; _pinchFocalX :=
     _pinchFocalX s; _pinchFocalY := _pinchFocalY s; _isPinching := _isPinching s;
     _gestureUndecided := _gestureUndecided s; _isScroll := _isScroll s; _undecidedMidX
     := _undecidedMidX s; _undecidedMidY := _undecidedMidY s |}.
Definition set_panStartMidY (v : Q) (s : state) : state :=
  {| _zoomed := _zoomed s; _scale := _scale s; _translateX := _translateX s; _translateY
     := _translateY s; _isPanning := _isPanning s; _panStartMidX := _panStartMidX s;
     _panStartMidY := v; _panStartTX := _panStartTX s; _panStartTY := _panStartTY s;
     _pinchStartDist := _pinchStartDist s; _pinchStartScale := _pinchStartScale s;
     _pinchStartTX := _pinchStartTX s; _pinchStartTY := _pinchStartTY s; _pinchFocalX :=
     _pinchFocalX s; _pinchFocalY := _pinchFocalY s; _isPinching := _isPinching s;
     _gestureUndecided := _gestureUndecided s; _isScroll := _isScroll s; _undecidedMidX
     := _undecidedMidX s; _undecidedMidY := _undecidedMidY s |}.
Definition set_panStartTX (v : Q) (s : state) : state :=
  {| _zoomed := _zoomed s; _scale := _scale s; _translateX := _translateX s; _translateY
     := _translateY s; _isPanning := _isPanning s; _panStartMidX := _panStartMidX s;
     _panStartMidY := _panStartMidY s; _panStartTX := v; _panStartTY := _panStartTY s;
     _pinchStartDist := _pinchStartDist s; _pinchStartScale := _pinchStartScale s;
     _pinchStartTX := _pinchStartTX s; _pinchStartTY := _pinchStartTY s; _pinchFocalX :=
     _pinchFocalX s; _pinchFocalY := _pinchFocalY s; _isPinching := _isPinching s;
     _gestureUndecided := _gestureUndecided s; _isScroll := _isScroll s; _undecidedMidX
     := _undecidedMidX s; _undecidedMidY := _undecidedMidY s |}.
Definition set_panStartTY (v : Q) (s : state) : state :=
  {| _zoomed := _zoomed s; _scale := _scale s; _translateX := _translateX s; _translateY
     := _translateY s; _isPanning := _isPanning s; _panStartMidX := _panStartMidX s;
     _panStartMidY := _panStartMidY s; _panStartTX := _panStartTX s; _panStartTY := v;
     _pinchStartDist := _pinchStartDist s; _pinchStartScale := _pinchStartScale s;
     _pinchStartTX := _pinchStartTX s; _pinchStartTY := _pinchStartTY s; _pinchFocalX :=
     _pinchFocalX s; _pinchFocalY := _pinchFocalY s; _isPinching := _isPinching s;
     _gestureUndecided := _gestureUndecided s; _isScroll := _isScroll s; _undecidedMidX
     := _undecidedMidX s; _undecidedMidY := _undecidedMidY s |}.
Definition set_pinchStartDist (v : Q) (s : state) : state :=
  {| _zoomed := _zoomed s; _scale := _scale s; _translateX := _translateX s; _translateY
     := _translateY s; _isPanning := _isPanning s; _panStartMidX := _panStartMidX s;
     _panStartMidY := _panStartMidY s; _panStartTX := _panStartTX s; _panStartTY :=
     _panStartTY s; _pinchStartDist := v; _pinchStartScale := _pinchStartScale s;
     _pinchStartTX := _pinchStartTX s; _pinchStartTY := _pinchStartTY s; _pinchFocalX :=
     _pinchFocalX s; _pinchFocalY := _pinchFocalY s; _isPinching := _isPinching s;
     _gestureUndecided := _gestureUndecided s; _isScroll := _isScroll s; _undecidedMidX
     := _undecidedMidX s; _undecidedMidY := _undecidedMidY s |}.
Definition set_pinchStartScale (v : Q) (s : state) : state :=
  {| _zoomed := _zoomed s; _scale := _scale s; _translateX := _translateX s; _translateY
     := _translateY s; _isPanning := _isPanning s; _panStartMidX := _panStartMidX s;
     _panStartMidY := _panStartMidY s; _panStartTX := _panStartTX s; _panStartTY :=
     _panStartTY s; _pinchStartDist := _pinchStartDist s; _pinchStartScale := v;
     _pinchStartTX := _pinchStartTX s; _pinchStartTY := _pinchStartTY s; _pinchFocalX :=
     _pinchFocalX s; _pinchFocalY := _pinchFocalY s; _isPinching := _isPinching s;
     _gestureUndecided := _gestureUndecided s; _isScroll := _isScroll s; _undecidedMidX
     := _undecidedMidX s; _undecidedMidY := _undecidedMidY s |}.
Definition set_pinchStartTX (v : Q) (s : state) : state :=
  {| _zoomed := _zoomed s; _scale := _scale s; _translateX := _translateX s; _translateY
     := _translateY s; _isPanning := _isPanning s; _panStartMidX := _panStartMidX s;
     _panStartMidY := _panStartMidY s; _panStartTX := _panStartTX s; _panStartTY :=
     _panStartTY s; _pinchStartDist := _pinchStartDist s; _pinchStartScale :=
     _pinchStartScale s; _pinchStartTX := v; _pinchStartTY := _pinchStartTY s;
     _pinchFocalX := _pinchFocalX s; _pinchFocalY := _pinchFocalY s; _isPinching :=
     _isPinching s; _gestureUndecided := _gestureUndecided s; _isScroll := _isScroll s;
     _undecidedMidX := _undecidedMidX s; _undecidedMidY := _undecidedMidY s |}.
Definition set_pinchStartTY (v : Q) (s : state) : state :=
  {| _zoomed := _zoomed s; _scale := _scale s; _translateX := _translateX s; _translateY
     := _translateY s; _isPanning := _isPanning s; _panStartMidX := _panStartMidX s;
     _panStartMidY := _panStartMidY s; _panStartTX := _panStartTX s; _panStartTY :=
     _panStartTY s; _pinchStartDist := _pinchStartDist s; _pinchStartScale :=
     _pinchStartScale s; _pinchStartTX := _pinchStartTX s; _pinchStartTY := v;
     _pinchFocalX := _pinchFocalX s; _pinchFocalY := _pinchFocalY s; _isPinching :=
     _isPinching s; _gestureUndecided := _gestureUndecided s; _isScroll := _isScroll s;
     _undecidedMidX := _undecidedMidX s; _undecidedMidY := _undecidedMidY s |}.
Definition set_pinchFocalX (v : Q) (s : state) : state :=
  {| _zoomed := _zoomed s; _scale := _scale s; _translateX := _translateX s; _translateY
     := _translateY s; _isPanning := _isPanning s; _panStartMidX := _panStartMidX s;
     _panStartMidY := _panStartMidY s; _panStartTX := _panStartTX s; _panStartTY :=
     _panStartTY s; _pinchStartDist := _pinchStartDist s; _pinchStartScale :=
     _pinchStartScale s; _pinchStartTX := _pinchStartTX s; _pinchStartTY := _pinchStartTY
     s; _pinchFocalX := v; _pinchFocalY := _pinchFocalY s; _isPinching := _isPinching s;
     _gestureUndecided := _gestureUndecided s; _isScroll := _isScroll s; _undecidedMidX
     := _undecidedMidX s; _undecidedMidY := _undecidedMidY s |}.
Definition set_pinchFocalY (v : Q) (s : state) : state :=
  {| _zoomed := _zoomed s; _scale := _scale s; _translateX := _translateX s; _translateY
     := _translateY s; _isPanning := _isPanning s; _panStartMidX := _panStartMidX s;
     _panStartMidY := _panStartMidY s; _panStartTX := _panStartTX s; _panStartTY :=
     _panStartTY s; _pinchStartDist := _pinchStartDist s; _pinchStartScale :=
     _pinchStartScale s; _pinchStartTX := _pinchStartTX s; _pinchStartTY := _pinchStartTY
     s; _pinchFocalX := _pinchFocalX s; _pinchFocalY := v; _isPinching := _isPinching s;
     _gestureUndecided := _gestureUndecided s; _isScroll := _isScroll s; _undecidedMidX
     := _undecidedMidX s; _undecidedMidY := _undecidedMidY s |}.
Definition set_isPinching (v : bool) (s : state) : state :=
  {| _zoomed := _zoomed s; _scale := _scale s; _translateX := _translateX s; _translateY
     := _translateY s; _isPanning := _isPanning s; _panStartMidX := _panStartMidX s;
     _panStartMidY := _panStartMidY s; _panStartTX := _panStartTX s; _panStartTY :=
     _panStartTY s; _pinchStartDist := _pinchStartDist s; _pinchStartScale :=
     _pinchStartScale s; _pinchStartTX := _pinchStartTX s; _pinchStartTY := _pinchStartTY
     s; _pinchFocalX := _pinchFocalX s; _pinchFocalY := _pinchFocalY s; _isPinching := v;
     _gestureUndecided := _gestureUndecided s; _isScroll := _isScroll s; _undecidedMidX
     := _undecidedMidX s; _undecidedMidY := _undecidedMidY s |}.
Definition set_gestureUndecided (v : bool) (s : state) : state :=
  {| _zoomed := _zoomed s; _scale := _scale s; _translateX := _translateX s; _translateY
     := _translateY s; _isPanning := _isPanning s; _panStartMidX := _panStartMidX s;
     _panStartMidY := _panStartMidY s; _panStartTX := _panStartTX s; _panStartTY :=
     _panStartTY s; _pinchStartDist := _pinchStartDist s; _pinchStartScale :=
     _pinchStartScale s; _pinchStartTX := _pinchStartTX s; _pinchStartTY := _pinchStartTY
     s; _pinchFocalX := _pinchFocalX s; _pinchFocalY := _pinchFocalY s; _isPinching :=
     _isPinching s; _gestureUndecided := v; _isScroll := _isScroll s; _undecidedMidX :=
     _undecidedMidX s; _undecidedMidY := _undecidedMidY s |}.
Definition set_isScroll (v : bool) (s : state) : state :=
  {| _zoomed := _zoomed s; _scale := _scale s; _translateX := _translateX s; _translateY
     := _translateY s; _isPanning := _isPanning s; _panStartMidX := _panStartMidX s;
     _panStartMidY := _panStartMidY s; _panStartTX := _panStartTX s; _panStartTY :=
     _panStartTY s; _pinchStartDist := _pinchStartDist s; _pinchStartScale :=
     _pinchStartScale s; _pinchStartTX := _pinchStartTX s; _pinchStartTY := _pinchStartTY
     s; _pinchFocalX := _pinchFocalX s; _pinchFocalY := _pinchFocalY s; _isPinching :=
     _isPinching s; _gestureUndecided := _gestureUndecided s; _isScroll := v;
     _undecidedMidX := _undecidedMidX s; _undecidedMidY := _undecidedMidY s |}.
Definition set_undecidedMidX (v : Q) (s : state) : state :=
  {| _zoomed := _zoomed s; _scale := _scale s; _translateX := _translateX s; _translateY
     := _translateY s; _isPanning := _isPanning s; _panStartMidX := _panStartMidX s;
     _panStartMidY := _panStartMidY s; _panStartTX := _panStartTX s; _panStartTY :=
     _panStartTY s; _pinchStartDist := _pinchStartDist s; _pinchStartScale :=
     _pinchStartScale s; _pinchStartTX := _pinchStartTX s; _pinchStartTY := _pinchStartTY
     s; _pinchFocalX := _pinchFocalX s; _pinchFocalY := _pinchFocalY s; _isPinching :=
     _isPinching s; _gestureUndecided := _gestureUndecided s; _isScroll := _isScroll s;
     _undecidedMidX := v; _undecidedMidY := _undecidedMidY s |}.
Definition set_undecidedMidY (v : Q) (s : state) : state :=
  {| _zoomed := _zoomed s; _scale := _scale s; _translateX := _translateX s; _translateY
     := _translateY s; _isPanning := _isPanning s; _panStartMidX := _panStartMidX s;
     _panStartMidY := _panStartMidY s; _panStartTX := _panStartTX s; _panStartTY :=
     _panStartTY s; _pinchStartDist := _pinchStartDist s; _pinchStartScale :=
     _pinchStartScale s; _pinchStartTX := _pinchStartTX s; _pinchStartTY := _pinchStartTY
     s; _pinchFocalX := _pinchFocalX s; _pinchFocalY := _pinchFocalY s; _isPinching :=
     _isPinching s; _gestureUndecided := _gestureUndecided s; _isScroll := _isScroll s;
     _undecidedMidX := _undecidedMidX s; _undecidedMidY := v |}.

(** State built by the constructor. *)
Definition initial : state :=
  {| _zoomed := false; _scale := 1; _translateX := 0; _translateY := 0;
     _isPanning := false; _panStartMidX := 0; _panStartMidY := 0;
     _panStartTX := 0; _panStartTY := 0;
     _pinchStartDist := 0; _pinchStartScale := 1; _pinchStartTX := 0;
     _pinchStartTY := 0; _pinchFocalX := 0; _pinchFocalY := 0;
     _isPinching := false; _gestureUndecided := false; _isScroll := false;
     _undecidedMidX := 0; _undecidedMidY := 0 |}.

Definition isPanningOrPinching (s : state) : bool := _isPanning s || _isPinching s.

(** A handler returns the new state, whether it called [stopPropagation],
    and the actions it performed. *)
Definition result : Type := state * bool * list effect.

Definition _applyTransform (s : state) : effect :=
  ApplyTransform (_scale s) (_translateX s) (_translateY s).

Definition _notifyChange (s : state) : effect :=
  NotifyChange (_zoomed s) (_scale s).

Definition _midpoint (t0 t1 : touch) : pos :=
  {| pos_x := (clientX t0 + clientX t1) / 2;
     pos_y := (clientY t0 + clientY t1) / 2 |}.

Definition _clampTranslation (e : env) (s : state) : state :=
  let viewW := Js.num_of_N (offsetWidth e) in
  let viewH := Js.num_of_N (offsetHeight e) in
  let maxTX := (viewW * (_scale s - 1)) / 2 in
  let maxTY := (viewH * (_scale s - 1)) / 2 in
  let s := set_translateX (Js.Math_max (- maxTX) (Js.Math_min maxTX (_translateX s))) s in
  set_translateY (Js.Math_max (- maxTY) (Js.Math_min maxTY (_translateY s))) s.

Definition resetZoom (s : state) : state * list effect :=
  let s := set_zoomed false (set_translateY 0 (set_translateX 0 (set_scale 1 s))) in
  (s, [_applyTransform s; _notifyChange s]).

Definition zoomToNative (e : env) (s : state) : state * list effect :=
  match streamResolution e with
  | None => (s, [])
  | Some res =>
    if (realWidth res =? 0)%N || (realHeight res =? 0)%N then (s, [])
    else
      let viewW := Js.num_of_N (offsetWidth e) in
      let viewH := Js.num_of_N (offsetHeight e) in
      let fitScale := Js.Math_min (viewW / Js.num_of_N (realWidth res))
                                  (viewH / Js.num_of_N (realHeight res)) in
      let nativeScale := 1 / fitScale in
      if Js.leb nativeScale (105 # 100) then (s, [])
      else
        let s := set_zoomed true (set_translateY 0 (set_translateX 0
                   (set_scale nativeScale s))) in
        (s, [_applyTransform s; _notifyChange s])
  end.

Definition toggle (e : env) (s : state) : state * list effect :=
  if _zoomed s then resetZoom s else zoomToNative e s.

Section WithSqrt.
Variable Msqrt : Q -> Q.

Definition _dist (t0 t1 : touch) : Q :=
  let dx := clientX t0 - clientX t1 in
  let dy := clientY t0 - clientY t1 in
  Msqrt (dx * dx + dy * dy).

Definition _handleTouchStart (e : env) (ev : touch_event) (s : state) : result :=
  match touches ev with
  | [t0; t1] =>
    let s := set_pinchStartDist (_dist t0 t1) s in
    let s := set_pinchStartScale (_scale s) s in
    let s := set_pinchStartTX (_translateX s) s in
    let s := set_pinchStartTY (_translateY s) s in
    let s := set_gestureUndecided true s in
    let s := set_isScroll false s in
    let s := set_isPinching false s in
    let s := set_isPanning false s in
    let mid := _midpoint t0 t1 in
    let s := set_undecidedMidX (pos_x mid) s in
    let s := set_undecidedMidY (pos_y mid) s in
    (s, false, [])
  | _ => (s, false, [])
  end.

(** The classification attempt made while the gesture is undecided. *)
Definition classify (e : env) (t0 t1 : touch) (distChange : Q) (s : state) : state :=
  if Js.gtb distChange PINCH_THRESHOLD then
    let s := set_gestureUndecided false s in
    let s := set_isPinching true s in
    let s := set_isScroll false s in
    let focalMid := _midpoint t0 t1 in
    let focalRect := boundingRect e in
    let s := set_pinchFocalX ((pos_x focalMid - left focalRect) / _pinchStartScale s) s in
    set_pinchFocalY ((pos_y focalMid - top focalRect) / _pinchStartScale s) s
  else
    let mid := _midpoint t0 t1 in
    let midDx := Js.Math_abs (pos_x mid - _undecidedMidX s) in
    let midDy := Js.Math_abs (pos_y mid - _undecidedMidY s) in
    if Js.gtb midDx 10 || Js.gtb midDy 10 then
      let s := set_gestureUndecided false s in
      let s := set_isPinching false s in
      if _zoomed s then
        let s := set_isPanning true s in
        let s := set_isScroll false s in
        let s := set_panStartMidX (pos_x mid) s in
        let s := set_panStartMidY (pos_y mid) s in
        let s := set_panStartTX (_translateX s) s in
        set_panStartTY (_translateY s) s
      else set_isScroll true s
    else s.

Definition panUpdate (e : env) (t0 t1 : touch) (s : state) : state :=
  let mid := _midpoint t0 t1 in
  let s := set_translateX (_panStartTX s + (pos_x mid - _panStartMidX s)) s in
  let s := set_translateY (_panStartTY s + (pos_y mid - _panStartMidY s)) s in
  _clampTranslation e s.

Definition pinchUpdate (e : env) (currentDist : Q) (s : state) : state :=
  let ratio := currentDist / _pinchStartDist s in
  let newScale := _pinchStartScale s * ratio in
  let newScale := Js.Math_max 1 (Js.Math_min newScale 4) in
  let cx := Js.num_of_N (offsetWidth e) / 2 in
  let cy := Js.num_of_N (offsetHeight e) / 2 in
  let s := set_translateX
             (_pinchStartTX s + (_pinchFocalX s - cx) * (_pinchStartScale s - newScale)) s in
  let s := set_translateY
             (_pinchStartTY s + (_pinchFocalY s - cy) * (_pinchStartScale s - newScale)) s in
  let s := set_scale newScale s in
  let s := set_zoomed (Js.gtb newScale (105 # 100)) s in
  _clampTranslation e s.

Definition _handleTouchMove (e : env) (ev : touch_event) (s : state) : result :=
  match touches ev with
  | [t0; t1] =>
    if negb (_gestureUndecided s) && negb (_isPinching s)
       && negb (_isScroll s) && negb (_isPanning s)
    then (s, false, [])
    else
      let currentDist := _dist t0 t1 in
      let distChange := Js.Math_abs (currentDist - _pinchStartDist s) in
      let s1 := if _gestureUndecided s then classify e t0 t1 distChange s else s in
      if _gestureUndecided s && _gestureUndecided s1 then (s1, false, [])
      else if _isScroll s1 then (s1, false, [])
      else if _isPanning s1 then
        let s2 := panUpdate e t0 t1 s1 in (s2, true, [_applyTransform s2])
      else if _isPinching s1 then
        let s2 := pinchUpdate e currentDist s1 in (s2, true, [_applyTransform s2])
      else (s1, false, [])
  | _ => (s, false, [])
  end.

Definition _handleTouchEnd (e : env) (ev : touch_event) (s : state) : result :=
  if (List.length (touches ev) <? 2)%nat then
    let wasPinching := _isPinching s in
    let wasPanning := _isPanning s in
    let s := set_isPinching false s in
    let s := set_isPanning false s in
    let s := set_gestureUndecided false s in
    let s := set_isScroll false s in
    let '(s, fx1) :=
      if wasPinching then
        let '(s, fx) :=
          if Js.ltb (_scale s) (105 # 100) then resetZoom s
          else let s := _clampTranslation e s in (s, [_applyTransform s]) in
        (s, fx ++ [_notifyChange s])
      else (s, []) in
    let '(s, fx2) :=
      if wasPanning then
        let s := _clampTranslation e s in (s, [_applyTransform s])
      else (s, []) in
    (s, wasPinching || wasPanning, fx1 ++ fx2)
  else (s, false, []).

End WithSqrt.

(** The classification flags, in the order undecided, pinch, scroll, pan. *)
Definition gesture (s : state) : bool * bool * bool * bool :=
  (_gestureUndecided s, _isPinching s, _isScroll s, _isPanning s).

Definition g_none : bool * bool * bool * bool := (false, false, false, false).
Definition g_undecided : bool * bool * bool * bool := (true, false, false, false).
Definition g_pinch : bool * bool * bool * bool := (false, true, false, false).
Definition g_scroll : bool * bool * bool * bool := (false, false, true, false).
Definition g_pan : bool * bool * bool * bool := (false, false, false, true).

(** Events of the controller: the three touch listeners and the zoom button. *)
Inductive event :=
| TouchStart (ev : touch_event)
| TouchMove (ev : touch_event)
| TouchEnd (ev : touch_event)
| Toggle
| ZoomToNative
| ResetZoom.

Definition step (Msqrt : Q -> Q) (e : env) (a : event) (s : state) : result :=
  match a with
  | TouchStart ev => _handleTouchStart Msqrt e ev s
  | TouchMove ev => _handleTouchMove Msqrt e ev s
  | TouchEnd ev => _handleTouchEnd e ev s
  | Toggle => let '(s, fx) := toggle e s in (s, false, fx)
  | ZoomToNative => let '(s, fx) := zoomToNative e s in (s, false, fx)
  | ResetZoom => let '(s, fx) := resetZoom s in (s, false, fx)
  end.

(** The zoom button is only reachable while the container is laid out, so
    that the fit scale of [zoomToNative] is not zero. *)
Definition laidOut (e : env) : Prop := (0 < offsetWidth e)%N /\ (0 < offsetHeight e)%N.

Definition admissible (e : env) (a : event) : Prop :=
  match a with
  | Toggle | ZoomToNative => laidOut e
  | _ => True
  end.

(** The states of the controller: the one built by the constructor and what
    any event makes of a reachable state. *)
Inductive reachable (Msqrt : Q -> Q) : state -> Prop :=
| reach_initial : reachable Msqrt initial
| reach_step (e : env) (a : event) (s : state) :
    reachable Msqrt s -> admissible e a -> reachable Msqrt (fst (fst (step Msqrt e a s))).

(** The finger count stays at or above two across the event: it is neither
    the touch start that brings the second finger nor a touch end that
    leaves fewer than two. *)
Definition keepsTwoFingers (a : event) : Prop :=
  match a with
  | TouchStart ev => List.length (touches ev) <> 2%nat
  | TouchEnd ev => (2 <= List.length (touches ev))%nat
  | _ => True
  end.

(** The state after a script of events, each with the page as it is then. *)
Fixpoint run (Msqrt : Q -> Q) (l : list (env * event)) (s : state) : state :=
  match l with
  | [] => s
  | (e, a) :: l' => run Msqrt l' (fst (fst (step Msqrt e a s)))
  end.





End Zoom.

(** ** MouseHandler ([js/input/mouse.js]) *)

Module Mouse.
Import Dom Wire.

Definition TAP_MAX_DURATION : Z := 200.
Definition TAP_MAX_DISTANCE : Q := 10.
Definition DOUBLE_TAP_WINDOW : Z := 300.
Definition LONG_PRESS_DELAY : Z := 500.
Definition DRAG_HOLD_DELAY : Z := 200.

Inductive mode := Absolute | Relative.

(** A [setTimeout] handle: when it is due, and whether it already ran (the
    handle of a timer that ran stays truthy until the field is overwritten). *)
Record timer := { due : Z; spent : bool }.

Definition setTimeout (e : env) (delay : Z) : timer :=
  {| due := (now e + delay)%Z; spent := false |}.

Record state := {
  _mode : mode;
  _absPos : option pos;
  _relTouchStart : option pos;
  _enabled : bool;
  _sensitivity : Q;
  _scrollSensitivity : Q;
  _touchStartTime : Z;
  _touchStartPos : option pos;
  _touchMoved : bool;
  _lastTapTime : Z;
  _lastTapPos : option pos;
  _singleTapTimer : option timer;
  _longPressTimer : option timer;
  _longPressFired : bool;
  _isDragging : bool;
  _dragHoldTimer : option timer;
  _isSecondTapDown : bool;
  _twoFingerTapDetected : bool;
  _twoFingerStartTime : Z;
  _twoFingerMoved : bool;
  _scrollAnchor : option pos;
  pulses : list (Z * button)
}.

Definition set_mode (v : mode) (s : state) : state :=
  {| _mode := v; _absPos := _absPos s; _relTouchStart := _relTouchStart s; _enabled :=
     _enabled s; _sensitivity := _sensitivity s; _scrollSensitivity := _scrollSensitivity
     s; _touchStartTime := _touchStartTime s; _touchStartPos := _touchStartPos s;
     _touchMoved := _touchMoved s; _lastTapTime := _lastTapTime s; _lastTapPos :=
     _lastTapPos s; _singleTapTimer := _singleTapTimer s; _longPressTimer :=
     _longPressTimer s; _longPressFired := _longPressFired s; _isDragging := _isDragging
     s; _dragHoldTimer := _dragHoldTimer s; _isSecondTapDown := _isSecondTapDown s;
     _twoFingerTapDetected := _twoFingerTapDetected s; _twoFingerStartTime :=
     _twoFingerStartTime s; _twoFingerMoved := _twoFingerMoved s; _scrollAnchor :=
     _scrollAnchor s; pulses := pulses s |}.
Definition set_absPos (v : option pos) (s : state) : state :=
  {| _mode := _mode s; _absPos := v; _relTouchStart := _relTouchStart s; _enabled :=
     _enabled s; _sensitivity := _sensitivity s; _scrollSensitivity := _scrollSensitivity
     s; _touchStartTime := _touchStartTime s; _touchStartPos := _touchStartPos s;
     _touchMoved := _touchMoved s; _lastTapTime := _lastTapTime s; _lastTapPos :=
     _lastTapPos s; _singleTapTimer := _singleTapTimer s; _longPressTimer :=
     _longPressTimer s; _longPressFired := _longPressFired s; _isDragging := _isDragging
     s; _dragHoldTimer := _dragHoldTimer s; _isSecondTapDown := _isSecondTapDown s;
     _twoFingerTapDetected := _twoFingerTapDetected s; _twoFingerStartTime :=
     _twoFingerStartTime s; _twoFingerMoved := _twoFingerMoved s; _scrollAnchor :=
     _scrollAnchor s; pulses := pulses s |}.
Definition set_relTouchStart (v : option pos) (s : state) : state :=
  {| _mode := _mode s; _absPos := _absPos s; _relTouchStart := v; _enabled := _enabled s;
     _sensitivity := _sensitivity s; _scrollSensitivity := _scrollSensitivity s;
     _touchStartTime := _touchStartTime s; _touchStartPos := _touchStartPos s;
     _touchMoved := _touchMoved s; _lastTapTime := _lastTapTime s; _lastTapPos :=
     _lastTapPos s; _singleTapTimer := _singleTapTimer s; _longPressTimer :=
     _longPressTimer s; _longPressFired := _longPressFired s; _isDragging := _isDragging
     s; _dragHoldTimer := _dragHoldTimer s; _isSecondTapDown := _isSecondTapDown s;
     _twoFingerTapDetected := _twoFingerTapDetected s; _twoFingerStartTime :=
     _twoFingerStartTime s; _twoFingerMoved := _twoFingerMoved s; _scrollAnchor :=
     _scrollAnchor s; pulses := pulses s |}.
Definition set_enabled (v : bool) (s : state) : state :=
  {| _mode := _mode s; _absPos := _absPos s; _relTouchStart := _relTouchStart s; _enabled
     := v; _sensitivity := _sensitivity s; _scrollSensitivity := _scrollSensitivity s;
     _touchStartTime := _touchStartTime s; _touchStartPos := _touchStartPos s;
     _touchMoved := _touchMoved s; _lastTapTime := _lastTapTime s; _lastTapPos :=
     _lastTapPos s; _singleTapTimer := _singleTapTimer s; _longPressTimer :=
     _longPressTimer s; _longPressFired := _longPressFired s; _isDragging := _isDragging
     s; _dragHoldTimer := _dragHoldTimer s; _isSecondTapDown := _isSecondTapDown s;
     _twoFingerTapDetected := _twoFingerTapDetected s; _twoFingerStartTime :=
     _twoFingerStartTime s; _twoFingerMoved := _twoFingerMoved s; _scrollAnchor :=
     _scrollAnchor s; pulses := pulses s |}.
Definition set_sensitivity (v : Q) (s : state) : state :=
  {| _mode := _mode s; _absPos := _absPos s; _relTouchStart := _relTouchStart s; _enabled
     := _enabled s; _sensitivity := v; _scrollSensitivity := _scrollSensitivity s;
     _touchStartTime := _touchStartTime s; _touchStartPos := _touchStartPos s;
     _touchMoved := _touchMoved s; _lastTapTime := _lastTapTime s; _lastTapPos :=
     _lastTapPos s; _singleTapTimer := _singleTapTimer s; _longPressTimer :=
     _longPressTimer s; _longPressFired := _longPressFired s; _isDragging := _isDragging
     s; _dragHoldTimer := _dragHoldTimer s; _isSecondTapDown := _isSecondTapDown s;
     _twoFingerTapDetected := _twoFingerTapDetected s; _twoFingerStartTime :=
     _twoFingerStartTime s; _twoFingerMoved := _twoFingerMoved s; _scrollAnchor :=
     _scrollAnchor s; pulses := pulses s |}.
Definition set_scrollSensitivity (v : Q) (s : state) : state :=
  {| _mode := _mode s; _absPos := _absPos s; _relTouchStart := _relTouchStart s; _enabled
     := _enabled s; _sensitivity := _sensitivity s; _scrollSensitivity := v;
     _touchStartTime := _touchStartTime s; _touchStartPos := _touchStartPos s;
     _touchMoved := _touchMoved s; _lastTapTime := _lastTapTime s; _lastTapPos :=
     _lastTapPos s; _singleTapTimer := _singleTapTimer s; _longPressTimer :=
     _longPressTimer s; _longPressFired := _longPressFired s; _isDragging := _isDragging
     s; _dragHoldTimer := _dragHoldTimer s; _isSecondTapDown := _isSecondTapDown s;
     _twoFingerTapDetected := _twoFingerTapDetected s; _twoFingerStartTime :=
     _twoFingerStartTime s; _twoFingerMoved := _twoFingerMoved s; _scrollAnchor :=
     _scrollAnchor s; pulses := pulses s |}.
Definition set_touchStartTime (v : Z) (s : state) : state :=
  {| _mode := _mode s; _absPos := _absPos s; _relTouchStart := _relTouchStart s; _enabled
     := _enabled s; _sensitivity := _sensitivity s; _scrollSensitivity :=
     _scrollSensitivity s; _touchStartTime := v; _touchStartPos := _touchStartPos s;
     _touchMoved := _touchMoved s; _lastTapTime := _lastTapTime s; _lastTapPos :=
     _lastTapPos s; _singleTapTimer := _singleTapTimer s; _longPressTimer :=
     _longPressTimer s; _longPressFired := _longPressFired s; _isDragging := _isDragging
     s; _dragHoldTimer := _dragHoldTimer s; _isSecondTapDown := _isSecondTapDown s;
     _twoFingerTapDetected := _twoFingerTapDetected s; _twoFingerStartTime :=
     _twoFingerStartTime s; _twoFingerMoved := _twoFingerMoved s; _scrollAnchor :=
     _scrollAnchor s; pulses := pulses s |}.
Definition set_touchStartPos (v : option pos) (s : state) : state :=
  {| _mode := _mode s; _absPos := _absPos s; _relTouchStart := _relTouchStart s; _enabled
     := _enabled s; _sensitivity := _sensitivity s; _scrollSensitivity :=
     _scrollSensitivity s; _touchStartTime := _touchStartTime s; _touchStartPos := v;
     _touchMoved := _touchMoved s; _lastTapTime := _lastTapTime s; _lastTapPos :=
     _lastTapPos s; _singleTapTimer := _singleTapTimer s; _longPressTimer :=
     _longPressTimer s; _longPressFired := _longPressFired s; _isDragging := _isDragging
     s; _dragHoldTimer := _dragHoldTimer s; _isSecondTapDown := _isSecondTapDown s;
     _twoFingerTapDetected := _twoFingerTapDetected s; _twoFingerStartTime :=
     _twoFingerStartTime s; _twoFingerMoved := _twoFingerMoved s; _scrollAnchor :=
     _scrollAnchor s; pulses := pulses s |}.
Definition set_touchMoved (v : bool) (s : state) : state :=
  {| _mode := _mode s; _absPos := _absPos s; _relTouchStart := _relTouchStart s; _enabled
     := _enabled s; _sensitivity := _sensitivity s; _scrollSensitivity :=
     _scrollSensitivity s; _touchStartTime := _touchStartTime s; _touchStartPos :=
     _touchStartPos s; _touchMoved := v; _lastTapTime := _lastTapTime s; _lastTapPos :=
     _lastTapPos s; _singleTapTimer := _singleTapTimer s; _longPressTimer :=
     _longPressTimer s; _longPressFired := _longPressFired s; _isDragging := _isDragging
     s; _dragHoldTimer := _dragHoldTimer s; _isSecondTapDown := _isSecondTapDown s;
     _twoFingerTapDetected := _twoFingerTapDetected s; _twoFingerStartTime :=
     _twoFingerStartTime s; _twoFingerMoved := _twoFingerMoved s; _scrollAnchor :=
     _scrollAnchor s; pulses := pulses s |}.
Definition set_lastTapTime (v : Z) (s : state) : state :=
  {| _mode := _mode s; _absPos := _absPos s; _relTouchStart := _relTouchStart s; _enabled
     := _enabled s; _sensitivity := _sensitivity s; _scrollSensitivity :=
     _scrollSensitivity s; _touchStartTime := _touchStartTime s; _touchStartPos :=
     _touchStartPos s; _touchMoved := _touchMoved s; _lastTapTime := v; _lastTapPos :=
     _lastTapPos s; _singleTapTimer := _singleTapTimer s; _longPressTimer :=
     _longPressTimer s; _longPressFired := _longPressFired s; _isDragging := _isDragging
     s; _dragHoldTimer := _dragHoldTimer s; _isSecondTapDown := _isSecondTapDown s;
     _twoFingerTapDetected := _twoFingerTapDetected s; _twoFingerStartTime :=
     _twoFingerStartTime s; _twoFingerMoved := _twoFingerMoved s; _scrollAnchor :=
     _scrollAnchor s; pulses := pulses s |}.
Definition set_lastTapPos (v : option pos) (s : state) : state :=
  {| _mode := _mode s; _absPos := _absPos s; _relTouchStart := _relTouchStart s; _enabled
     := _enabled s; _sensitivity := _sensitivity s; _scrollSensitivity :=
     _scrollSensitivity s; _touchStartTime := _touchStartTime s; _touchStartPos :=
     _touchStartPos s; _touchMoved := _touchMoved s; _lastTapTime := _lastTapTime s;
     _lastTapPos := v; _singleTapTimer := _singleTapTimer s; _longPressTimer :=
     _longPressTimer s; _longPressFired := _longPressFired s; _isDragging := _isDragging
     s; _dragHoldTimer := _dragHoldTimer s; _isSecondTapDown := _isSecondTapDown s;
     _twoFingerTapDetected := _twoFingerTapDetected s; _twoFingerStartTime :=
     _twoFingerStartTime s; _twoFingerMoved := _twoFingerMoved s; _scrollAnchor :=
     _scrollAnchor s; pulses := pulses s |}.
Definition set_singleTapTimer (v : option timer) (s : state) : state :=
  {| _mode := _mode s; _absPos := _absPos s; _relTouchStart := _relTouchStart s; _enabled
     := _enabled s; _sensitivity := _sensitivity s; _scrollSensitivity :=
     _scrollSensitivity s; _touchStartTime := _touchStartTime s; _touchStartPos :=
     _touchStartPos s; _touchMoved := _touchMoved s; _lastTapTime := _lastTapTime s;
     _lastTapPos := _lastTapPos s; _singleTapTimer := v; _longPressTimer :=
     _longPressTimer s; _longPressFired := _longPressFired s; _isDragging := _isDragging
     s; _dragHoldTimer := _dragHoldTimer s; _isSecondTapDown := _isSecondTapDown s;
     _twoFingerTapDetected := _twoFingerTapDetected s; _twoFingerStartTime :=
     _twoFingerStartTime s; _twoFingerMoved := _twoFingerMoved s; _scrollAnchor :=
     _scrollAnchor s; pulses := pulses s |}.
Definition set_longPressTimer (v : option timer) (s : state) : state :=
  {| _mode := _mode s; _absPos := _absPos s; _relTouchStart := _relTouchStart s; _enabled
     := _enabled s; _sensitivity := _sensitivity s; _scrollSensitivity :=
     _scrollSensitivity s; _touchStartTime := _touchStartTime s; _touchStartPos :=
     _touchStartPos s; _touchMoved := _touchMoved s; _lastTapTime := _lastTapTime s;
     _lastTapPos := _lastTapPos s; _singleTapTimer := _singleTapTimer s; _longPressTimer
     := v; _longPressFired := _longPressFired s; _isDragging := _isDragging s;
     _dragHoldTimer := _dragHoldTimer s; _isSecondTapDown := _isSecondTapDown s;
     _twoFingerTapDetected := _twoFingerTapDetected s; _twoFingerStartTime :=
     _twoFingerStartTime s; _twoFingerMoved := _twoFingerMoved s; _scrollAnchor :=
     _scrollAnchor s; pulses := pulses s |}.
Definition set_longPressFired (v : bool) (s : state) : state :=
  {| _mode := _mode s; _absPos := _absPos s; _relTouchStart := _relTouchStart s; _enabled
     := _enabled s; _sensitivity := _sensitivity s; _scrollSensitivity :=
     _scrollSensitivity s; _touchStartTime := _touchStartTime s; _touchStartPos :=
     _touchStartPos s; _touchMoved := _touchMoved s; _lastTapTime := _lastTapTime s;
     _lastTapPos := _lastTapPos s; _singleTapTimer := _singleTapTimer s; _longPressTimer
     := _longPressTimer s; _longPressFired := v; _isDragging := _isDragging s;
     _dragHoldTimer := _dragHoldTimer s; _isSecondTapDown := _isSecondTapDown s;
     _twoFingerTapDetected := _twoFingerTapDetected s; _twoFingerStartTime :=
     _twoFingerStartTime s; _twoFingerMoved := _twoFingerMoved s; _scrollAnchor :=
     _scrollAnchor s; pulses := pulses s |}.
Definition set_isDragging (v : bool) (s : state) : state :=
  {| _mode := _mode s; _absPos := _absPos s; _relTouchStart := _relTouchStart s; _enabled
     := _enabled s; _sensitivity := _sensitivity s; _scrollSensitivity :=
     _scrollSensitivity s; _touchStartTime := _touchStartTime s; _touchStartPos :=
     _touchStartPos s; _touchMoved := _touchMoved s; _lastTapTime := _lastTapTime s;
     _lastTapPos := _lastTapPos s; _singleTapTimer := _singleTapTimer s; _longPressTimer
     := _longPressTimer s; _longPressFired := _longPressFired s; _isDragging := v;
     _dragHoldTimer := _dragHoldTimer s; _isSecondTapDown := _isSecondTapDown s;
     _twoFingerTapDetected := _twoFingerTapDetected s; _twoFingerStartTime :=
     _twoFingerStartTime s; _twoFingerMoved := _twoFingerMoved s; _scrollAnchor :=
     _scrollAnchor s; pulses := pulses s |}.
Definition set_dragHoldTimer (v : option timer) (s : state) : state :=
  {| _mode := _mode s; _absPos := _absPos s; _relTouchStart := _relTouchStart s; _enabled
     := _enabled s; _sensitivity := _sensitivity s; _scrollSensitivity :=
     _scrollSensitivity s; _touchStartTime := _touchStartTime s; _touchStartPos :=
     _touchStartPos s; _touchMoved := _touchMoved s; _lastTapTime := _lastTapTime s;
     _lastTapPos := _lastTapPos s; _singleTapTimer := _singleTapTimer s; _longPressTimer
     := _longPressTimer s; _longPressFired := _longPressFired s; _isDragging :=
     _isDragging s; _dragHoldTimer := v; _isSecondTapDown := _isSecondTapDown s;
     _twoFingerTapDetected := _twoFingerTapDetected s; _twoFingerStartTime :=
     _twoFingerStartTime s; _twoFingerMoved := _twoFingerMoved s; _scrollAnchor :=
     _scrollAnchor s; pulses := pulses s |}.
Definition set_isSecondTapDown (v : bool) (s : state) : state :=
  {| _mode := _mode s; _absPos := _absPos s; _relTouchStart := _relTouchStart s; _enabled
     := _enabled s; _sensitivity := _sensitivity s; _scrollSensitivity :=
     _scrollSensitivity s; _touchStartTime := _touchStartTime s; _touchStartPos :=
     _touchStartPos s; _touchMoved := _touchMoved s; _lastTapTime := _lastTapTime s;
     _lastTapPos := _lastTapPos s; _singleTapTimer := _singleTapTimer s; _longPressTimer
     := _longPressTimer s; _longPressFired := _longPressFired s; _isDragging :=
     _isDragging s; _dragHoldTimer := _dragHoldTimer s; _isSecondTapDown := v;
     _twoFingerTapDetected := _twoFingerTapDetected s; _twoFingerStartTime :=
     _twoFingerStartTime s; _twoFingerMoved := _twoFingerMoved s; _scrollAnchor :=
     _scrollAnchor s; pulses := pulses s |}.
Definition set_twoFingerTapDetected (v : bool) (s : state) : state :=
  {| _mode := _mode s; _absPos := _absPos s; _relTouchStart := _relTouchStart s; _enabled
     := _enabled s; _sensitivity := _sensitivity s; _scrollSensitivity :=
     _scrollSensitivity s; _touchStartTime := _touchStartTime s; _touchStartPos :=
     _touchStartPos s; _touchMoved := _touchMoved s; _lastTapTime := _lastTapTime s;
     _lastTapPos := _lastTapPos s; _singleTapTimer := _singleTapTimer s; _longPressTimer
     := _longPressTimer s; _longPressFired := _longPressFired s; _isDragging :=
     _isDragging s; _dragHoldTimer := _dragHoldTimer s; _isSecondTapDown :=
     _isSecondTapDown s; _twoFingerTapDetected := v; _twoFingerStartTime :=
     _twoFingerStartTime s; _twoFingerMoved := _twoFingerMoved s; _scrollAnchor :=
     _scrollAnchor s; pulses := pulses s |}.
Definition set_twoFingerStartTime (v : Z) (s : state) : state :=
  {| _mode := _mode s; _absPos := _absPos s; _relTouchStart := _relTouchStart s; _enabled
     := _enabled s; _sensitivity := _sensitivity s; _scrollSensitivity :=
     _scrollSensitivity s; _touchStartTime := _touchStartTime s; _touchStartPos :=
     _touchStartPos s; _touchMoved := _touchMoved s; _lastTapTime := _lastTapTime s;
     _lastTapPos := _lastTapPos s; _singleTapTimer := _singleTapTimer s; _longPressTimer
     := _longPressTimer s; _longPressFired := _longPressFired s; _isDragging :=
     _isDragging s; _dragHoldTimer := _dragHoldTimer s; _isSecondTapDown :=
     _isSecondTapDown s; _twoFingerTapDetected := _twoFingerTapDetected s;
     _twoFingerStartTime := v; _twoFingerMoved := _twoFingerMoved s; _scrollAnchor :=
     _scrollAnchor s; pulses := pulses s |}.
Definition set_twoFingerMoved (v : bool) (s : state) : state :=
  {| _mode := _mode s; _absPos := _absPos s; _relTouchStart := _relTouchStart s; _enabled
     := _enabled s; _sensitivity := _sensitivity s; _scrollSensitivity :=
     _scrollSensitivity s; _touchStartTime := _touchStartTime s; _touchStartPos :=
     _touchStartPos s; _touchMoved := _touchMoved s; _lastTapTime := _lastTapTime s;
     _lastTapPos := _lastTapPos s; _singleTapTimer := _singleTapTimer s; _longPressTimer
     := _longPressTimer s; _longPressFired := _longPressFired s; _isDragging :=
     _isDragging s; _dragHoldTimer := _dragHoldTimer s; _isSecondTapDown :=
     _isSecondTapDown s; _twoFingerTapDetected := _twoFingerTapDetected s;
     _twoFingerStartTime := _twoFingerStartTime s; _twoFingerMoved := v; _scrollAnchor :=
     _scrollAnchor s; pulses := pulses s |}.
Definition set_scrollAnchor (v : option pos) (s : state) : state :=
  {| _mode := _mode s; _absPos := _absPos s; _relTouchStart := _relTouchStart s; _enabled
     := _enabled s; _sensitivity := _sensitivity s; _scrollSensitivity :=
     _scrollSensitivity s; _touchStartTime := _touchStartTime s; _touchStartPos :=
     _touchStartPos s; _touchMoved := _touchMoved s; _lastTapTime := _lastTapTime s;
     _lastTapPos := _lastTapPos s; _singleTapTimer := _singleTapTimer s; _longPressTimer
     := _longPressTimer s; _longPressFired := _longPressFired s; _isDragging :=
     _isDragging s; _dragHoldTimer := _dragHoldTimer s; _isSecondTapDown :=
     _isSecondTapDown s; _twoFingerTapDetected := _twoFingerTapDetected s;
     _twoFingerStartTime := _twoFingerStartTime s; _twoFingerMoved := _twoFingerMoved s;
     _scrollAnchor := v; pulses := pulses s |}.
Definition setpulses (v : list (Z * button)) (s : state) : state :=
  {| _mode := _mode s; _absPos := _absPos s; _relTouchStart := _relTouchStart s; _enabled
     := _enabled s; _sensitivity := _sensitivity s; _scrollSensitivity :=
     _scrollSensitivity s; _touchStartTime := _touchStartTime s; _touchStartPos :=
     _touchStartPos s; _touchMoved := _touchMoved s; _lastTapTime := _lastTapTime s;
     _lastTapPos := _lastTapPos s; _singleTapTimer := _singleTapTimer s; _longPressTimer
     := _longPressTimer s; _longPressFired := _longPressFired s; _isDragging :=
     _isDragging s; _dragHoldTimer := _dragHoldTimer s; _isSecondTapDown :=
     _isSecondTapDown s; _twoFingerTapDetected := _twoFingerTapDetected s;
     _twoFingerStartTime := _twoFingerStartTime s; _twoFingerMoved := _twoFingerMoved s;
     _scrollAnchor := _scrollAnchor s; pulses := v |}.

(** State built by the constructor; [pulses] are the pending anonymous
    50 ms timers that release a button. *)
Definition initial : state :=
  {| _mode := Absolute; _absPos := None; _relTouchStart := None; _enabled := true;
     _sensitivity := 1; _scrollSensitivity := 2;
     _touchStartTime := 0; _touchStartPos := None; _touchMoved := false;
     _lastTapTime := 0; _lastTapPos := None; _singleTapTimer := None;
     _longPressTimer := None; _longPressFired := false;
     _isDragging := false; _dragHoldTimer := None; _isSecondTapDown := false;
     _twoFingerTapDetected := false; _twoFingerStartTime := 0;
     _twoFingerMoved := false; _scrollAnchor := None; pulses := [] |}.

(** Adapted from desktop tools.remap *)
Definition _remap (value inMin inMax outMin outMax : Q) : Q :=
  let result := Js.Math_round ((value - inMin) * (outMax - outMin)
                               / Js.or_else (inMax - inMin) 1 + outMin) in
  Js.Math_min (Js.Math_max result outMin) outMax.

Definition _isZoomGesture (zc : option Zoom.state) : bool :=
  match zc with
  | Some z => Zoom.isPanningOrPinching z
  | None => false
  end.

Definition _screenToContainerPos (zc : option Zoom.state) (e : env) (screenX screenY : Q)
  : pos :=
  let rect := boundingRect e in
  match zc with
  | Some z =>
    if Zoom._zoomed z then
      let scale := Zoom._scale z in
      let sx := screenX - left rect in
      let sy := screenY - top rect in
      let ux := sx / scale in
      let uy := sy / scale in
      {| pos_x := Js.Math_round ux; pos_y := Js.Math_round uy |}
    else {| pos_x := Js.Math_round (screenX - left rect);
            pos_y := Js.Math_round (screenY - top rect) |}
  | None => {| pos_x := Js.Math_round (screenX - left rect);
               pos_y := Js.Math_round (screenY - top rect) |}
  end.

Definition _getTouchPos (zc : option Zoom.state) (e : env) (t : touch) : pos :=
  _screenToContainerPos zc e (clientX t) (clientY t).

Definition _getMidpoint (t0 t1 : touch) : pos :=
  {| pos_x := (clientX t0 + clientX t1) / 2;
     pos_y := (clientY t0 + clientY t1) / 2 |}.

Definition _sendPlannedMove (e : env) (s : state) : state * list hid :=
  match _mode s, _absPos s, streamGeometry e with
  | Absolute, Some p, Some geo =>
    let x := _remap (pos_x p - geo_x geo) 0 (geo_width geo - 1) (-32768) 32767 in
    let y := _remap (pos_y p - geo_y geo) 0 (geo_height geo - 1) (-32768) 32767 in
    (set_absPos None s, [MouseMoveAbs x y])
  | _, _, _ => (s, [])
  end.

Definition _resetState (s : state) : state :=
  set_scrollAnchor None (set_twoFingerTapDetected false
    (set_touchStartPos None (set_relTouchStart None s))).

(** A button press followed 50 ms later by its release. *)
Definition click (e : env) (b : button) (s : state) : state * list hid :=
  (setpulses (pulses s ++ [((now e + 50)%Z, b)]) s, [MouseButton b true]).

Definition _processTap (e : env) (s : state) : state :=
  match _touchStartPos s with
  | None => s
  | Some p =>
    let s := set_lastTapTime (now e) s in
    let s := set_lastTapPos (Some {| pos_x := pos_x p; pos_y := pos_y p |}) s in
    match _mode s with
    | Relative => set_singleTapTimer (Some (setTimeout e DOUBLE_TAP_WINDOW)) s
    | Absolute => s
    end
  end.

(** The delta sent for a one-finger move in relative mode (the same code
    serves the dragging and the plain branch). *)
Definition relativeDelta (sensitivity from to : Q) : Q :=
  Js.Math_min (Js.Math_max (-127) (Js.Math_floor ((to - from) * sensitivity))) 127.

Definition relativeMove (p : pos) (s : state) : state * list hid :=
  match _relTouchStart s with
  | Some a =>
    let dx := relativeDelta (_sensitivity s) (pos_x a) (pos_x p) in
    let dy := relativeDelta (_sensitivity s) (pos_y a) (pos_y p) in
    (set_relTouchStart (Some p) s,
     if Js.truthy dx || Js.truthy dy then [MouseRelative dx dy] else [])
  | None => (s, [])
  end.

Section WithSqrt.
Variable Msqrt : Q -> Q.

Definition distance (a b : pos) : Q :=
  let dx := pos_x a - pos_x b in
  let dy := pos_y a - pos_y b in
  Msqrt (dx * dx + dy * dy).

(** The test made on touch start: is this the second tap of a double tap? *)
Definition isSecondTap (e : env) (p : pos) (s : state) : bool :=
  match _lastTapPos s with
  | Some lp =>
    Js.truthyZ (_lastTapTime s)
    && (now e - _lastTapTime s <? DOUBLE_TAP_WINDOW)%Z
    && Js.ltb (distance p lp) (TAP_MAX_DISTANCE * 2)
  | None => false
  end.

Definition _handleTouchStart (zc : option Zoom.state) (e : env) (ev : touch_event)
  (s : state) : state * list hid :=
  if negb (_enabled s) then (s, [])
  else if _isZoomGesture zc then (s, [])
  else
    match touches ev with
    | [t] =>
      let p := _getTouchPos zc e t in
      let s := set_touchStartTime (now e) s in
      let s := set_touchStartPos (Some p) s in
      let s := set_touchMoved false s in
      let s := set_longPressFired false s in
      let s :=
        if isSecondTap e p s then
          let s := set_singleTapTimer None s in
          let s := set_isSecondTapDown true s in
          set_dragHoldTimer (Some (setTimeout e DRAG_HOLD_DELAY)) s
        else set_longPressTimer (Some (setTimeout e LONG_PRESS_DELAY)) s in
      match _mode s with
      | Absolute => _sendPlannedMove e (set_absPos (Some p) s)
      | Relative => (set_relTouchStart (Some p) s, [])
      end
    | [t0; t1] =>
      let s := set_longPressTimer None s in
      let s := set_dragHoldTimer None s in
      let s := set_isSecondTapDown false s in
      let s := set_twoFingerStartTime (now e) s in
      let s := set_twoFingerMoved false s in
      let s := set_twoFingerTapDetected true s in
      let mid := _getMidpoint t0 t1 in
      let s := set_scrollAnchor (Some mid) s in
      match _mode s with
      | Absolute =>
        let midPos := _screenToContainerPos zc e (pos_x mid) (pos_y mid) in
        _sendPlannedMove e (set_absPos (Some midPos) s)
      | Relative => (s, [])
      end
    | _ => (s, [])
    end.

Definition _handleTouchMove (zc : option Zoom.state) (e : env) (ev : touch_event)
  (s : state) : state * list hid :=
  if negb (_enabled s) then (s, [])
  else if _isZoomGesture zc then (s, [])
  else
    match touches ev with
    | [t] =>
      let p := _getTouchPos zc e t in
      let '(s, out) :=
        match _touchStartPos s with
        | Some sp =>
          if Js.gtb (distance p sp) TAP_MAX_DISTANCE then
            let s := set_touchMoved true s in
            let '(s, out) :=
              if _isSecondTapDown s && negb (_isDragging s) then
                (set_dragHoldTimer None (set_isDragging true s), [MouseButton Left true])
              else (s, []) in
            (set_longPressTimer None s, out)
          else (s, [])
        | None => (s, [])
        end in
      if _isDragging s then
        match _mode s with
        | Absolute => (set_absPos (Some p) s, out)
        | Relative => let '(s, mv) := relativeMove p s in (s, out ++ mv)
        end
      else
        match _mode s with
        | Absolute => (set_absPos (Some p) s, out)
        | Relative => let '(s, mv) := relativeMove p s in (s, out ++ mv)
        end
    | [t0; t1] =>
      let mid := _getMidpoint t0 t1 in
      let '(s, out) :=
        match _scrollAnchor s with
        | Some a =>
          let dx := pos_x mid - pos_x a in
          let dy := pos_y mid - pos_y a in
          if Js.gtb (Js.Math_abs dy) 5 || Js.gtb (Js.Math_abs dx) 5 then
            let s := set_twoFingerMoved true s in
            let s := set_twoFingerTapDetected false s in
            let sens := _scrollSensitivity s in
            let scrollY :=
              if Js.gtb (Js.Math_abs dy) 5 then (if Js.gtb dy 0 then sens else - sens)
              else 0 in
            let scrollX :=
              if Js.gtb (Js.Math_abs dx) 5 then (if Js.gtb dx 0 then sens else - sens)
              else 0 in
            (set_scrollAnchor (Some mid) s, [MouseWheel scrollX scrollY])
          else (s, [])
        | None => (s, [])
        end in
      (set_absPos None s, out)
    | _ => (s, [])
    end.

Definition _handleTouchEnd (zc : option Zoom.state) (e : env) (ev : touch_event)
  (s : state) : state * list hid :=
  if negb (_enabled s) then (s, [])
  else if _isZoomGesture zc then (s, [])
  else
    let s := set_longPressTimer None s in
    match touches ev with
    | [] =>
      let '(s, out) := _sendPlannedMove e s in
      if _isDragging s then
        let s := set_isDragging false s in
        let s := set_isSecondTapDown false s in
        let s := set_dragHoldTimer None s in
        let s := set_lastTapTime 0 s in
        let s := set_lastTapPos None s in
        (_resetState s, out ++ [MouseButton Left false])
      else if _isSecondTapDown s then
        let s := set_isSecondTapDown false s in
        let s := set_dragHoldTimer None s in
        let '(s, ck) := click e Left s in
        let s := set_lastTapTime 0 s in
        let s := set_lastTapPos None s in
        (_resetState s, out ++ ck)
      else if _longPressFired s then (_resetState s, out)
      else
        let wasTap := negb (_touchMoved s)
                      && (now e - _touchStartTime s <? TAP_MAX_DURATION)%Z in
        let isTap := wasTap && (1 <=? List.length (changedTouches ev))%nat
                     && Js.isSome (_touchStartPos s) in
        let '(s, out2) :=
          match _mode s with
          | Relative =>
            if _twoFingerTapDetected s && negb (_twoFingerMoved s) then
              let elapsed := (now e - _twoFingerStartTime s)%Z in
              if (elapsed <? TAP_MAX_DURATION)%Z then click e Right s else (s, [])
            else if isTap then (_processTap e s, [])
            else (s, [])
          | Absolute =>
            if isTap then (_processTap e s, []) else (s, [])
          end in
        (set_scrollAnchor None (set_twoFingerTapDetected false
           (set_touchStartPos None (set_relTouchStart None s))), out ++ out2)
    | [_] => (set_scrollAnchor None (set_twoFingerTapDetected false s), [])
    | _ => (s, [])
    end.

End WithSqrt.

(** *** Timer callbacks *)

Definition ready (e : env) (t : option timer) : bool :=
  match t with
  | Some t => negb (spent t) && (due t <=? now e)%Z
  | None => false
  end.

Definition expire (t : option timer) : option timer :=
  match t with
  | Some t => Some {| due := due t; spent := true |}
  | None => None
  end.

(** Callback of the drag hold timer armed by the second tap. *)
Definition onDragHoldTimer (e : env) (s : state) : state * list hid :=
  if ready e (_dragHoldTimer s) then
    let s := set_dragHoldTimer (expire (_dragHoldTimer s)) s in
    if _isSecondTapDown s && negb (_touchMoved s) then
      let s := set_isDragging true s in
      (set_longPressTimer None s, [MouseButton Left true])
    else (s, [])
  else (s, []).

(** Callback of the long press timer. *)
Definition onLongPressTimer (e : env) (s : state) : state * list hid :=
  if ready e (_longPressTimer s) then
    let s := set_longPressTimer (expire (_longPressTimer s)) s in
    if negb (_touchMoved s) && negb (_longPressFired s) && negb (_isDragging s) then
      click e Right (set_longPressFired true s)
    else (s, [])
  else (s, []).

(** Callback of the deferred single tap armed by [_processTap]. *)
Definition onSingleTapTimer (e : env) (s : state) : state * list hid :=
  if ready e (_singleTapTimer s) then
    let s := set_singleTapTimer None s in
    let '(s, ck) := click e Left s in
    let s := set_lastTapTime 0 s in
    (set_lastTapPos None s, ck)
  else (s, []).

(** The first pending release that is due, and the other ones. *)
Fixpoint takePulse (t : Z) (l : list (Z * button)) : option (button * list (Z * button)) :=
  match l with
  | [] => None
  | (d, b) :: l' =>
    if (d <=? t)%Z then Some (b, l')
    else match takePulse t l' with
         | Some (b', r) => Some (b', (d, b) :: r)
         | None => None
         end
  end.

Definition onPulseTimer (e : env) (s : state) : state * list hid :=
  match takePulse (now e) (pulses s) with
  | Some (b, rest) => (setpulses rest s, [MouseButton b false])
  | None => (s, [])
  end.

(** Button presses (called from the floating mouse panel) *)
Definition sendButton (e : env) (b : button) (st : bool) (s : state) : state * list hid :=
  let '(s, out) := _sendPlannedMove e s in (s, out ++ [MouseButton b st]).

(** What runs between touch events: the timers and the button panel. *)
Inductive callback :=
| SendTimer                      (* the 10 ms interval of the constructor *)
| DragHoldTimer
| LongPressTimer
| SingleTapTimer
| PulseTimer
| SendButton (b : button) (st : bool).

Definition fire (e : env) (a : callback) (s : state) : state * list hid :=
  match a with
  | SendTimer => _sendPlannedMove e s
  | DragHoldTimer => onDragHoldTimer e s
  | LongPressTimer => onLongPressTimer e s
  | SingleTapTimer => onSingleTapTimer e s
  | PulseTimer => onPulseTimer e s
  | SendButton b st => sendButton e b st s
  end.

(** Everything the recogniser reacts to. *)
Inductive event :=
| TouchStart (ev : touch_event)
| TouchMove (ev : touch_event)
| TouchEnd (ev : touch_event)
| Callback (a : callback).

Definition step (Msqrt : Q -> Q) (zc : option Zoom.state) (e : env) (a : event)
  (s : state) : state * list hid :=
  match a with
  | TouchStart ev => _handleTouchStart Msqrt zc e ev s
  | TouchMove ev => _handleTouchMove Msqrt zc e ev s
  | TouchEnd ev => _handleTouchEnd zc e ev s
  | Callback a => fire e a s
  end.

(** Runs a script of events while the zoom controller stays as it is, each
    event with the page as it is then, and collects the frames sent. *)
Fixpoint run (Msqrt : Q -> Q) (zc : option Zoom.state) (l : list (env * event))
  (s : state) : state * list hid :=
  match l with
  | [] => (s, [])
  | (e, a) :: l' =>
    let '(s1, o1) := step Msqrt zc e a s in
    let '(s2, o2) := run Msqrt zc l' s1 in
    (s2, o1 ++ o2)
  end.

(** A one-finger event. *)
Definition oneTouch (t : touch) : touch_event :=
  {| touches := [t]; changedTouches := [t] |}.

(** The finger positions of a script of one-finger moves stay below the
    resolution of the relative delta: from the anchor [a], every move has
    both deltas zero against the position of the move before it. *)
Fixpoint subPixel (zc : option Zoom.state) (sens : Q) (a : pos) (l : list (env * touch))
  : Prop :=
  match l with
  | [] => True
  | (e, t) :: l' =>
    let p := _getTouchPos zc e t in
    relativeDelta sens (pos_x a) (pos_x p) == 0
    /\ relativeDelta sens (pos_y a) (pos_y p) == 0
    /\ subPixel zc sens p l'
  end.

Definition moves (l : list (env * touch)) : list (env * event) :=
  map (fun et => (fst et, TouchMove (oneTouch (snd et)))) l.

(** The anchor after a script of one-finger moves: the last position. *)
Definition lastPos (zc : option Zoom.state) (a : pos) (l : list (env * touch)) : pos :=
  fold_left (fun _ et => _getTouchPos zc (fst et) (snd et)) l a.

End Mouse.

(** ** ScrollWidget ([js/ui/scroll-widget.js]) *)

Module Scroll.
Import Wire.

Record preset := { deadZone : Q; firstTick : Q; minInterval : Q; units : Q }.

Definition fine : preset :=
  {| deadZone := 18; firstTick := 35; minInterval := 200; units := 1 |}.
Definition normal : preset :=
  {| deadZone := 12; firstTick := 25; minInterval := 150; units := 2 |}.
Definition fast : preset :=
  {| deadZone := 8; firstTick := 18; minInterval := 100; units := 4 |}.

Definition PRESETS (name : string) : option preset :=
  if String.eqb name "fine" then Some fine
  else if String.eqb name "normal" then Some normal
  else if String.eqb name "fast" then Some fast
  else None.

Definition MAX_INTERVAL : Q := 300.
Definition RAMP_DURATION : Q := 1000.
Definition MAC_UNIT_MULTIPLIER : Q := 3.
Definition MAC_BURST_COUNT : nat := 3.
Definition MAC_BURST_DELAY : Q := 10.

(** What the widget reads while a handler runs. *)
Record env := {
  now : Z;             (* Date.now() *)
  rectTop : Q;         (* widget.getBoundingClientRect().top *)
  rectHeight : Q       (* widget.getBoundingClientRect().height *)
}.

Record state := {
  _preset : string;
  _macMode : bool;
  _centerY : Q;
  _trackHalf : Q;
  _displacement : Q;
  _direction : Z;
  _active : bool;
  _repeatTimer : option Q;
  _repeatStartTime : Z;
  _tickCount : Z;
  bursts : list (Q * Q)
}.

Definition set_preset (v : string) (s : state) : state :=
  {| _preset := v; _macMode := _macMode s; _centerY := _centerY s; _trackHalf :=
     _trackHalf s; _displacement := _displacement s; _direction := _direction s; _active
     := _active s; _repeatTimer := _repeatTimer s; _repeatStartTime := _repeatStartTime
     s; _tickCount := _tickCount s; bursts := bursts s |}.
Definition set_macMode (v : bool) (s : state) : state :=
  {| _preset := _preset s; _macMode := v; _centerY := _centerY s; _trackHalf :=
     _trackHalf s; _displacement := _displacement s; _direction := _direction s; _active
     := _active s; _repeatTimer := _repeatTimer s; _repeatStartTime := _repeatStartTime
     s; _tickCount := _tickCount s; bursts := bursts s |}.
Definition set_centerY (v : Q) (s : state) : state :=
  {| _preset := _preset s; _macMode := _macMode s; _centerY := v; _trackHalf :=
     _trackHalf s; _displacement := _displacement s; _direction := _direction s; _active
     := _active s; _repeatTimer := _repeatTimer s; _repeatStartTime := _repeatStartTime
     s; _tickCount := _tickCount s; bursts := bursts s |}.
Definition set_trackHalf (v : Q) (s : state) : state :=
  {| _preset := _preset s; _macMode := _macMode s; _centerY := _centerY s; _trackHalf :=
     v; _displacement := _displacement s; _direction := _direction s; _active := _active
     s; _repeatTimer := _repeatTimer s; _repeatStartTime := _repeatStartTime s;
     _tickCount := _tickCount s; bursts := bursts s |}.
Definition set_displacement (v : Q) (s : state) : state :=
  {| _preset := _preset s; _macMode := _macMode s; _centerY := _centerY s; _trackHalf :=
     _trackHalf s; _displacement := v; _direction := _direction s; _active := _active s;
     _repeatTimer := _repeatTimer s; _repeatStartTime := _repeatStartTime s; _tickCount
     := _tickCount s; bursts := bursts s |}.
Definition set_direction (v : Z) (s : state) : state :=
  {| _preset := _preset s; _macMode := _macMode s; _centerY := _centerY s; _trackHalf :=
     _trackHalf s; _displacement := _displacement s; _direction := v; _active := _active
     s; _repeatTimer := _repeatTimer s; _repeatStartTime := _repeatStartTime s;
     _tickCount := _tickCount s; bursts := bursts s |}.
Definition set_active (v : bool) (s : state) : state :=
  {| _preset := _preset s; _macMode := _macMode s; _centerY := _centerY s; _trackHalf :=
     _trackHalf s; _displacement := _displacement s; _direction := _direction s; _active
     := v; _repeatTimer := _repeatTimer s; _repeatStartTime := _repeatStartTime s;
     _tickCount := _tickCount s; bursts := bursts s |}.
Definition set_repeatTimer (v : option Q) (s : state) : state :=
  {| _preset := _preset s; _macMode := _macMode s; _centerY := _centerY s; _trackHalf :=
     _trackHalf s; _displacement := _displacement s; _direction := _direction s; _active
     := _active s; _repeatTimer := v; _repeatStartTime := _repeatStartTime s; _tickCount
     := _tickCount s; bursts := bursts s |}.
Definition set_repeatStartTime (v : Z) (s : state) : state :=
  {| _preset := _preset s; _macMode := _macMode s; _centerY := _centerY s; _trackHalf :=
     _trackHalf s; _displacement := _displacement s; _direction := _direction s; _active
     := _active s; _repeatTimer := _repeatTimer s; _repeatStartTime := v; _tickCount :=
     _tickCount s; bursts := bursts s |}.
Definition set_tickCount (v : Z) (s : state) : state :=
  {| _preset := _preset s; _macMode := _macMode s; _centerY := _centerY s; _trackHalf :=
     _trackHalf s; _displacement := _displacement s; _direction := _direction s; _active
     := _active s; _repeatTimer := _repeatTimer s; _repeatStartTime := _repeatStartTime
     s; _tickCount := v; bursts := bursts s |}.
Definition setbursts (v : list (Q * Q)) (s : state) : state :=
  {| _preset := _preset s; _macMode := _macMode s; _centerY := _centerY s; _trackHalf :=
     _trackHalf s; _displacement := _displacement s; _direction := _direction s; _active
     := _active s; _repeatTimer := _repeatTimer s; _repeatStartTime := _repeatStartTime
     s; _tickCount := _tickCount s; bursts := v |}.

(** State built by the constructor; [_repeatTimer] holds the due time of the
    pending repeat, [bursts] the pending extra wheel events of the macOS
    mode with their due times. *)
Definition initial (presetName : string) (macMode : bool) : state :=
  {| _preset := presetName; _macMode := macMode; _centerY := 0; _trackHalf := 0;
     _displacement := 0; _direction := 0; _active := false; _repeatTimer := None;
     _repeatStartTime := 0; _tickCount := 0; bursts := [] |}.

Definition _getPreset (s : state) : preset :=
  match PRESETS (_preset s) with
  | Some p => p
  | None => normal
  end.

Definition _stopRepeat (s : state) : state := set_repeatTimer None s.

(** The repeat timer is pending and due at [d]. *)
Definition timerAt (t : option Q) (d : Q) : Prop :=
  match t with
  | Some t => t == d
  | None => False
  end.

(** The delays [i * MAC_BURST_DELAY] for [i] from 1 below [MAC_BURST_COUNT]. *)
Definition burstDelays : list Q :=
  map (fun i => inject_Z (Z.of_nat i) * MAC_BURST_DELAY) (seq 1 (MAC_BURST_COUNT - 1)).

Definition _fireTick (e : env) (s : state) : state * list hid :=
  let p := _getPreset s in
  let u := inject_Z (_direction s) * units p in
  let '(s, out) :=
    if _macMode s then
      let boosted := u * MAC_UNIT_MULTIPLIER in
      (setbursts (bursts s ++ map (fun d => (inject_Z (now e) + d, boosted)) burstDelays) s,
       [MouseWheel 0 boosted])
    else (s, [MouseWheel 0 u]) in
  (set_tickCount (_tickCount s + 1)%Z s, out).

(** The wheel value sent by [_fireTick]. *)
Definition tickValue (s : state) : Q :=
  let u := inject_Z (_direction s) * units (_getPreset s) in
  if _macMode s then u * MAC_UNIT_MULTIPLIER else u.

(** The displacement kept by [_updateFromTouch] for a touch at [clientY]. *)
Definition clampedDisplacement (clientY : Q) (s : state) : Q :=
  Js.Math_max (- _trackHalf s) (Js.Math_min (_trackHalf s) (clientY - _centerY s)).

Definition _computeInterval (e : env) (s : state) : Q :=
  let p := _getPreset s in
  let absDist := Js.Math_abs (_displacement s) in
  let range := _trackHalf s - firstTick p in
  let distRatio :=
    if Js.gtb range 0 then Js.Math_min 1 ((absDist - firstTick p) / range) else 0 in
  let distRatio := distRatio * distRatio in
  let distInterval := MAX_INTERVAL - distRatio * (MAX_INTERVAL - minInterval p) in
  let elapsed := inject_Z (now e - _repeatStartTime s) in
  let timeRatio := Js.Math_min 1 (elapsed / RAMP_DURATION) in
  let timeRatio := timeRatio * timeRatio in
  let timeInterval := MAX_INTERVAL - timeRatio * (MAX_INTERVAL - minInterval p) in
  Js.Math_max (minInterval p) (Js.Math_min distInterval timeInterval).

(** The interval of [_computeInterval] as a function of what it reads: the
    preset, the half length of the track, the distance from the centre and
    the time since the repeat started. *)
Definition interval (p : preset) (trackHalf absDist elapsed : Q) : Q :=
  let range := trackHalf - firstTick p in
  let distRatio :=
    if Js.gtb range 0 then Js.Math_min 1 ((absDist - firstTick p) / range) else 0 in
  let timeRatio := Js.Math_min 1 (elapsed / RAMP_DURATION) in
  Js.Math_max (minInterval p)
    (Js.Math_min (MAX_INTERVAL - distRatio * distRatio * (MAX_INTERVAL - minInterval p))
                 (MAX_INTERVAL - timeRatio * timeRatio * (MAX_INTERVAL - minInterval p))).

Definition _scheduleNextTick (e : env) (s : state) : state :=
  let interval := _computeInterval e s in
  set_repeatTimer (Some (inject_Z (now e) + interval)) s.

Definition _updateFromTouch (e : env) (clientY : Q) (s : state) : state * list hid :=
  let raw := clientY - _centerY s in
  let clamped := Js.Math_max (- _trackHalf s) (Js.Math_min (_trackHalf s) raw) in
  let s := set_displacement clamped s in
  let p := _getPreset s in
  let absDist := Js.Math_abs clamped in
  if Js.ltb absDist (deadZone p) then
    (set_direction 0 (_stopRepeat s), [])
  else
    let newDir := if Js.gtb clamped 0 then 1%Z else (-1)%Z in
    let s :=
      if negb (newDir =? _direction s)%Z then
        _stopRepeat (set_tickCount 0 (set_direction newDir s))
      else s in
    if Js.geb absDist (firstTick p) && negb (Js.isSome (_repeatTimer s)) then
      let '(s, out) := _fireTick e s in
      let s := set_repeatStartTime (now e) s in
      (_scheduleNextTick e s, out)
    else (s, []).

(** Touch lists of the widget: the number of touches and the [clientY] of
    the first one. *)
Record touch_event := { touchCount : nat; firstClientY : Q }.

Definition _handleTouchStart (e : env) (ev : touch_event) (s : state) : state * list hid :=
  if negb (touchCount ev =? 1)%nat then (s, [])
  else
    let s := set_centerY (rectTop e + rectHeight e / 2) s in
    let s := set_trackHalf (rectHeight e / 2 - 16) s in
    let s := set_active true s in
    let s := set_tickCount 0 s in
    _updateFromTouch e (firstClientY ev) s.

Definition _handleTouchMove (e : env) (ev : touch_event) (s : state) : state * list hid :=
  if negb (_active s) || (touchCount ev <? 1)%nat then (s, [])
  else _updateFromTouch e (firstClientY ev) s.

Definition _handleTouchEnd (s : state) : state * list hid :=
  let s := set_active false s in
  let s := set_displacement 0 s in
  let s := set_direction 0 s in
  (_stopRepeat s, []).

(** Callback of the repeat timer. *)
Definition onRepeatTimer (e : env) (s : state) : state * list hid :=
  match _repeatTimer s with
  | Some d =>
    if Js.leb d (inject_Z (now e)) then
      let s := set_repeatTimer None s in
      if negb (_active s) || (_direction s =? 0)%Z then (s, [])
      else
        let '(s, out) := _fireTick e s in
        (_scheduleNextTick e s, out)
    else (s, [])
  | None => (s, [])
  end.

(** The first pending burst event that is due, and the other ones. *)
Fixpoint takeBurst (t : Q) (l : list (Q * Q)) : option (Q * list (Q * Q)) :=
  match l with
  | [] => None
  | (d, v) :: l' =>
    if Js.leb d t then Some (v, l')
    else match takeBurst t l' with
         | Some (v', r) => Some (v', (d, v) :: r)
         | None => None
         end
  end.

Definition onBurstTimer (e : env) (s : state) : state * list hid :=
  match takeBurst (inject_Z (now e)) (bursts s) with
  | Some (v, rest) => (setbursts rest s, [MouseWheel 0 v])
  | None => (s, [])
  end.

Inductive event :=
| TouchStart (ev : touch_event)
| TouchMove (ev : touch_event)
| TouchEnd
| RepeatTimer
| BurstTimer.

Definition step (e : env) (a : event) (s : state) : state * list hid :=
  match a with
  | TouchStart ev => _handleTouchStart e ev s
  | TouchMove ev => _handleTouchMove e ev s
  | TouchEnd => _handleTouchEnd s
  | RepeatTimer => onRepeatTimer e s
  | BurstTimer => onBurstTimer e s
  end.

(** Runs a script of events, each with the page as it is then, and collects
    the frames sent. *)
Fixpoint run (l : list (env * event)) (s : state) : state * list hid :=
  match l with
  | [] => (s, [])
  | (e, a) :: l' =>
    let '(s1, o1) := step e a s in
    let '(s2, o2) := run l' s1 in
    (s2, o1 ++ o2)
  end.

End Scroll.

(** ** The two recognisers on the shared touch surface

    The zoom controller listens in the capture phase, so it sees every touch
    event first; the pointer recogniser sees the event unless the controller
    stopped its propagation, and reads the controller as it is then. *)

Module App.
Import Dom Wire.

Record state := { zoom : Zoom.state; mouse : Mouse.state }.

Definition initial : state := {| zoom := Zoom.initial; mouse := Mouse.initial |}.

Inductive event :=
| TouchStart (ev : touch_event)
| TouchMove (ev : touch_event)
| TouchEnd (ev : touch_event)
| ZoomButton
| Async (a : Mouse.callback).

Section WithSqrt.
Variable Msqrt : Q -> Q.

Definition touch (zh : env -> touch_event -> Zoom.state -> Zoom.result)
  (mh : option Zoom.state -> env -> touch_event -> Mouse.state -> Mouse.state * list hid)
  (e : env) (ev : touch_event) (s : state) : state * list hid :=
  let '(z, stopped, _) := zh e ev (zoom s) in
  if stopped then ({| zoom := z; mouse := mouse s |}, [])
  else
    let '(m, out) := mh (Some z) e ev (mouse s) in
    ({| zoom := z; mouse := m |}, out).

Definition dispatch (e : env) (a : event) (s : state) : state * list hid :=
  match a with
  | TouchStart ev =>
    touch (Zoom._handleTouchStart Msqrt) (Mouse._handleTouchStart Msqrt) e ev s
  | TouchMove ev =>
    touch (Zoom._handleTouchMove Msqrt) (Mouse._handleTouchMove Msqrt) e ev s
  | TouchEnd ev =>
    touch Zoom._handleTouchEnd Mouse._handleTouchEnd e ev s
  | ZoomButton =>
    let '(z, _) := Zoom.toggle e (zoom s) in ({| zoom := z; mouse := mouse s |}, [])
  | Async a =>
    let '(m, out) := Mouse.fire e a (mouse s) in
    ({| zoom := zoom s; mouse := m |}, out)
  end.

Fixpoint run (l : list (env * event)) (s : state) : state * list hid :=
  match l with
  | [] => (s, [])
  | (e, a) :: l' =>
    let '(s1, o1) := dispatch e a s in
    let '(s2, o2) := run l' s1 in
    (s2, o1 ++ o2)
  end.

End WithSqrt.

End App.

(** ** The remap of the specification

    Section 6 of the specification: the content position within the displayed
    rectangle is linearly remapped to the full -32768..32767 axis,
    independently per axis, clamped to that range. *)

Module RemapSpec.

(** The straight line through [(inMin, outMin)] and [(inMax, outMax)]. *)
Definition linear (v inMin inMax outMin outMax : Q) : Q :=
  outMin + (v - inMin) * ((outMax - outMin) / (inMax - inMin)).

Definition clamp (lo hi v : Q) : Q :=
  if Js.ltb v lo then lo else if Js.ltb hi v then hi else v.

(** One axis: the position [p] in a rectangle starting at [origin] and
    [extent] pixels long. *)
Definition axis (p origin extent : Q) : Q :=
  clamp (-32768) 32767
    (Js.Math_round (linear (p - origin) 0 (extent - 1) (-32768) 32767)).

End RemapSpec.

(** ** The exclusive-claim rule of the specification

    Section 4.3: the classification starts undecided; it becomes pinch if the
    inter-finger distance changes by more than 15 px before the midpoint
    moves more than 10 px, otherwise scroll-or-pan. *)

Module GestureSpec.
Import Dom.








End GestureSpec.

(** ** A single tap, as the specification describes it

    Section 4.2: a release within the tap duration, the movement having
    stayed under the tap distance, that is not the second tap of a double
    tap. *)

Module TapSpec.
Import Dom Mouse.

(** Nothing is in the way of a new tap: the recogniser is enabled, no drag
    and no second tap is in progress, no two-finger tap is being tracked. *)
Definition idle (s : state) : Prop :=
  _enabled s = true /\ _isDragging s = false /\ _isSecondTapDown s = false
  /\ _twoFingerTapDetected s = false.

(** The finger goes down, moves, and is lifted. *)
Definition tapScript (e0 : env) (t0 : touch) (l : list (env * touch)) (e1 : env)
  (lifted : list touch) : list (env * event) :=
  (e0, TouchStart (oneTouch t0))
    :: moves l ++ [(e1, TouchEnd {| touches := []; changedTouches := lifted |})].

(** Every move stays within the tap distance of where the finger went down. *)
Definition withinTap (Msqrt : Q -> Q) (zc : option Zoom.state) (p0 : pos)
  (l : list (env * touch)) : Prop :=
  Forall (fun et => distance Msqrt (_getTouchPos zc (fst et) (snd et)) p0
                    <= TAP_MAX_DISTANCE) l.

(** A tap is in progress since the touch start at time [t0] on [p0], the
    state before it having been [s0]. *)
Definition tapping (s0 : state) (p0 : pos) (t0 : Z) (s : state) : Prop :=
  _enabled s = true /\ _mode s = _mode s0
  /\ _touchStartPos s = Some p0 /\ _touchStartTime s = t0 /\ _touchMoved s = false
  /\ _longPressFired s = false /\ _isDragging s = false /\ _isSecondTapDown s = false
  /\ _twoFingerTapDetected s = false
  /\ _lastTapTime s = _lastTapTime s0 /\ _lastTapPos s = _lastTapPos s0
  /\ _singleTapTimer s = _singleTapTimer s0 /\ pulses s = pulses s0.

End TapSpec.

(** ** Concrete pages and touches used in the examples *)

Module Examples.
Import Dom.

Definition rect800x600 : rect := {| left := 0; top := 0; width := 800; height := 600 |}.

(** An 800x600 container showing a 3840x2160 remote screen. *)
Definition tablet4k (t : Z) : env :=
  {| now := t; boundingRect := rect800x600; offsetWidth := 800; offsetHeight := 600;
     streamResolution :=
       Some {| realWidth := 3840; realHeight := 2160; viewWidth := 800; viewHeight := 450 |};
     streamGeometry :=
       Some {| geo_x := 0; geo_y := 75; geo_width := 800; geo_height := 450 |} |}.

(** A 500x225 container whose stream is 400 wide behind a 50 px letterbox. *)
Definition letterboxed (t : Z) : env :=
  {| now := t;
     boundingRect := {| left := 0; top := 0; width := 500; height := 225 |};
     offsetWidth := 500; offsetHeight := 225;
     streamResolution :=
       Some {| realWidth := 1920; realHeight := 1080; viewWidth := 500; viewHeight := 225 |};
     streamGeometry :=
       Some {| geo_x := 50; geo_y := 0; geo_width := 400; geo_height := 225 |} |}.

(** A scroll widget 132 px high at the top of the page: its centre is at
    66 px and the track is 50 px long on either side. *)
Definition strip (t : Z) : Scroll.env :=
  {| Scroll.now := t; Scroll.rectTop := 0; Scroll.rectHeight := 132 |}.

Definition at_ (y : Q) : Scroll.touch_event :=
  {| Scroll.touchCount := 1; Scroll.firstClientY := y |}.

(** The finger goes down 30 px below the centre, then moves. *)
Definition shuttleTo (y : Q) : list (Scroll.env * Scroll.event) :=
  [(strip 1000, Scroll.TouchStart (at_ 96)); (strip 1100, Scroll.TouchMove (at_ y))].

Definition finger (x y : Q) : touch := {| clientX := x; clientY := y |}.

(** The application with the pointer recogniser in relative mode. *)
Definition relativeApp : App.state :=
  {| App.zoom := Zoom.initial; App.mouse := Mouse.set_mode Mouse.Relative Mouse.initial |}.

Definition one (x y : Q) : touch_event :=
  {| touches := [finger x y]; changedTouches := [finger x y] |}.

Definition two (x0 y0 x1 y1 : Q) : touch_event :=
  {| touches := [finger x0 y0; finger x1 y1]; changedTouches := [finger x1 y1] |}.

(** The touch end that leaves [rest] on the surface after [lifted] left it. *)
Definition lift (lifted rest : list touch) : touch_event :=
  {| touches := rest; changedTouches := lifted |}.




(** A controller in the middle of a pinch: the fingers went from 100 px to
    130 px apart. *)
Definition pinchStart : list (env * Zoom.event) :=
  [(tablet4k 0, Zoom.TouchStart (two 100 100 200 100));
   (tablet4k 10, Zoom.TouchMove (two 100 100 230 100))].

Definition pinching : Zoom.state := Zoom.run Js.sqrt_floor pinchStart Zoom.initial.

(** A recogniser in absolute mode with the position (100, 100) planned. *)
Definition planned : Mouse.state :=
  Mouse.set_absPos (Some {| pos_x := 100; pos_y := 100 |}) Mouse.initial.

(** A recogniser in relative mode, fresh from its constructor. *)
Definition relativeIdle : Mouse.state := Mouse.set_mode Mouse.Relative Mouse.initial.

(** A recogniser in relative mode at sensitivity 1/2, the finger on the
    origin of the container, and two moves of one pixel each. *)
Definition slow : Mouse.state :=
  Mouse.set_relTouchStart (Some {| pos_x := 0; pos_y := 0 |})
    (Mouse.set_sensitivity (1 # 2) relativeIdle).

Definition creep : list (env * touch) :=
  [(tablet4k 0, finger 1 0); (tablet4k 10, finger 2 1)].

(** A shuttle with the normal preset, touched, on the strip above. *)
Definition held : Scroll.state :=
  Scroll.set_active true (Scroll.set_trackHalf 50 (Scroll.set_centerY 66
    (Scroll.initial "normal" false))).

(** One finger down, a second one 20 ms later, 100 px to its right. *)
Definition twoDown : list (env * App.event) :=
  [(tablet4k 1000, App.TouchStart (one 100 100));
   (tablet4k 1020, App.TouchStart (two 100 100 200 100))].

(** The deferred click and the release of its button, when they are due. *)
Definition later : list (env * App.event) :=
  [(tablet4k 1400, App.Async Mouse.SingleTapTimer);
   (tablet4k 1450, App.Async Mouse.PulseTimer)].

(** A quick two-finger scroll: both fingers move 20 px down and are lifted
    together, 100 ms after the first one went down. *)
Definition flick : list (env * App.event) :=
  twoDown
  ++ [(tablet4k 1060, App.TouchMove (two 100 120 200 120));
      (tablet4k 1100, App.TouchEnd (lift [finger 100 120; finger 200 120] []))]
  ++ later.

(** A two-finger tap whose fingers are lifted one after the other. *)
Definition tapInTurn : list (env * App.event) :=
  twoDown
  ++ [(tablet4k 1080, App.TouchEnd (lift [finger 200 100] [finger 100 100]));
      (tablet4k 1100, App.TouchEnd (lift [finger 100 100] []))]
  ++ later.

(** A two-finger tap whose fingers are lifted together. *)
Definition tapTogether : list (env * App.event) :=
  twoDown
  ++ [(tablet4k 1100, App.TouchEnd (lift [finger 100 100; finger 200 100] []));
      (tablet4k 1150, App.Async Mouse.PulseTimer)]
  ++ later.

(** A pinch whose fingers are lifted together, and a tap 3.5 s later. *)
Definition pinchThenTap : list (env * App.event) :=
  twoDown
  ++ [(tablet4k 1060, App.TouchMove (two 100 100 230 100));
      (tablet4k 1500, App.TouchEnd (lift [finger 100 100; finger 230 100] []));
      (tablet4k 5000, App.TouchStart (one 300 300));
      (tablet4k 5100, App.TouchEnd (lift [finger 300 300] []));
      (tablet4k 5400, App.Async Mouse.SingleTapTimer);
      (tablet4k 5450, App.Async Mouse.PulseTimer)].

End Examples.

(** ** The shape of the frames *)

Module Frames.
Import Wire.

(** A number with no fractional part. *)
Definition is_int (v : Q) : Prop := exists z : Z, v == inject_Z z.

(** A relative move as the encoder can take it: whole numbers of at most
    127 in absolute value, one of them at least not zero. *)
Definition rel_ok (dx dy : Q) : Prop :=
  is_int dx /\ is_int dy
  /\ (-127 <= dx /\ dx <= 127) /\ (-127 <= dy /\ dy <= 127)
  /\ ~ (dx == 0 /\ dy == 0).

(** The numbers of a move are whole, and a relative move is as above. *)
Definition sound (h : hid) : Prop :=
  match h with
  | MouseMoveAbs x y => is_int x /\ is_int y
  | MouseRelative dx dy => rel_ok dx dy
  | _ => True
  end.

End Frames.

(** ** One-finger gestures of the pointer recogniser

    The header of [mouse.js]: tap and hold (500 ms without moving) is a
    right click; double tap is a left click; double tap and hold is a left
    click and drag. *)

Module PressSpec.
Import Dom Mouse.

(** The finger goes down and stays on the surface, with its moves. *)
Definition press (e0 : env) (t0 : touch) (l : list (env * touch)) : list (env * event) :=
  (e0, TouchStart (oneTouch t0)) :: moves l.

(** The touch end that takes the last finger off. *)
Definition release (e : env) (lifted : list touch) : env * event :=
  (e, TouchEnd {| touches := []; changedTouches := lifted |}).

(** The finger of a second tap is down since [e0] on [p0] and no drag has
    started: the drag hold timer is armed. *)
Definition secondTapHeld (s0 : state) (p0 : pos) (e0 : env) (s : state) : Prop :=
  _enabled s = true /\ _mode s = _mode s0
  /\ _touchStartPos s = Some p0 /\ _touchMoved s = false
  /\ _isSecondTapDown s = true /\ _isDragging s = false
  /\ _dragHoldTimer s = Some (setTimeout e0 DRAG_HOLD_DELAY)
  /\ _singleTapTimer s = None /\ pulses s = pulses s0.

(** A drag is in progress: the left button is held down. *)
Definition dragging (s0 : state) (s : state) : Prop :=
  _enabled s = true /\ _mode s = _mode s0 /\ _isDragging s = true
  /\ _singleTapTimer s = None /\ pulses s = pulses s0.

End PressSpec.

(** A relative-mode recogniser on which a tap at (100, 100) was lifted at
    1100 ms, and a finger that rests 3 px away from that spot. *)
Module PressExamples.
Import Dom.

Definition tapped : Mouse.state :=
  fst (Mouse.run Js.sqrt_floor None
         (TapSpec.tapScript (Examples.tablet4k 1000) (Examples.finger 100 100) []
            (Examples.tablet4k 1100) [Examples.finger 100 100])
         Examples.relativeIdle).

Definition rest (t : Z) : list (env * touch) :=
  [(Examples.tablet4k t, Examples.finger 103 100)].

End PressExamples.

(** ** A two-finger contact seen from the application *)

Module Contact.
Import Dom.

(** The event of the zoom controller that an application event carries. *)
Definition zoomEvent (a : App.event) : option Zoom.event :=
  match a with
  | App.TouchStart ev => Some (Zoom.TouchStart ev)
  | App.TouchMove ev => Some (Zoom.TouchMove ev)
  | App.TouchEnd ev => Some (Zoom.TouchEnd ev)
  | App.ZoomButton | App.Async _ => None
  end.

(** A touch event across which two fingers or more stay on the surface. *)
Definition held (a : App.event) : Prop :=
  match zoomEvent a with
  | Some z => Zoom.keepsTwoFingers z
  | None => False
  end.

(** The controller is in the middle of a pinch or of a pan. *)
Definition claimed (s : Zoom.state) : Prop :=
  Zoom.gesture s = Zoom.g_pinch \/ Zoom.gesture s = Zoom.g_pan.

(** At most one classification flag is set. *)
Definition oneGesture (s : Zoom.state) : Prop :=
  Zoom.gesture s = Zoom.g_none \/ Zoom.gesture s = Zoom.g_undecided
  \/ Zoom.gesture s = Zoom.g_pinch \/ Zoom.gesture s = Zoom.g_scroll
  \/ Zoom.gesture s = Zoom.g_pan.



End Contact.

(** ** What the zoom controller displays *)

Module View.
Import Dom Zoom.

(** The transform in force: zoomed flag, scale and translation. *)
Definition view (s : state) : bool * Q * Q * Q :=
  (_zoomed s, _scale s, _translateX s, _translateY s).




End View.

(** ** What the jog shuttle sends *)

Module ShuttleSpec.
Import Wire Scroll.

(** The wheel amount of one tick: the units of the preset, three times as
    much in macOS mode. *)
Definition amount (p : preset) (mac : bool) : Q :=
  if mac then units p * MAC_UNIT_MULTIPLIER else units p.

(** A vertical tick of one amount, up or down. *)
Definition tickFrame (p : preset) (mac : bool) (h : hid) : Prop :=
  match h with
  | MouseWheel dx dy => dx == 0 /\ (dy == amount p mac \/ dy == - amount p mac)
  | _ => False
  end.

(** Events that neither put a finger on the widget nor flush a pending
    burst: moves, touch ends and expiries of the repeat timer. *)
Definition passive (a : event) : Prop :=
  match a with
  | TouchMove _ | TouchEnd | RepeatTimer => True
  | TouchStart _ | BurstTimer => False
  end.

(** The preset of a widget whose [_preset] is [name]. *)
Definition presetOf (name : string) : preset := _getPreset (initial name false).

(** What stays true of a widget built with the preset [name] and the macOS
    mode [mac]: its settings, a direction of -1, 0 or 1, and pending burst
    events of one amount each. *)
Definition steady (name : string) (mac : bool) (s : state) : Prop :=
  _preset s = name /\ _macMode s = mac
  /\ (_direction s = 0 \/ _direction s = 1 \/ _direction s = -1)%Z
  /\ Forall (fun dv => snd dv == amount (presetOf name) mac
                       \/ snd dv == - amount (presetOf name) mac) (bursts s).

(** The widget is at rest: no finger on it, no direction, no repeat timer. *)
Definition released (s : state) : Prop :=
  _active s = false /\ _direction s = 0%Z /\ _repeatTimer s = None
  /\ _displacement s = 0.

(** The direction agrees with the thumb: it is 0, or 1 with the thumb at
    least a dead zone below the centre, or -1 with the thumb at least a
    dead zone above it. *)
Definition directed (s : state) : Prop :=
  _direction s = 0%Z
  \/ (_direction s = 1%Z /\ deadZone (_getPreset s) <= _displacement s)
  \/ (_direction s = (-1)%Z /\ _displacement s <= - deadZone (_getPreset s)).

(** The thumb is on the track. *)
Definition onTrack (s : state) : Prop :=
  Qabs (_displacement s) <= Qabs (_trackHalf s).

End ShuttleSpec.

(** ** The HID senders of the websocket ([js/websocket.js])

    The frames are byte lists; a byte is an integer from 0 to 255.  Key and
    button names are ASCII, so that [TextEncoder] yields one byte per
    character. *)

Module Encoder.
Import Wire.

(** The integer part of a number, as taken by [ToInt32] and by the typed
    arrays: rounding towards zero. *)
Definition trunc (v : Q) : Z := if Qle_bool 0 v then Qfloor v else Qceiling v.

(** [ToInt32]: the integer part, wrapped into 32 signed bits. *)
Definition ToInt32 (v : Q) : Z := ((trunc v + 2 ^ 31) mod 2 ^ 32 - 2 ^ 31)%Z.

(** [(x >> 8) & 0xFF] and [x & 0xFF]. *)
Definition highByte (x : Q) : Z := Z.land (Z.shiftr (ToInt32 x) 8) 255.
Definition lowByte (x : Q) : Z := Z.land (ToInt32 x) 255.

(** The byte that an [Int8Array] stores for a number. *)
Definition int8Byte (v : Q) : Z := (trunc v mod 256)%Z.

Definition buttonName (b : button) : string :=
  match b with
  | Left => "left"
  | Right => "right"
  | Middle => "middle"
  end.

(** The bytes of an ASCII string. *)
Definition ascii_bytes (s : string) : list Z :=
  map (fun c => Z.of_N (Ascii.N_of_ascii c)) (list_ascii_of_string s).

Definition stateByte (state : bool) : Z := if state then 1%Z else 0%Z.

Definition sendKey (connected : bool) (key : string) (state : bool) : option (list Z) :=
  if negb connected then None
  else Some (1%Z :: stateByte state :: ascii_bytes key).

Definition sendMouseButton (connected : bool) (b : button) (state : bool)
  : option (list Z) :=
  if negb connected then None
  else Some (2%Z :: stateByte state :: ascii_bytes (buttonName b)).

Definition sendMouseMoveAbs (connected : bool) (x y : Q) : option (list Z) :=
  if negb connected then None
  else Some [3%Z; highByte x; lowByte x; highByte y; lowByte y].

Definition sendMouseRelative (connected : bool) (dx dy : Q) : option (list Z) :=
  if negb connected then None
  else Some [4%Z; 0%Z; int8Byte dx; int8Byte dy].

Definition sendMouseWheel (connected : bool) (dx dy : Q) : option (list Z) :=
  if negb connected then None
  else Some [5%Z; 0%Z; int8Byte dx; int8Byte dy].

(** What the websocket object does with a call of the recogniser. *)
Definition send (connected : bool) (h : hid) : option (list Z) :=
  match h with
  | MouseButton b state => sendMouseButton connected b state
  | MouseMoveAbs x y => sendMouseMoveAbs connected x y
  | MouseRelative dx dy => sendMouseRelative connected dx dy
  | MouseWheel dx dy => sendMouseWheel connected dx dy
  end.

(** How the receiving side reads the fields: two's complement, the 16-bit
    ones with the high byte first. *)
Definition signed (bits : Z) (u : Z) : Z :=
  (if u <? 2 ^ (bits - 1) then u else u - 2 ^ bits)%Z.

Definition readInt16 (hi lo : Z) : Z := signed 16 (hi * 256 + lo).
Definition readInt8 (b : Z) : Z := signed 8 b.

Definition isByte (b : Z) : Prop := (0 <= b < 256)%Z.

(** A frame read back into the call it came from (the numbers being the
    integers on the wire). *)
Definition received (frame : list Z) (h : hid) : Prop :=
  match h with
  | MouseMoveAbs x y =>
    exists a b c d,
      frame = [3%Z; a; b; c; d] /\ isByte a /\ isByte b /\ isByte c /\ isByte d
      /\ inject_Z (readInt16 a b) == x /\ inject_Z (readInt16 c d) == y
  | MouseRelative dx dy =>
    exists a b,
      frame = [4%Z; 0%Z; a; b] /\ isByte a /\ isByte b
      /\ inject_Z (readInt8 a) == dx /\ inject_Z (readInt8 b) == dy
  | MouseWheel dx dy =>
    exists a b,
      frame = [5%Z; 0%Z; a; b] /\ isByte a /\ isByte b
      /\ inject_Z (readInt8 a) == dx /\ inject_Z (readInt8 b) == dy
  | MouseButton b state =>
    frame = 2%Z :: stateByte state :: ascii_bytes (buttonName b)
  end.

End Encoder.

(** ** Two-finger scroll of the pointer recogniser *)

Module ScrollSpec.
Import Dom Mouse.

(** A move of two fingers, and a script of them. *)
Definition pairMove (t : touch * touch) : event :=
  TouchMove {| touches := [fst t; snd t]; changedTouches := [fst t; snd t] |}.

Definition pairMoves (l : list (env * (touch * touch))) : list (env * event) :=
  map (fun et => (fst et, pairMove (snd et))) l.

(** The midpoint of the two fingers is within the scroll dead zone of 5 px
    around [a] on both axes. *)
Definition nearAnchor (a : pos) (t : touch * touch) : Prop :=
  Qabs (pos_x (_getMidpoint (fst t) (snd t)) - pos_x a) <= 5
  /\ Qabs (pos_y (_getMidpoint (fst t) (snd t)) - pos_y a) <= 5.

(** The wheel amount of one axis: nothing within 5 px, else the
    sensitivity with the sign of the displacement. *)
Definition wheelOf (sens d : Q) : Q :=
  if Js.gtb (Js.Math_abs d) 5 then (if Js.gtb d 0 then sens else - sens) else 0.

End ScrollSpec.

(** ** The modifiers of KeyboardHandler ([js/input/keyboard.js]) *)

Module Keyboard.

(** A call of [ws.sendKey]. *)
Definition keyCall : Type := string * bool.

(** A JavaScript [Set] of strings: its elements in insertion order. *)
Definition has (key : string) (l : list string) : bool := existsb (String.eqb key) l.
Definition add (key : string) (l : list string) : list string :=
  if has key l then l else l ++ [key].
Definition delete (key : string) (l : list string) : list string :=
  filter (fun k => negb (String.eqb key k)) l.

Record state := {
  _captureEnabled : bool;
  _activeModifiers : list string
}.

Definition initial : state := {| _captureEnabled := false; _activeModifiers := [] |}.

(** Toggle a modifier key on/off (for on-screen keyboard) *)
Definition toggleModifier (key : string) (s : state) : state * bool * list keyCall :=
  if has key (_activeModifiers s) then
    ({| _captureEnabled := _captureEnabled s;
        _activeModifiers := delete key (_activeModifiers s) |}, false, [(key, false)])
  else
    ({| _captureEnabled := _captureEnabled s;
        _activeModifiers := add key (_activeModifiers s) |}, true, [(key, true)]).

Definition isModifierActive (key : string) (s : state) : bool :=
  has key (_activeModifiers s).

Definition releaseAll (s : state) : state * list keyCall :=
  ({| _captureEnabled := _captureEnabled s; _activeModifiers := [] |},
   map (fun key => (key, false)) (_activeModifiers s)).

Definition setCaptureEnabled (enabled : bool) (s : state) : state * list keyCall :=
  let s := {| _captureEnabled := enabled; _activeModifiers := _activeModifiers s |} in
  if negb enabled then releaseAll s else (s, []).

Definition toggleCapture (s : state) : state * list keyCall :=
  setCaptureEnabled (negb (_captureEnabled s)) s.

(** The calls that set and clear the modifiers of the on-screen keyboard. *)
Inductive event :=
| ToggleModifier (key : string)
| ReleaseAll
| SetCaptureEnabled (enabled : bool)
| ToggleCapture.

Definition step (a : event) (s : state) : state * list keyCall :=
  match a with
  | ToggleModifier key => let '(s, _, out) := toggleModifier key s in (s, out)
  | ReleaseAll => releaseAll s
  | SetCaptureEnabled enabled => setCaptureEnabled enabled s
  | ToggleCapture => toggleCapture s
  end.

Fixpoint run (l : list event) (s : state) : state * list keyCall :=
  match l with
  | [] => (s, [])
  | a :: l' =>
    let '(s1, o1) := step a s in
    let '(s2, o2) := run l' s1 in
    (s2, o1 ++ o2)
  end.

(** How many more presses than releases of [key] the calls hold. *)
Fixpoint heldCount (key : string) (l : list keyCall) : Z :=
  match l with
  | [] => 0
  | (k, st) :: l' =>
    ((if String.eqb key k then (if st then 1 else -1) else 0) + heldCount key l')%Z
  end.

End Keyboard.

(** ** Send-as-you-type of the keyboard panel ([js/ui/keyboard-ui.js])

    A string is the list of its UTF-16 code units. *)

Module TextInput.

Section WithChar.
Variable char : Type.

(** What one input event asks of the keyboard handler: text to print, or
    one press of Backspace (whose release follows on a timer). *)
Inductive call :=
| SendText (added : list char)
| BackspaceDown.

(** [_handleTextInput], from the value of the field and the value seen at
    the previous event, to the new previous value and the calls. *)
Definition _handleTextInput (current prev : list char) : list char * list call :=
  (current,
   if (List.length prev <? List.length current)%nat then
     [SendText (skipn (List.length prev) current)]
   else if (List.length current <? List.length prev)%nat then
     repeat BackspaceDown (List.length prev - List.length current)
   else []).

(** The values of the field at the input events of a session, handled in
    turn from the previous value [prev]. *)
Fixpoint session (values : list (list char)) (prev : list char) : list char * list call :=
  match values with
  | [] => (prev, [])
  | v :: l =>
    let '(p1, o1) := _handleTextInput v prev in
    let '(p2, o2) := session l p1 in
    (p2, o1 ++ o2)
  end.

(** The text of a remote machine that appends what is printed and deletes
    its last character at every press of Backspace. *)
Definition typed (remote : list char) (c : call) : list char :=
  match c with
  | SendText added => remote ++ added
  | BackspaceDown => removelast remote
  end.

Definition replay (calls : list call) (remote : list char) : list char :=
  fold_left typed calls remote.

(** An edit at the end of the text: characters appended, or characters
    deleted from the end. *)
Definition endEdit (prev current : list char) : Prop :=
  (exists added, current = prev ++ added) \/ (exists deleted, prev = current ++ deleted).

(** Every value of the session is an edit at the end of the one before. *)
Fixpoint endEdits (prev : list char) (values : list (list char)) : Prop :=
  match values with
  | [] => True
  | v :: l => endEdit prev v /\ endEdits v l
  end.

End WithChar.

End TextInput.

(** ** The connection layer of the websocket ([js/websocket.js]) *)

Module Socket.

(** [WebSocket.readyState]. *)
Inductive readyState := CONNECTING | OPEN | CLOSING | CLOSED.

(** What the connection layer does: frames put on the wire, events emitted
    to the listeners, sockets opened and closed. *)
Inductive effect :=
| Send (frame : list Z)
| Emit (name : string)
| NewSocket
| CloseSocket.

(** [_ws] is the ready state of the socket whose handlers are installed;
    the two timers are present or not. *)
Record state := {
  _ws : option readyState;
  _pingTimer : bool;
  _missedHeartbeats : nat;
  _reconnectTimer : bool;
  _stopped : bool
}.

Definition initial : state :=
  {| _ws := None; _pingTimer := false; _missedHeartbeats := 0;
     _reconnectTimer := false; _stopped := false |}.

Definition connected (s : state) : bool :=
  match _ws s with
  | Some OPEN => true
  | _ => false
  end.

Definition _cleanup (s : state) : state * list effect :=
  ({| _ws := None; _pingTimer := false; _missedHeartbeats := _missedHeartbeats s;
      _reconnectTimer := false; _stopped := _stopped s |},
   match _ws s with
   | Some OPEN => [CloseSocket]
   | _ => []
   end).

Definition _tryConnect (s : state) : state * list effect :=
  if _stopped s then (s, [])
  else
    let '(s, fx) := _cleanup s in
    ({| _ws := Some CONNECTING; _pingTimer := _pingTimer s;
        _missedHeartbeats := _missedHeartbeats s;
        _reconnectTimer := _reconnectTimer s; _stopped := _stopped s |},
     fx ++ [NewSocket]).

Definition connect (s : state) : state * list effect :=
  _tryConnect {| _ws := _ws s; _pingTimer := _pingTimer s;
                 _missedHeartbeats := _missedHeartbeats s;
                 _reconnectTimer := _reconnectTimer s; _stopped := false |}.

Definition disconnect (s : state) : state * list effect :=
  _cleanup {| _ws := _ws s; _pingTimer := _pingTimer s;
              _missedHeartbeats := _missedHeartbeats s;
              _reconnectTimer := _reconnectTimer s; _stopped := true |}.

Definition _scheduleReconnect (s : state) : state * list effect :=
  let '(s, fx) := _cleanup s in
  ({| _ws := _ws s; _pingTimer := _pingTimer s; _missedHeartbeats := _missedHeartbeats s;
      _reconnectTimer := negb (_stopped s); _stopped := _stopped s |},
   fx ++ [Emit "close"]).

(** [ws.send] on the socket: it throws on a missing socket and on one that
    is still connecting, and drops the data on one that is closing or
    closed. *)
Definition trySend (frame : list Z) (s : state) : option (list effect) :=
  match _ws s with
  | Some OPEN => Some [Send frame]
  | Some CLOSING | Some CLOSED => Some []
  | Some CONNECTING | None => None
  end.

Definition _ping (s : state) : state * list effect :=
  let s := {| _ws := _ws s; _pingTimer := _pingTimer s;
              _missedHeartbeats := S (_missedHeartbeats s);
              _reconnectTimer := _reconnectTimer s; _stopped := _stopped s |} in
  if (15 <=? _missedHeartbeats s)%nat then _scheduleReconnect s
  else
    match trySend [0%Z] s with
    | Some fx => (s, fx)
    | None => _scheduleReconnect s
    end.

(** The handlers installed on the socket by [_tryConnect]. *)
Definition onopen (s : state) : state * list effect :=
  ({| _ws := Some OPEN; _pingTimer := true; _missedHeartbeats := 0;
      _reconnectTimer := _reconnectTimer s; _stopped := _stopped s |},
   [Emit "open"]).

(** A binary message, by its first byte. *)
Definition onmessage (first : Z) (s : state) : state * list effect :=
  if (first =? 255)%Z then
    ({| _ws := _ws s; _pingTimer := _pingTimer s; _missedHeartbeats := 0;
        _reconnectTimer := _reconnectTimer s; _stopped := _stopped s |}, [])
  else (s, []).

Definition onerror (s : state) : state * list effect := _scheduleReconnect s.

Definition onclose (s : state) : state * list effect :=
  let '(s, fx) := _scheduleReconnect s in (s, Emit "close" :: fx).

(** What happens to the connection layer: the calls of the application,
    the events of the socket (delivered only while its handlers are
    installed: the opening of a connecting socket, a message on an open
    one) and the expiries of the timers (only while they exist). *)
Inductive event :=
| Connect
| Disconnect
| Open
| Binary (first : Z)
| Error
| Close
| PingTick
| ReconnectTick.

Definition step (a : event) (s : state) : state * list effect :=
  match a with
  | Connect => connect s
  | Disconnect => disconnect s
  | Open =>
    match _ws s with
    | Some CONNECTING => onopen s
    | _ => (s, [])
    end
  | Binary first =>
    match _ws s with
    | Some OPEN => onmessage first s
    | _ => (s, [])
    end
  | Error => if Js.isSome (_ws s) then onerror s else (s, [])
  | Close => if Js.isSome (_ws s) then onclose s else (s, [])
  | PingTick => if _pingTimer s then _ping s else (s, [])
  | ReconnectTick => if _reconnectTimer s then _tryConnect s else (s, [])
  end.

Fixpoint run (l : list event) (s : state) : state * list effect :=
  match l with
  | [] => (s, [])
  | a :: l' =>
    let '(s1, o1) := step a s in
    let '(s2, o2) := run l' s1 in
    (s2, o1 ++ o2)
  end.

(** The socket is open and the heartbeat runs. *)
Definition alive (s : state) : Prop := _ws s = Some OPEN /\ _pingTimer s = true.

End Socket.

(** * Properties *)

(** Case analysis on the next scrutinee of the goal, or of a hypothesis. *)
Ltac break_match :=
  match goal with
  | |- context [match ?x with _ => _ end] => destruct x eqn:?
  end;
  cbv beta iota zeta; cbn [fst snd].

Ltac break_hyp :=
  match goal with
  | H : context [match ?x with _ => _ end] |- _ => destruct x eqn:?
  end.

(** ** Comparisons and rounding *)

Module JsFacts.
Import Js.

Lemma ltb_true a b : ltb a b = true <-> a < b.
Proof.
  unfold ltb. rewrite negb_true_iff, <- not_true_iff_false, Qle_bool_iff.
  split; [apply Qnot_le_lt | apply Qlt_not_le].
Qed.

Lemma ltb_false a b : ltb a b = false <-> b <= a.
Proof.
  unfold ltb. rewrite negb_false_iff, Qle_bool_iff. reflexivity.
Qed.

Lemma gtb_true a b : gtb a b = true <-> b < a.
Proof. apply ltb_true. Qed.

Lemma gtb_false a b : gtb a b = false <-> a <= b.
Proof. apply ltb_false. Qed.

Lemma leb_true a b : leb a b = true <-> a <= b.
Proof. apply Qle_bool_iff. Qed.

Lemma leb_false a b : leb a b = false <-> b < a.
Proof.
  unfold leb. rewrite <- not_true_iff_false, Qle_bool_iff.
  split; [apply Qnot_le_lt | apply Qlt_not_le].
Qed.

Lemma geb_true a b : geb a b = true <-> b <= a.
Proof. apply Qle_bool_iff. Qed.

Lemma geb_false a b : geb a b = false <-> a < b.
Proof. apply leb_false. Qed.

Lemma truthy_false v : truthy v = false <-> v == 0.
Proof.
  unfold truthy. rewrite negb_false_iff. apply Qeq_bool_iff.
Qed.

Lemma truthy_true v : truthy v = true <-> ~ v == 0.
Proof.
  unfold truthy. rewrite negb_true_iff, <- not_true_iff_false, Qeq_bool_iff.
  reflexivity.
Qed.

Lemma or_else_zero a b : a == 0 -> or_else a b = b.
Proof.
  intros H. unfold or_else. apply truthy_false in H. now rewrite H.
Qed.

Lemma or_else_nonzero a b : ~ a == 0 -> or_else a b = a.
Proof.
  intros H. unfold or_else. apply truthy_true in H. now rewrite H.
Qed.

Lemma Math_round_compat a b : a == b -> Math_round a = Math_round b.
Proof.
  intros H. unfold Math_round. f_equal. apply Qfloor_comp. now rewrite H.
Qed.

Lemma Math_floor_compat a b : a == b -> Math_floor a = Math_floor b.
Proof.
  intros H. unfold Math_floor. f_equal. now apply Qfloor_comp.
Qed.

(** The nearest integer is within one half of the argument. *)
Lemma Math_round_near v : v - (1 # 2) < Math_round v /\ Math_round v <= v + (1 # 2).
Proof.
  unfold Math_round. split.
  - pose proof (Qlt_floor (v + (1 # 2))) as H.
    rewrite inject_Z_plus in H. change (inject_Z 1) with 1 in H. lra.
  - apply Qfloor_le.
Qed.

Lemma num_of_N_nonneg n : 0 <= num_of_N n.
Proof.
  unfold num_of_N. change 0 with (inject_Z 0). rewrite <- Zle_Qle. lia.
Qed.

(** Clamping into an interval, as [Math.min(Math.max(v, lo), hi)]. *)
Lemma min_max_between lo hi v :
  lo <= hi -> lo <= Math_min (Math_max v lo) hi /\ Math_min (Math_max v lo) hi <= hi.
Proof.
  intros H. unfold Math_min, Math_max. split.
  - apply Q.min_glb; [apply Q.le_max_r | exact H].
  - apply Q.le_min_r.
Qed.

(** Clamping into a symmetric interval, as [Math.max(-m, Math.min(m, v))]. *)
Lemma max_min_abs m v : 0 <= m -> Qabs (Math_max (- m) (Math_min m v)) <= m.
Proof.
  intros H. unfold Math_min, Math_max. apply Qabs_Qle_condition. split.
  - apply Q.le_max_l.
  - apply Q.max_lub; [lra | apply Q.le_min_l].
Qed.

End JsFacts.

(** ** Absolute coordinates *)

Module RemapFacts.
Import Js JsFacts Dom Wire Mouse.

Lemma clamp_min_max lo hi v :
  lo <= hi -> Math_min (Math_max v lo) hi = RemapSpec.clamp lo hi v.
Proof.
  intros Hlh. unfold RemapSpec.clamp, Math_min, Math_max.
  unfold Qmin, Qmax, GenericMinMax.gmin, GenericMinMax.gmax.
  destruct (ltb v lo) eqn:E1.
  - apply ltb_true in E1.
    destruct (Qcompare_spec v lo) as [H|H|H]; try lra.
    destruct (Qcompare_spec lo hi) as [H'|H'|H']; try lra; reflexivity.
  - apply ltb_false in E1.
    destruct (Qcompare_spec v lo) as [H|H|H]; try lra;
      (destruct (ltb hi v) eqn:E2;
       [apply ltb_true in E2 | apply ltb_false in E2];
       destruct (Qcompare_spec v hi) as [H'|H'|H']; try lra; reflexivity).
Qed.

Lemma remap_linear v inMin inMax outMin outMax :
  ~ inMax == inMin -> outMin <= outMax ->
  _remap v inMin inMax outMin outMax
  = RemapSpec.clamp outMin outMax
      (Math_round (RemapSpec.linear v inMin inMax outMin outMax)).
Proof.
  intros Hne Hle. unfold _remap. rewrite clamp_min_max by exact Hle.
  f_equal. apply Math_round_compat.
  rewrite or_else_nonzero by (intro H; apply Hne; lra).
  unfold RemapSpec.linear. field. intro H; apply Hne; lra.
Qed.

Lemma remap_range v inMin inMax outMin outMax :
  outMin <= outMax ->
  outMin <= _remap v inMin inMax outMin outMax
  /\ _remap v inMin inMax outMin outMax <= outMax.
Proof.
  intros H. unfold _remap. now apply min_max_between.
Qed.

Lemma remap_degenerate v inMin inMax outMin outMax :
  inMax == inMin ->
  _remap v inMin inMax outMin outMax
  = Math_min (Math_max (Math_round ((v - inMin) * (outMax - outMin) + outMin)) outMin)
      outMax.
Proof.
  intros H. unfold _remap. rewrite or_else_zero by lra.
  f_equal. f_equal. apply Math_round_compat. field.
Qed.

(** C3. An absolute-mode flush of the planned position [p] against the stream
    geometry [geo] sends exactly one absolute move and clears the planned
    position.  Each coordinate is [_remap] of the offset of [p] from the
    origin of the geometry on that axis, from the span [0, extent - 1] onto
    [-32768, 32767]; whenever that span is not a single point this is the
    linear remap of the specification, rounded and then clamped, and it
    depends on the data of its own axis only.  A position of 100 in a
    geometry that starts at 50 and is 400 wide gives
    [remap(50, 0, 399, -32768, 32767)], which is -24556. *)
Theorem C3_absolute_move_is_linear_remap :
  (forall (e : env) (s : state) (p : pos) (geo : geometry),
      _mode s = Absolute -> _absPos s = Some p -> streamGeometry e = Some geo ->
      exists x y,
        _sendPlannedMove e s = (set_absPos None s, [MouseMoveAbs x y])
        /\ x = _remap (pos_x p - geo_x geo) 0 (geo_width geo - 1) (-32768) 32767
        /\ y = _remap (pos_y p - geo_y geo) 0 (geo_height geo - 1) (-32768) 32767
        /\ (~ geo_width geo == 1 ->
            x = RemapSpec.axis (pos_x p) (geo_x geo) (geo_width geo))
        /\ (~ geo_height geo == 1 ->
            y = RemapSpec.axis (pos_y p) (geo_y geo) (geo_height geo)))
  /\ (forall (e : env) (s : state) (py : Q) (gy gh : Q),
      _mode s = Absolute ->
      _absPos s = Some {| pos_x := 100; pos_y := py |} ->
      streamGeometry e
      = Some {| geo_x := 50; geo_y := gy; geo_width := 400; geo_height := gh |} ->
      exists y,
        snd (_sendPlannedMove e s)
        = [MouseMoveAbs (_remap 50 0 399 (-32768) 32767) y]
        /\ _remap 50 0 399 (-32768) 32767 = -24556).
Proof.
  split.
  - intros e s p geo Hm Hp Hg.
    eexists. eexists. split; [| split; [reflexivity | split; [reflexivity | split]]].
    + unfold _sendPlannedMove. rewrite Hm, Hp, Hg. reflexivity.
    + intros Hw. unfold RemapSpec.axis. apply remap_linear; lra.
    + intros Hh. unfold RemapSpec.axis. apply remap_linear; lra.
  - intros e s py gy gh Hm Hp Hg.
    eexists. split.
    + unfold _sendPlannedMove. rewrite Hm, Hp, Hg. cbn [snd pos_x pos_y geo_x geo_y geo_width geo_height].
      assert (E : _remap (100 - 50) 0 (400 - 1) (-32768) 32767
                  = _remap 50 0 399 (-32768) 32767) by (vm_compute; reflexivity).
      rewrite E. reflexivity.
    + vm_compute. reflexivity.
Qed.

End RemapFacts.

Module RangeFacts.
Import Js JsFacts Dom Wire Mouse RemapFacts.

Lemma abs_ok_app l1 l2 : Forall abs_ok l1 -> Forall abs_ok l2 -> Forall abs_ok (l1 ++ l2).
Proof. intros; apply Forall_app; now split. Qed.

Lemma sendPlannedMove_ok e s : Forall abs_ok (snd (_sendPlannedMove e s)).
Proof.
  unfold _sendPlannedMove. repeat break_match; cbn [snd]; try constructor.
  - split; apply remap_range; lra.
  - constructor.
Qed.

Lemma click_ok e b s : Forall abs_ok (snd (click e b s)).
Proof. cbn. repeat constructor. Qed.

Lemma relativeMove_ok p s : Forall abs_ok (snd (relativeMove p s)).
Proof.
  unfold relativeMove. repeat break_match; cbn [snd]; repeat constructor.
Qed.

Create HintDb abs.

#[local] Hint Resolve sendPlannedMove_ok click_ok relativeMove_ok abs_ok_app : abs.
#[local] Hint Extern 1 (Forall abs_ok []) => constructor : abs.
#[local] Hint Extern 1 (Forall abs_ok [_]) => repeat constructor : abs.

Ltac use_eq :=
  match goal with
  | H : _sendPlannedMove ?e ?s = (_, ?o) |- context [?o] =>
    let K := fresh in
    pose proof (sendPlannedMove_ok e s) as K; rewrite H in K; cbn [snd] in K; clear H
  | H : click ?e ?b ?s = (_, ?o) |- context [?o] =>
    let K := fresh in
    pose proof (click_ok e b s) as K; rewrite H in K; cbn [snd] in K; clear H
  | H : relativeMove ?p ?s = (_, ?o) |- context [?o] =>
    let K := fresh in
    pose proof (relativeMove_ok p s) as K; rewrite H in K; cbn [snd] in K; clear H
  | H : (_, _) = (_, _) |- _ => inversion H; subst; clear H
  end.

Ltac abs_solve :=
  repeat (break_match || break_hyp || use_eq); cbn [snd]; auto 6 with abs.

Lemma touchStart_ok Msqrt zc e ev s :
  Forall abs_ok (snd (_handleTouchStart Msqrt zc e ev s)).
Proof. unfold _handleTouchStart. abs_solve. Qed.

Lemma touchMove_ok Msqrt zc e ev s :
  Forall abs_ok (snd (_handleTouchMove Msqrt zc e ev s)).
Proof. unfold _handleTouchMove. abs_solve. Qed.

Lemma touchEnd_ok zc e ev s : Forall abs_ok (snd (_handleTouchEnd zc e ev s)).
Proof. unfold _handleTouchEnd. abs_solve. Qed.

Lemma fire_ok e a s : Forall abs_ok (snd (fire e a s)).
Proof.
  destruct a; cbn [fire]; auto with abs;
    unfold onDragHoldTimer, onLongPressTimer, onSingleTapTimer, onPulseTimer, sendButton;
    abs_solve.
Qed.

Lemma touch_ok zh mh e ev s :
  (forall zc, Forall abs_ok (snd (mh zc e ev (App.mouse s)))) ->
  Forall abs_ok (snd (App.touch zh mh e ev s)).
Proof.
  intros H. unfold App.touch.
  destruct (zh e ev (App.zoom s)) as [[z stopped] fx].
  destruct stopped; cbn [snd]; [constructor |].
  specialize (H (Some z)). destruct (mh (Some z) e ev (App.mouse s)). exact H.
Qed.

Lemma dispatch_ok Msqrt e a s : Forall abs_ok (snd (App.dispatch Msqrt e a s)).
Proof.
  destruct a; cbn [App.dispatch].
  - apply touch_ok. intros; apply touchStart_ok.
  - apply touch_ok. intros; apply touchMove_ok.
  - apply touch_ok. intros; apply touchEnd_ok.
  - destruct (Zoom.toggle e (App.zoom s)). constructor.
  - pose proof (fire_ok e a (App.mouse s)) as K.
    destruct (fire e a (App.mouse s)). exact K.
Qed.

(** C9. [_remap] is a total function whose result lies between its output
    bounds whatever its input; when the input span is a single point
    ([inMax = inMin]) the divisor is 1, so the result is the rounded and
    clamped [(value - inMin) * (outMax - outMin) + outMin].  Hence both
    coordinates of every absolute move sent by the recogniser, whatever the
    event and whatever the stream geometry (a zero-size one included), lie
    in [-32768, 32767]. *)
Theorem C9_remap_total_and_in_range :
  (forall v inMin inMax outMin outMax : Q,
      outMin <= outMax ->
      outMin <= _remap v inMin inMax outMin outMax
      /\ _remap v inMin inMax outMin outMax <= outMax)
  /\ (forall v inMin inMax outMin outMax : Q,
      inMax == inMin ->
      _remap v inMin inMax outMin outMax
      = Math_min (Math_max (Math_round ((v - inMin) * (outMax - outMin) + outMin))
                    outMin) outMax)
  /\ (forall (Msqrt : Q -> Q) (e : env) (a : App.event) (s : App.state) (x y : Q),
      In (MouseMoveAbs x y) (snd (App.dispatch Msqrt e a s)) ->
      in_int16 x /\ in_int16 y)
  /\ (forall (e : env) (s : state) (p : pos) (gx gy : Q),
      _mode s = Absolute -> _absPos s = Some p ->
      streamGeometry e
      = Some {| geo_x := gx; geo_y := gy; geo_width := 0; geo_height := 0 |} ->
      exists x y, snd (_sendPlannedMove e s) = [MouseMoveAbs x y]
                  /\ in_int16 x /\ in_int16 y).
Proof.
  split; [| split; [| split]].
  - intros. now apply remap_range.
  - intros. now apply remap_degenerate.
  - intros Msqrt e a s x y Hin.
    pose proof (dispatch_ok Msqrt e a s) as K.
    rewrite Forall_forall in K. exact (K _ Hin).
  - intros e s p gx gy Hm Hp Hg.
    pose proof (sendPlannedMove_ok e s) as K.
    unfold _sendPlannedMove in *. rewrite Hm, Hp, Hg in *. cbn [snd] in *.
    eexists. eexists. split; [reflexivity |].
    inversion K as [| h l Hh Hl]; subst. exact Hh.
Qed.

End RangeFacts.

(** ** Relative movement *)

Module RelativeFacts.
Import Js JsFacts Dom Wire Mouse.

Lemma relativeMove_zero p a s :
  _relTouchStart s = Some a ->
  relativeDelta (_sensitivity s) (pos_x a) (pos_x p) == 0 ->
  relativeDelta (_sensitivity s) (pos_y a) (pos_y p) == 0 ->
  relativeMove p s = (set_relTouchStart (Some p) s, []).
Proof.
  intros Ha Hx Hy. unfold relativeMove. rewrite Ha.
  apply truthy_false in Hx. apply truthy_false in Hy. now rewrite Hx, Hy.
Qed.

Lemma relativeMove_nonzero p a s :
  _relTouchStart s = Some a ->
  ~ (relativeDelta (_sensitivity s) (pos_x a) (pos_x p) == 0
     /\ relativeDelta (_sensitivity s) (pos_y a) (pos_y p) == 0) ->
  relativeMove p s
  = (set_relTouchStart (Some p) s,
     [MouseRelative (relativeDelta (_sensitivity s) (pos_x a) (pos_x p))
                    (relativeDelta (_sensitivity s) (pos_y a) (pos_y p))]).
Proof.
  intros Ha Hn. unfold relativeMove. rewrite Ha.
  destruct (truthy (relativeDelta (_sensitivity s) (pos_x a) (pos_x p))) eqn:Ex;
    [reflexivity |].
  destruct (truthy (relativeDelta (_sensitivity s) (pos_y a) (pos_y p))) eqn:Ey;
    [reflexivity |].
  apply truthy_false in Ex. apply truthy_false in Ey. tauto.
Qed.

(** One one-finger move in relative mode whose deltas are both zero: what it
    sends has no relative move in it, the anchor is the new position, and
    the mode and the sensitivity are as before. *)
Lemma silent_move Msqrt zc e t s a :
  _enabled s = true -> _isZoomGesture zc = false -> _mode s = Relative ->
  _relTouchStart s = Some a ->
  relativeDelta (_sensitivity s) (pos_x a) (pos_x (_getTouchPos zc e t)) == 0 ->
  relativeDelta (_sensitivity s) (pos_y a) (pos_y (_getTouchPos zc e t)) == 0 ->
  forall s' out,
    _handleTouchMove Msqrt zc e (oneTouch t) s = (s', out) ->
    filter is_relative out = []
    /\ _relTouchStart s' = Some (_getTouchPos zc e t)
    /\ _enabled s' = true /\ _mode s' = Relative /\ _sensitivity s' = _sensitivity s.
Proof.
  intros He Hz Hm Ha Hx Hy s' out.
  unfold _handleTouchMove. rewrite He, Hz. cbn [negb oneTouch touches].
  set (p := _getTouchPos zc e t) in *.
  match goal with
  | |- (match ?first with pair _ _ => _ end) = _ -> _ =>
    destruct first as [s1 o1] eqn:E1
  end.
  assert (K : _relTouchStart s1 = Some a /\ _sensitivity s1 = _sensitivity s
              /\ _mode s1 = Relative /\ _enabled s1 = true
              /\ filter is_relative o1 = []).
  { destruct (_touchStartPos s); [| inversion E1; subst; auto].
    destruct (gtb (distance Msqrt p p0) TAP_MAX_DISTANCE); [| inversion E1; subst; auto].
    cbn [_isSecondTapDown _isDragging set_touchMoved] in E1.
    destruct (_isSecondTapDown s && negb (_isDragging s));
      inversion E1; subst; cbn; auto. }
  destruct K as (Ka & Ks & Km & Ke & Ko).
  assert (R : relativeMove p s1 = (set_relTouchStart (Some p) s1, [])).
  { apply relativeMove_zero with (a := a); [exact Ka | now rewrite Ks | now rewrite Ks]. }
  rewrite Km, R.
  destruct (_isDragging s1); intros H; inversion H; subst; clear H;
    rewrite app_nil_r; cbn; auto.
Qed.

(** C10. In relative mode, dragging or not, a one-finger move whose scaled,
    floored and clamped deltas are both zero sends no relative move, and the
    anchor is nevertheless moved to the position of that event.  So a script
    of such moves sends no relative move at all and ends with the anchor on
    the last position: the movement below one unit is dropped at every event
    and never adds up. *)
Theorem C10_zero_delta_moves_anchor_without_frame :
  forall (Msqrt : Q -> Q) (zc : option Zoom.state) (s : state) (a : pos),
    _enabled s = true -> _isZoomGesture zc = false -> _mode s = Relative ->
    _relTouchStart s = Some a ->
    (forall (e : env) (t : touch),
        relativeDelta (_sensitivity s) (pos_x a) (pos_x (_getTouchPos zc e t)) == 0 ->
        relativeDelta (_sensitivity s) (pos_y a) (pos_y (_getTouchPos zc e t)) == 0 ->
        filter is_relative (snd (_handleTouchMove Msqrt zc e (oneTouch t) s)) = []
        /\ _relTouchStart (fst (_handleTouchMove Msqrt zc e (oneTouch t) s))
           = Some (_getTouchPos zc e t))
    /\ (forall l : list (env * touch),
        subPixel zc (_sensitivity s) a l ->
        filter is_relative (snd (run Msqrt zc (moves l) s)) = []
        /\ _relTouchStart (fst (run Msqrt zc (moves l) s)) = Some (lastPos zc a l)).
Proof.
  intros Msqrt zc s a He Hz Hm Ha. split.
  - intros e t Hx Hy.
    destruct (_handleTouchMove Msqrt zc e (oneTouch t) s) as [s' out] eqn:E.
    destruct (silent_move Msqrt zc e t s a He Hz Hm Ha Hx Hy s' out E) as (H1 & H2 & _).
    cbn [fst snd]. now split.
  - intros l. revert s a He Hm Ha.
    induction l as [| [e t] l IH]; intros s a He Hm Ha Hsub.
    + cbn. now split.
    + cbn [subPixel] in Hsub. destruct Hsub as (Hx & Hy & Hrest).
      cbn [moves map fst snd run step].
      destruct (_handleTouchMove Msqrt zc e (oneTouch t) s) as [s1 o1] eqn:E1.
      destruct (silent_move Msqrt zc e t s a He Hz Hm Ha Hx Hy s1 o1 E1)
        as (Ho & Hanchor & He1 & Hm1 & Hs1).
      rewrite <- Hs1 in Hrest.
      specialize (IH s1 _ He1 Hm1 Hanchor Hrest).
      fold (moves l).
      destruct (run Msqrt zc (moves l) s1) as [s2 o2].
      cbn [fst snd] in *. destruct IH as [IHo IHa]. split.
      * rewrite filter_app, Ho, IHo. reflexivity.
      * rewrite IHa. reflexivity.
Qed.

End RelativeFacts.

(** ** Scale and translation of the viewport *)

Module ZoomFacts.
Import Js JsFacts Dom Zoom.

(** Projections of updated records. *)
Ltac zsimpl := cbn [fst snd negb andb orb _zoomed _scale _translateX _translateY
    _isPanning _panStartMidX _panStartMidY _panStartTX _panStartTY _pinchStartDist
    _pinchStartScale _pinchStartTX _pinchStartTY _pinchFocalX _pinchFocalY _isPinching
    _gestureUndecided _isScroll _undecidedMidX _undecidedMidY set_zoomed set_scale
    set_translateX set_translateY set_isPanning set_panStartMidX set_panStartMidY
    set_panStartTX set_panStartTY set_pinchStartDist set_pinchStartScale set_pinchStartTX
    set_pinchStartTY set_pinchFocalX set_pinchFocalY set_isPinching set_gestureUndecided
    set_isScroll set_undecidedMidX set_undecidedMidY].
Ltac zsimpl_in H := cbn [fst snd negb andb orb _zoomed _scale _translateX _translateY
    _isPanning _panStartMidX _panStartMidY _panStartTX _panStartTY _pinchStartDist
    _pinchStartScale _pinchStartTX _pinchStartTY _pinchFocalX _pinchFocalY _isPinching
    _gestureUndecided _isScroll _undecidedMidX _undecidedMidY set_zoomed set_scale
    set_translateX set_translateY set_isPanning set_panStartMidX set_panStartMidY
    set_panStartTX set_panStartTY set_pinchStartDist set_pinchStartScale set_pinchStartTX
    set_pinchStartTY set_pinchFocalX set_pinchFocalY set_isPinching set_gestureUndecided
    set_isScroll set_undecidedMidX set_undecidedMidY] in H.

Lemma clampTranslation_scale e s : _scale (_clampTranslation e s) = _scale s.
Proof. reflexivity. Qed.









Lemma resetZoom_scale s : _scale (fst (resetZoom s)) = 1.
Proof. reflexivity. Qed.





Lemma run_reachable Msqrt l s :
  reachable Msqrt s -> Forall (fun ea => admissible (fst ea) (snd ea)) l ->
  reachable Msqrt (run Msqrt l s).
Proof.
  revert s. induction l as [| [e a] l IH]; intros s Hr Hall; [exact Hr |].
  inversion Hall as [| x l' Ha Hl]; subst. cbn [run].
  apply IH; [| exact Hl]. now apply reach_step.
Qed.




End ZoomFacts.

(** ** Classification of a two-finger contact *)

Module GestureFacts.
Import Js JsFacts Dom Zoom GestureSpec.
Import ZoomFacts.

Lemma gesture_flags s u p c a :
  gesture s = (u, p, c, a) ->
  _gestureUndecided s = u /\ _isPinching s = p /\ _isScroll s = c /\ _isPanning s = a.
Proof. unfold gesture. intros H. inversion H. auto. Qed.





(** A move of a contact that is not undecided leaves the flags alone. *)
Lemma move_decided Msqrt e ev s :
  _gestureUndecided s = false ->
  gesture (fst (fst (_handleTouchMove Msqrt e ev s))) = gesture s.
Proof.
  intros Hu. unfold _handleTouchMove. rewrite Hu. cbn [negb andb].
  destruct (touches ev) as [| t0 [| t1 [| t2 l]]]; try reflexivity.
  destruct (negb (_isPinching s) && negb (_isScroll s) && negb (_isPanning s));
    [reflexivity |].
  cbv zeta. cbn [andb].
  destruct (_isScroll s); [reflexivity |].
  destruct (_isPanning s); [reflexivity |].
  destruct (_isPinching s); reflexivity.
Qed.

Lemma zoomToNative_gesture e s : gesture (fst (zoomToNative e s)) = gesture s.
Proof.
  unfold zoomToNative.
  destruct (streamResolution e) as [res |]; [| reflexivity].
  destruct ((realWidth res =? 0)%N || (realHeight res =? 0)%N); [reflexivity |].
  cbv zeta. destruct (leb _ _); reflexivity.
Qed.

Lemma toggle_gesture e s : gesture (fst (toggle e s)) = gesture s.
Proof.
  unfold toggle. destruct (_zoomed s); [reflexivity | apply zoomToNative_gesture].
Qed.

Lemma step_frozen Msqrt e a s :
  _gestureUndecided s = false -> keepsTwoFingers a ->
  gesture (fst (fst (step Msqrt e a s))) = gesture s.
Proof.
  intros Hu Hk. destruct a; cbn [step keepsTwoFingers] in *.
  - unfold _handleTouchStart.
    destruct (touches ev) as [| t0 [| t1 [| t2 l]]]; try reflexivity.
    now contradiction Hk.
  - now apply move_decided.
  - unfold _handleTouchEnd.
    destruct (List.length (touches ev) <? 2)%nat eqn:E; [| reflexivity].
    apply Nat.ltb_lt in E. lia.
  - pose proof (toggle_gesture e s) as K.
    destruct (toggle e s) as [s' fx]. exact K.
  - pose proof (zoomToNative_gesture e s) as K.
    destruct (zoomToNative e s) as [s' fx]. exact K.
  - reflexivity.
Qed.



(** The touch end that leaves fewer than two fingers clears every flag. *)
Lemma end_resets e ev s :
  (List.length (touches ev) < 2)%nat ->
  gesture (fst (fst (_handleTouchEnd e ev s))) = g_none.
Proof.
  intros H. unfold _handleTouchEnd. apply Nat.ltb_lt in H. rewrite H.
  cbv zeta. zsimpl.
  destruct (_isPinching s), (_isPanning s); cbv beta iota zeta;
    try (destruct (ltb (_scale s) (105 # 100)));
    unfold resetZoom, _clampTranslation, gesture; cbv beta iota zeta; zsimpl;
    reflexivity.
Qed.












End GestureFacts.

(** ** Taps *)

Module TapFacts.
Import Js JsFacts Dom Wire Mouse TapSpec.

(** Projections of updated records. *)
Ltac msimpl := cbn [fst snd negb andb orb _mode _absPos _relTouchStart _enabled
    _sensitivity _scrollSensitivity _touchStartTime _touchStartPos _touchMoved _lastTapTime
    _lastTapPos _singleTapTimer _longPressTimer _longPressFired _isDragging _dragHoldTimer
    _isSecondTapDown _twoFingerTapDetected _twoFingerStartTime _twoFingerMoved _scrollAnchor
    pulses set_mode set_absPos set_relTouchStart set_enabled set_sensitivity
    set_scrollSensitivity set_touchStartTime set_touchStartPos set_touchMoved
    set_lastTapTime set_lastTapPos set_singleTapTimer set_longPressTimer set_longPressFired
    set_isDragging set_dragHoldTimer set_isSecondTapDown set_twoFingerTapDetected
    set_twoFingerStartTime set_twoFingerMoved set_scrollAnchor setpulses].
Ltac msimpl_in H := cbn [fst snd negb andb orb _mode _absPos _relTouchStart _enabled
    _sensitivity _scrollSensitivity _touchStartTime _touchStartPos _touchMoved _lastTapTime
    _lastTapPos _singleTapTimer _longPressTimer _longPressFired _isDragging _dragHoldTimer
    _isSecondTapDown _twoFingerTapDetected _twoFingerStartTime _twoFingerMoved _scrollAnchor
    pulses set_mode set_absPos set_relTouchStart set_enabled set_sensitivity
    set_scrollSensitivity set_touchStartTime set_touchStartPos set_touchMoved
    set_lastTapTime set_lastTapPos set_singleTapTimer set_longPressTimer set_longPressFired
    set_isDragging set_dragHoldTimer set_isSecondTapDown set_twoFingerTapDetected
    set_twoFingerStartTime set_twoFingerMoved set_scrollAnchor setpulses] in H.

Lemma sendPlannedMove_cases e s :
  (exists x y, _sendPlannedMove e s = (set_absPos None s, [MouseMoveAbs x y]))
  \/ _sendPlannedMove e s = (s, []).
Proof.
  unfold _sendPlannedMove.
  destruct (_mode s); [| now right].
  destruct (_absPos s); [| now right].
  destruct (streamGeometry e); [| now right].
  left. eexists. eexists. reflexivity.
Qed.

Lemma relativeMove_cases p s :
  exists out, relativeMove p s = (set_relTouchStart (Some p) s, out)
              /\ filter is_button out = []
  \/ relativeMove p s = (s, []).
Proof.
  unfold relativeMove. destruct (_relTouchStart s); [| exists []; now right].
  eexists. left. split; [reflexivity |].
  destruct (truthy _ || truthy _); reflexivity.
Qed.

(** The touch start of a tap. *)
Lemma tap_start Msqrt zc e0 t0 s :
  idle s -> _isZoomGesture zc = false ->
  isSecondTap Msqrt e0 (_getTouchPos zc e0 t0) s = false ->
  forall s1 out,
    step Msqrt zc e0 (TouchStart (oneTouch t0)) s = (s1, out) ->
    tapping s (_getTouchPos zc e0 t0) (now e0) s1 /\ filter is_button out = [].
Proof.
  intros (He & Hd & H2 & Hf) Hz Hsec s1 out.
  cbn [step]. unfold _handleTouchStart. rewrite He, Hz. cbn [negb oneTouch touches].
  set (p0 := _getTouchPos zc e0 t0) in *.
  unfold isSecondTap in *. msimpl. rewrite Hsec. msimpl.
  destruct (_mode s) eqn:Em.
  - match goal with
    | |- _sendPlannedMove e0 ?x = _ -> _ =>
      destruct (sendPlannedMove_cases e0 x) as [(x0 & y0 & E) | E]; rewrite E
    end; intros H; inversion H; subst; clear H; unfold tapping; msimpl;
      rewrite ?Em; auto 20.
  - intros H; inversion H; subst; clear H; unfold tapping; msimpl; rewrite ?Em; auto 20.
Qed.

(** A move of a tap that stays within the tap distance. *)
Lemma tap_move Msqrt zc e t s0 p0 t0 s :
  tapping s0 p0 t0 s -> _isZoomGesture zc = false ->
  distance Msqrt (_getTouchPos zc e t) p0 <= TAP_MAX_DISTANCE ->
  forall s1 out,
    step Msqrt zc e (TouchMove (oneTouch t)) s = (s1, out) ->
    tapping s0 p0 t0 s1 /\ filter is_button out = [].
Proof.
  intros (He & Hm & Hp & Ht & Hmv & Hl & Hd & H2 & Hf & Hlt & Hlp & Hst & Hpu) Hz Hdist
         s1 out.
  cbn [step]. unfold _handleTouchMove. rewrite He, Hz. cbn [negb oneTouch touches].
  rewrite Hp. apply gtb_false in Hdist. rewrite Hdist. cbv beta iota zeta.
  rewrite Hd.
  destruct (_mode s) eqn:Em.
  - intros H; inversion H; subst; clear H. unfold tapping. msimpl.
    rewrite Em. auto 20.
  - destruct (relativeMove_cases (_getTouchPos zc e t) s) as (o & [[E Ho] | E]);
      rewrite E; intros H; inversion H; subst; clear H; unfold tapping; msimpl;
      rewrite ?Em; auto 20.
Qed.

Lemma tap_moves Msqrt zc s0 p0 t0 l :
  _isZoomGesture zc = false -> withinTap Msqrt zc p0 l ->
  forall s, tapping s0 p0 t0 s ->
  forall s1 out,
    run Msqrt zc (moves l) s = (s1, out) ->
    tapping s0 p0 t0 s1 /\ filter is_button out = [].
Proof.
  intros Hz. induction l as [| [e t] l IH]; intros Hw s Hs s1 out.
  - cbn. intros H; inversion H; subst. auto.
  - inversion Hw as [| x l' Hd Hl]; subst. cbn [fst snd] in Hd.
    cbn [moves map run fst snd]. fold (moves l).
    destruct (step Msqrt zc e (TouchMove (oneTouch t)) s) as [sa oa] eqn:Ea.
    destruct (tap_move Msqrt zc e t s0 p0 t0 s Hs Hz Hd sa oa Ea) as [Hsa Hoa].
    destruct (run Msqrt zc (moves l) sa) as [sb ob] eqn:Eb.
    destruct (IH Hl sa Hsa sb ob Eb) as [Hsb Hob].
    intros H; inversion H; subst. split; [exact Hsb |].
    now rewrite filter_app, Hoa, Hob.
Qed.

Lemma run_app Msqrt zc l1 l2 s :
  run Msqrt zc (l1 ++ l2) s
  = let '(s1, o1) := run Msqrt zc l1 s in
    let '(s2, o2) := run Msqrt zc l2 s1 in
    (s2, o1 ++ o2).
Proof.
  revert s. induction l1 as [| [e a] l1 IH]; intros s.
  - cbn [app run]. now destruct (run Msqrt zc l2 s).
  - cbn [app run]. destruct (step Msqrt zc e a s) as [sa oa].
    rewrite IH. destruct (run Msqrt zc l1 sa) as [sb ob].
    destruct (run Msqrt zc l2 sb) as [sc oc]. now rewrite app_assoc.
Qed.









End TapFacts.

(** ** The jog shuttle *)

Module ScrollFacts.
Import Js JsFacts Wire Scroll.

(** Projections of updated records. *)
Ltac ssimpl := cbn [fst snd negb andb orb _preset _macMode _centerY _trackHalf
    _displacement _direction _active _repeatTimer _repeatStartTime _tickCount bursts
    set_preset set_macMode set_centerY set_trackHalf set_displacement set_direction
    set_active set_repeatTimer set_repeatStartTime set_tickCount setbursts].
Ltac ssimpl_in H := cbn [fst snd negb andb orb _preset _macMode _centerY _trackHalf
    _displacement _direction _active _repeatTimer _repeatStartTime _tickCount bursts
    set_preset set_macMode set_centerY set_trackHalf set_displacement set_direction
    set_active set_repeatTimer set_repeatStartTime set_tickCount setbursts] in H.

Lemma getPreset_cases s :
  _getPreset s = fine \/ _getPreset s = normal \/ _getPreset s = fast.
Proof.
  unfold _getPreset, PRESETS.
  destruct (String.eqb (_preset s) "fine"); [now left |].
  destruct (String.eqb (_preset s) "normal"); [now right; left |].
  destruct (String.eqb (_preset s) "fast"); [now right; right | now right; left].
Qed.

(** Every preset has its dead zone below its first tick threshold, and its
    fastest interval below the slowest one. *)
Lemma preset_order s :
  0 < deadZone (_getPreset s) /\ deadZone (_getPreset s) < firstTick (_getPreset s)
  /\ 0 < minInterval (_getPreset s) /\ minInterval (_getPreset s) <= MAX_INTERVAL.
Proof.
  destruct (getPreset_cases s) as [H | [H | H]]; rewrite H; cbn; unfold MAX_INTERVAL; lra.
Qed.

Lemma computeInterval_eq e s :
  _computeInterval e s
  = interval (_getPreset s) (_trackHalf s) (Math_abs (_displacement s))
      (inject_Z (now e - _repeatStartTime s)).
Proof. reflexivity. Qed.

Lemma interval_floor p th d el : minInterval p <= interval p th d el.
Proof. unfold interval, Math_max. apply Q.le_max_l. Qed.

Lemma square_le a b : 0 <= a -> a <= b -> a * a <= b * b.
Proof. intros. nra. Qed.

Lemma min1_nonneg a : 0 <= a -> 0 <= Qmin 1 a.
Proof. intros H. apply Q.min_glb; lra. Qed.

Lemma min1_mono a b : a <= b -> Qmin 1 a <= Qmin 1 b.
Proof. intros H. apply Q.min_le_compat_l. exact H. Qed.

Lemma ramp_mono k r1 r2 :
  0 <= k -> 0 <= r1 -> r1 <= r2 ->
  MAX_INTERVAL - r2 * r2 * k <= MAX_INTERVAL - r1 * r1 * k.
Proof.
  intros Hk H1 H12. pose proof (square_le r1 r2 H1 H12) as Hsq.
  assert (r1 * r1 * k <= r2 * r2 * k) by (apply Qmult_le_compat_r; assumption).
  lra.
Qed.

(** At a fixed displacement the interval does not grow with the hold time. *)
Lemma interval_mono_time p th d el1 el2 :
  minInterval p <= MAX_INTERVAL -> 0 <= el1 -> el1 <= el2 ->
  interval p th d el2 <= interval p th d el1.
Proof.
  intros Hp H1 H12. unfold interval. cbv zeta. unfold Math_max, Math_min.
  apply Q.max_le_compat_l. apply Q.min_le_compat_l.
  apply ramp_mono; [lra | |].
  - apply min1_nonneg. unfold RAMP_DURATION. apply Qle_shift_div_l; lra.
  - apply min1_mono. unfold RAMP_DURATION.
    apply Qmult_le_compat_r; [exact H12 | apply Qinv_le_0_compat; lra].
Qed.

(** At a fixed hold time the interval does not grow with the displacement,
    from the first tick threshold on. *)
Lemma interval_mono_displacement p th d1 d2 el :
  minInterval p <= MAX_INTERVAL -> firstTick p <= d1 -> d1 <= d2 ->
  interval p th d2 el <= interval p th d1 el.
Proof.
  intros Hp H1 H12. unfold interval. cbv zeta. unfold Math_max, Math_min.
  apply Q.max_le_compat_l. apply Q.min_le_compat_r.
  destruct (gtb (th - firstTick p) 0) eqn:Er; [| lra].
  apply gtb_true in Er.
  apply ramp_mono; [lra | |].
  - apply min1_nonneg. apply Qle_shift_div_l; [exact Er | lra].
  - apply min1_mono.
    apply Qmult_le_compat_r; [lra | apply Qinv_le_0_compat; lra].
Qed.

(** C7, at the failing input.  Normal preset on a track of 50 px.  The
    finger goes down 30 px below the centre (first tick, repeat armed at
    time 1000) and moves back to 15 px, between the dead zone (12) and the
    first tick threshold (25), where the repeat keeps running.  When the
    repeat timer runs at 1294 the interval is computed for a displacement of
    15 px and is 276 ms; for a displacement of 25 px, everything else being
    equal, it is 287.0346 ms.  The interval is longer at the larger
    displacement: below the first tick threshold the distance ratio is
    negative and its square grows as the finger comes back to the centre. *)
Theorem C7_interval_shorter_at_smaller_displacement :
  let s15 := fst (run (Examples.shuttleTo 81) (initial "normal" false)) in
  let s25 := fst (run (Examples.shuttleTo 91) (initial "normal" false)) in
  let e := Examples.strip 1294 in
  _displacement s15 == 15 /\ _displacement s25 == 25
  /\ _repeatStartTime s15 = _repeatStartTime s25
  /\ timerAt (_repeatTimer s15) 1294
  /\ _computeInterval e s15 == 276
  /\ _computeInterval e s25 == 1435173 # 5000
  /\ _computeInterval e s15 < _computeInterval e s25
  /\ timerAt (_repeatTimer (fst (step e RepeatTimer s15))) (1294 + 276)
  /\ snd (step e RepeatTimer s15) = [MouseWheel 0 2].
Proof.
  cbv zeta.
  repeat (lazymatch goal with |- _ /\ _ => split end); vm_compute; reflexivity.
Qed.

End ScrollFacts.

(** ** Two fingers on the pointer recogniser *)

Module TwoFingerFacts.
Import Js Dom Wire.

(** A two-finger tap lifted in one touch end, in relative mode: the press of
    the right button at the release and its release 50 ms later; the
    deferred single click never runs. *)
Lemma two_finger_tap_lifted_together :
  snd (App.run sqrt_floor Examples.tapTogether Examples.relativeApp)
  = [MouseButton Right true; MouseButton Right false].
Proof. vm_compute. reflexivity. Qed.

(** The same tap with the fingers lifted in two touch ends, 20 ms apart: no
    right click; the second touch end is taken for a single tap and the
    left button is clicked 300 ms later. *)
Lemma two_finger_tap_lifted_in_turn :
  snd (App.run sqrt_floor Examples.tapInTurn Examples.relativeApp)
  = [MouseButton Left true; MouseButton Left false].
Proof. vm_compute. reflexivity. Qed.

(** C5, at the failing input.  Relative mode; one finger goes down, a second
    one 20 ms later; both move 20 px down, which scrolls (one wheel frame),
    and are lifted together 100 ms after the first one went down.  The zoom
    controller has classified the contact as scroll and stopped nothing.  The
    touch end finds the one-finger tap flags untouched by the two-finger
    contact, records a tap and arms the deferred click: 300 ms later the
    left button is pressed and released. *)
Theorem C5_two_finger_scroll_then_left_click :
  let s2 := fst (App.run sqrt_floor (firstn 3 Examples.flick) Examples.relativeApp) in
  let s3 := fst (App.run sqrt_floor (firstn 4 Examples.flick) Examples.relativeApp) in
  Zoom.gesture (App.zoom s2) = Zoom.g_scroll
  /\ snd (App.run sqrt_floor (firstn 3 Examples.flick) Examples.relativeApp)
     = [MouseWheel 0 2]
  /\ Mouse._twoFingerMoved (App.mouse s2) = true
  /\ Mouse._singleTapTimer (App.mouse s3)
     = Some {| Mouse.due := 1400; Mouse.spent := false |}
  /\ snd (App.run sqrt_floor Examples.flick Examples.relativeApp)
     = [MouseWheel 0 2; MouseButton Left true; MouseButton Left false].
Proof.
  cbv zeta.
  repeat (lazymatch goal with |- _ /\ _ => split end); vm_compute; reflexivity.
Qed.

(** Why the tap results ask for an idle recogniser.  The zoom controller
    stops the touch end of a pinch; when both fingers leave in that one
    event the recogniser never sees them go and keeps tracking a two-finger
    tap.  The release of the next one-finger tap, in relative mode, is then
    taken through the two-finger branch: too late for a right click, and
    the tap is neither recorded nor clicked. *)
Lemma tap_after_pinch_is_dropped :
  Mouse._twoFingerTapDetected
    (App.mouse (fst (App.run sqrt_floor (firstn 4 Examples.pinchThenTap)
                       Examples.relativeApp))) = true
  /\ snd (App.run sqrt_floor Examples.pinchThenTap Examples.relativeApp) = []
  /\ Mouse._lastTapTime
       (App.mouse (fst (App.run sqrt_floor Examples.pinchThenTap Examples.relativeApp)))
     = 0%Z.
Proof.
  repeat (lazymatch goal with |- _ /\ _ => split end); vm_compute; reflexivity.
Qed.

End TwoFingerFacts.

(** ** Updates of the jog shuttle *)

Module ShuttleFacts.
Import Js JsFacts Wire Scroll ScrollFacts.

Lemma fireTick_out e s : snd (_fireTick e s) = [MouseWheel 0 (tickValue s)].
Proof. unfold _fireTick, tickValue. destruct (_macMode s); reflexivity. Qed.

Lemma fireTick_fields e s :
  let s' := fst (_fireTick e s) in
  _displacement s' = _displacement s /\ _direction s' = _direction s
  /\ _preset s' = _preset s /\ _trackHalf s' = _trackHalf s
  /\ _macMode s' = _macMode s /\ _active s' = _active s
  /\ _repeatTimer s' = _repeatTimer s.
Proof.
  unfold _fireTick. destruct (_macMode s) eqn:E; cbv zeta; ssimpl; rewrite ?E;
    repeat split.
Qed.

(** [_updateFromTouch], branch by branch. *)
Lemma update_cases e y s :
  let c := Math_max (- _trackHalf s) (Math_min (_trackHalf s) (y - _centerY s)) in
  let s0 := set_displacement c s in
  let newDir := if gtb c 0 then 1%Z else (-1)%Z in
  let s1 := if negb (newDir =? _direction s)%Z
            then _stopRepeat (set_tickCount 0 (set_direction newDir s0)) else s0 in
  _updateFromTouch e y s
  = if ltb (Math_abs c) (deadZone (_getPreset s)) then (set_direction 0 (_stopRepeat s0), [])
    else if geb (Math_abs c) (firstTick (_getPreset s)) && negb (isSome (_repeatTimer s1))
         then (_scheduleNextTick e (set_repeatStartTime (now e) (fst (_fireTick e s1))),
               snd (_fireTick e s1))
         else (s1, []).
Proof.
  cbv zeta. unfold _updateFromTouch. cbv zeta.
  set (c := Math_max (- _trackHalf s) (Math_min (_trackHalf s) (y - _centerY s))).
  change (_getPreset (set_displacement c s)) with (_getPreset s).
  destruct (ltb (Math_abs c) (deadZone (_getPreset s))); [reflexivity |].
  change (_direction (set_displacement c s)) with (_direction s).
  set (s1 := if negb ((if gtb c 0 then 1 else -1) =? _direction s)%Z then _ else _).
  destruct (geb (Math_abs c) (firstTick (_getPreset s)) && negb (isSome (_repeatTimer s1)));
    [| reflexivity].
  destruct (_fireTick e s1). reflexivity.
Qed.

Lemma tickValue_ext s s' :
  _direction s' = _direction s -> _preset s' = _preset s -> _macMode s' = _macMode s ->
  tickValue s' = tickValue s.
Proof.
  intros Hd Hp Hm. unfold tickValue, _getPreset. now rewrite Hd, Hp, Hm.
Qed.

Lemma computeInterval_ext e s s' :
  _displacement s' = _displacement s -> _preset s' = _preset s ->
  _trackHalf s' = _trackHalf s -> _repeatStartTime s' = _repeatStartTime s ->
  _computeInterval e s' = _computeInterval e s.
Proof.
  intros Hd Hp Ht Hr. unfold _computeInterval, _getPreset. now rewrite Hd, Hp, Ht, Hr.
Qed.

Lemma schedule_timer e s :
  _repeatTimer (_scheduleNextTick e s)
  = Some (inject_Z (now e) + _computeInterval e (_scheduleNextTick e s)).
Proof.
  reflexivity.
Qed.

(** The tick fired and the timer armed by an update. *)
Lemma tick_and_schedule e s1 :
  let s' := _scheduleNextTick e (set_repeatStartTime (now e) (fst (_fireTick e s1))) in
  tickValue s' = tickValue s1
  /\ _displacement s' = _displacement s1 /\ _direction s' = _direction s1
  /\ _repeatStartTime s' = now e
  /\ _repeatTimer s' = Some (inject_Z (now e) + _computeInterval e s').
Proof.
  destruct (fireTick_fields e s1) as (Hd & Hdir & Hp & Ht & Hm & Ha & Hr).
  cbv zeta in *. unfold _scheduleNextTick.
  set (s2 := set_repeatStartTime (now e) (fst (_fireTick e s1))).
  assert (F : _displacement s2 = _displacement s1 /\ _direction s2 = _direction s1
              /\ _preset s2 = _preset s1 /\ _macMode s2 = _macMode s1
              /\ _trackHalf s2 = _trackHalf s1 /\ _repeatStartTime s2 = now e).
  { subst s2. ssimpl. auto 10. }
  destruct F as (F1 & F2 & F3 & F4 & F5 & F6).
  split; [apply tickValue_ext; ssimpl; assumption |].
  ssimpl. repeat split; assumption.
Qed.

Lemma update_displacement e y s :
  _displacement (fst (_updateFromTouch e y s)) = clampedDisplacement y s.
Proof.
  rewrite update_cases. cbv zeta. fold (clampedDisplacement y s).
  set (c := clampedDisplacement y s).
  destruct (ltb (Math_abs c) (deadZone (_getPreset s))); [reflexivity |].
  set (s1 := if negb _ then _ else _).
  assert (H1 : _displacement s1 = c) by (subst s1; destruct (negb _); reflexivity).
  destruct (geb _ _ && _); cbn [fst]; [| exact H1].
  destruct (tick_and_schedule e s1) as (_ & Hd & _). cbv zeta in Hd.
  now rewrite Hd.
Qed.

(** The state after the reversal test of [_updateFromTouch]. *)
Lemma reversal_facts c s :
  let s0 := set_displacement c s in
  let newDir := if gtb c 0 then 1%Z else (-1)%Z in
  let s1 := if negb (newDir =? _direction s)%Z
            then _stopRepeat (set_tickCount 0 (set_direction newDir s0)) else s0 in
  _direction s1 = newDir
  /\ (newDir = _direction s -> _repeatTimer s1 = _repeatTimer s)
  /\ (newDir <> _direction s -> _repeatTimer s1 = None)
  /\ (_repeatTimer s = None -> _repeatTimer s1 = None).
Proof.
  cbv zeta. set (newDir := if gtb c 0 then 1%Z else (-1)%Z).
  destruct (Z.eqb_spec newDir (_direction s)) as [E | E]; cbn [negb]; ssimpl;
    unfold _stopRepeat; ssimpl; repeat split; try tauto; try congruence.
Qed.

(** C8 (as amended).  One displacement update of the shuttle, [d] being the
    displacement it leaves.  If |d| is below the dead zone of the preset the
    direction is 0, the repeat timer is cancelled and nothing is sent.  If
    |d| is at or above the first tick threshold and no repeat timer was
    pending, one tick is sent at once (one wheel frame of the direction
    times the units of the preset, boosted in macOS mode) and the repeat
    timer is armed from now.  An update arms the timer only at or above the
    first tick threshold; but a timer that is pending stays pending, and
    nothing is sent, while |d| is at or above the dead zone and the
    direction is unchanged, below the first tick threshold included; and
    each expiry of the timer fires a tick and arms it again as long as the
    widget is active and the direction is not 0. *)
Theorem C8_shuttle_update :
  forall (e : env) (y : Q) (s : state),
    let r := _updateFromTouch e y s in
    let s' := fst r in
    let p := _getPreset s in
    (Qabs (_displacement s') < deadZone p ->
     _direction s' = 0%Z /\ _repeatTimer s' = None /\ snd r = [])
    /\ (firstTick p <= Qabs (_displacement s') -> _repeatTimer s = None ->
        snd r = [MouseWheel 0 (tickValue s')]
        /\ (_direction s' = 1%Z \/ _direction s' = (-1)%Z)
        /\ _repeatStartTime s' = now e
        /\ _repeatTimer s' = Some (inject_Z (now e) + _computeInterval e s'))
    /\ (_repeatTimer s = None -> _repeatTimer s' <> None ->
        firstTick p <= Qabs (_displacement s'))
    /\ (deadZone p <= Qabs (_displacement s') -> _direction s' = _direction s ->
        _repeatTimer s <> None ->
        _repeatTimer s' = _repeatTimer s /\ snd r = [])
    /\ (forall d : Q,
        _repeatTimer s = Some d -> d <= inject_Z (now e) ->
        _active s = true -> _direction s <> 0%Z ->
        snd (onRepeatTimer e s) = [MouseWheel 0 (tickValue s)]
        /\ _repeatTimer (fst (onRepeatTimer e s))
           = Some (inject_Z (now e) + _computeInterval e (fst (onRepeatTimer e s)))).
Proof.
  intros e y s. cbv zeta.
  split; [| split; [| split; [| split]]].
  5: {
    intros d Hd Hdue Hact Hdir. unfold onRepeatTimer. rewrite Hd.
    apply leb_true in Hdue. rewrite Hdue. ssimpl. rewrite Hact.
    apply Z.eqb_neq in Hdir. rewrite Hdir. cbn [negb orb].
    set (s1 := set_repeatTimer None s).
    pose proof (fireTick_out e s1) as Ho.
    destruct (_fireTick e s1) as [s2 o2]. cbn [fst snd] in *.
    split; [exact Ho | apply schedule_timer]. }
  all: rewrite update_displacement; rewrite update_cases; cbv zeta;
    fold (clampedDisplacement y s); set (c := clampedDisplacement y s);
    pose proof (preset_order s) as (Hdz & Hlt & _);
    pose proof (reversal_facts c s) as (Rdir & Rsame & Rdiff & Rnone); cbv zeta in *;
    set (newDir := if gtb c 0 then 1%Z else (-1)%Z) in *;
    set (s1 := if negb (newDir =? _direction s)%Z then _ else _) in *;
    unfold Math_abs;
    (destruct (ltb (Qabs c) (deadZone (_getPreset s))) eqn:Edz;
     [apply ltb_true in Edz | apply ltb_false in Edz]).
  - (* below the dead zone *)
    intros _. repeat split.
  - intros H. lra.
  - intros H _. exfalso. lra.
  - intros Hft Hnone. apply geb_true in Hft. rewrite Hft.
    rewrite (Rnone Hnone). cbn [isSome negb andb fst snd].
    destruct (tick_and_schedule e s1) as (Hv & _ & Hd & Hs & Ht). cbv zeta in *.
    rewrite fireTick_out, Hv, Hd, Rdir.
    repeat split; try assumption.
    subst newDir. destruct (gtb c 0); auto.
  - intros _ Hn. exfalso. apply Hn. reflexivity.
  - intros Hnone.
    destruct (geb (Qabs c) (firstTick (_getPreset s))) eqn:Eft.
    + intros _. now apply geb_true in Eft.
    + cbn [andb fst]. intros Hn. exfalso. apply Hn. now apply Rnone.
  - intros H. lra.
  - intros _. 
    destruct (Z.eq_dec newDir (_direction s)) as [E | E].
    + intros _ Hsome. rewrite (Rsame E).
      destruct (_repeatTimer s) eqn:Et; [| contradiction].
      cbn [isSome negb]. rewrite andb_false_r. cbn [fst snd].
      split; [now apply Rsame | reflexivity].
    + intros Hd. exfalso. apply E.
      rewrite (Rdiff E) in Hd. cbn [isSome negb] in Hd. rewrite andb_true_r in Hd.
      destruct (geb (Qabs c) (firstTick (_getPreset s))); cbn [fst] in Hd.
      * destruct (tick_and_schedule e s1) as (_ & _ & Hd' & _). cbv zeta in Hd'.
        congruence.
      * congruence.
Qed.

(** C8, counterexample.  Normal preset (dead zone 12, first tick 25) on a
    track of 50 px: the finger goes down at 30 px, which arms the repeat,
    and moves back to 15 px.  After that update the displacement is below
    the first tick threshold and the repeat timer is still armed. *)
Lemma C8_counterexample_armed_below_first_tick :
  let s := fst (run (Examples.shuttleTo 81) (initial "normal" false)) in
  Qabs (_displacement s) == 15
  /\ firstTick (_getPreset s) == 25
  /\ timerAt (_repeatTimer s) 1294
  /\ ~ (_repeatTimer s <> None -> firstTick (_getPreset s) <= Qabs (_displacement s)).
Proof.
  cbv zeta. split; [| split; [| split]].
  - vm_compute. reflexivity.
  - vm_compute. reflexivity.
  - vm_compute. reflexivity.
  - intros H. assert (K : _repeatTimer (fst (run (Examples.shuttleTo 81)
                                             (initial "normal" false))) <> None).
    { vm_compute. discriminate. }
    apply H in K. revert K. vm_compute. intros K. apply K. reflexivity.
Qed.

End ShuttleFacts.

(** ** Relative moves on the wire *)

Module RelativeRangeFacts.
Import Js JsFacts Dom Wire Mouse Frames.

Lemma is_int_min a b : is_int a -> is_int b -> is_int (Qmin a b).
Proof.
  intros [x Hx] [y Hy].
  destruct (Q.min_spec a b) as [[_ E] | [_ E]]; [exists x | exists y]; now rewrite E.
Qed.

Lemma is_int_max a b : is_int a -> is_int b -> is_int (Qmax a b).
Proof.
  intros [x Hx] [y Hy].
  destruct (Q.max_spec a b) as [[_ E] | [_ E]]; [exists y | exists x]; now rewrite E.
Qed.

Lemma relativeDelta_int k a b : is_int (relativeDelta k a b).
Proof.
  unfold relativeDelta, Math_min, Math_max, Math_floor.
  apply is_int_min; [apply is_int_max |].
  - exists (-127)%Z. reflexivity.
  - eexists. reflexivity.
  - exists 127%Z. reflexivity.
Qed.

Lemma relativeDelta_range k a b :
  -127 <= relativeDelta k a b /\ relativeDelta k a b <= 127.
Proof.
  unfold relativeDelta, Math_min, Math_max. split.
  - apply Q.min_glb; [apply Q.le_max_l | lra].
  - apply Q.le_min_r.
Qed.

Lemma sound_app l1 l2 : Forall sound l1 -> Forall sound l2 -> Forall sound (l1 ++ l2).
Proof. intros; apply Forall_app; now split. Qed.

Lemma remap_int v inMin inMax outMin outMax :
  is_int outMin -> is_int outMax -> is_int (_remap v inMin inMax outMin outMax).
Proof.
  intros H1 H2. unfold _remap, Math_min, Math_max, Math_round.
  apply is_int_min; [apply is_int_max |]; auto. eexists. reflexivity.
Qed.

Lemma sendPlannedMove_rel e s : Forall sound (snd (_sendPlannedMove e s)).
Proof.
  unfold _sendPlannedMove. repeat break_match; cbn [snd];
    try (apply Forall_nil).
  apply Forall_cons; [| apply Forall_nil].
  cbn [sound]. split; apply remap_int;
    first [exists (-32768)%Z; reflexivity | exists 32767%Z; reflexivity].
Qed.

Lemma click_rel e b s : Forall sound (snd (click e b s)).
Proof. cbn. repeat constructor. Qed.

Lemma relativeMove_rel p s : Forall sound (snd (relativeMove p s)).
Proof.
  unfold relativeMove. destruct (_relTouchStart s) as [a |]; cbn [snd]; [| constructor].
  destruct (truthy _ || truthy _) eqn:E; constructor; [| constructor].
  cbn [sound]. unfold rel_ok. repeat (lazymatch goal with |- _ /\ _ => split end);
    try apply relativeDelta_int; try apply relativeDelta_range.
  intros [Hx Hy]. apply truthy_false in Hx. apply truthy_false in Hy.
  rewrite Hx, Hy in E. discriminate.
Qed.

Create HintDb rel.

#[local] Hint Resolve sendPlannedMove_rel click_rel relativeMove_rel sound_app : rel.
#[local] Hint Extern 1 (Forall sound []) => constructor : rel.
#[local] Hint Extern 1 (Forall sound [_]) => repeat constructor : rel.

Ltac keep_eq :=
  match goal with
  | H : _sendPlannedMove ?e ?s = (_, ?o) |- context [?o] =>
    let K := fresh in
    pose proof (sendPlannedMove_rel e s) as K; rewrite H in K; cbn [snd] in K; clear H
  | H : click ?e ?b ?s = (_, ?o) |- context [?o] =>
    let K := fresh in
    pose proof (click_rel e b s) as K; rewrite H in K; cbn [snd] in K; clear H
  | H : relativeMove ?p ?s = (_, ?o) |- context [?o] =>
    let K := fresh in
    pose proof (relativeMove_rel p s) as K; rewrite H in K; cbn [snd] in K; clear H
  | H : (_, _) = (_, _) |- _ => inversion H; subst; clear H
  end.

Ltac rel_solve :=
  repeat (break_match || break_hyp || keep_eq); cbn [snd]; auto 6 with rel.

Lemma touchStart_rel Msqrt zc e ev s :
  Forall sound (snd (_handleTouchStart Msqrt zc e ev s)).
Proof. unfold _handleTouchStart. rel_solve. Qed.

Lemma touchMove_rel Msqrt zc e ev s :
  Forall sound (snd (_handleTouchMove Msqrt zc e ev s)).
Proof. unfold _handleTouchMove. rel_solve. Qed.

Lemma touchEnd_rel zc e ev s : Forall sound (snd (_handleTouchEnd zc e ev s)).
Proof. unfold _handleTouchEnd. rel_solve. Qed.

Lemma fire_rel e a s : Forall sound (snd (fire e a s)).
Proof.
  destruct a; cbn [fire]; auto with rel;
    unfold onDragHoldTimer, onLongPressTimer, onSingleTapTimer, onPulseTimer, sendButton;
    rel_solve.
Qed.

Lemma touch_rel zh mh e ev s :
  (forall zc, Forall sound (snd (mh zc e ev (App.mouse s)))) ->
  Forall sound (snd (App.touch zh mh e ev s)).
Proof.
  intros H. unfold App.touch.
  destruct (zh e ev (App.zoom s)) as [[z stopped] fx].
  destruct stopped; cbn [snd]; [constructor |].
  specialize (H (Some z)). destruct (mh (Some z) e ev (App.mouse s)). exact H.
Qed.

Lemma dispatch_rel Msqrt e a s : Forall sound (snd (App.dispatch Msqrt e a s)).
Proof.
  destruct a; cbn [App.dispatch].
  - apply touch_rel. intros; apply touchStart_rel.
  - apply touch_rel. intros; apply touchMove_rel.
  - apply touch_rel. intros; apply touchEnd_rel.
  - destruct (Zoom.toggle e (App.zoom s)). constructor.
  - pose proof (fire_rel e a (App.mouse s)) as K.
    destruct (fire e a (App.mouse s)). exact K.
Qed.

Lemma run_sound Msqrt l s : Forall sound (snd (App.run Msqrt l s)).
Proof.
  revert s. induction l as [| [e a] l IH]; intros s; cbn [App.run].
  - constructor.
  - pose proof (dispatch_rel Msqrt e a s) as K.
    destruct (App.dispatch Msqrt e a s) as [s1 o1].
    specialize (IH s1). destruct (App.run Msqrt l s1) as [s2 o2].
    cbn [snd] in *. now apply sound_app.
Qed.

(** X1. Whatever the touch events, timers and panel buttons, at whatever
    sensitivity and zoom, every relative move handed to the websocket has
    whole-number deltas between -127 and 127 that are not both zero. *)
Theorem X1_relative_moves_are_nonzero_int8 :
  forall (Msqrt : Q -> Q) (l : list (env * App.event)) (s : App.state) (dx dy : Q),
    In (MouseRelative dx dy) (snd (App.run Msqrt l s)) ->
    is_int dx /\ is_int dy
    /\ (-127 <= dx /\ dx <= 127) /\ (-127 <= dy /\ dy <= 127)
    /\ ~ (dx == 0 /\ dy == 0).
Proof.
  intros Msqrt l s dx dy Hin.
  pose proof (run_sound Msqrt l s) as K. rewrite Forall_forall in K.
  exact (K _ Hin).
Qed.

(** X1 for a finger that moves 30 px right and 300 px down in relative
    mode: the move sent is (30, 127). *)
Lemma X1_witness :
  let out := snd (App.run sqrt_floor
                    [(Examples.tablet4k 1000, App.TouchStart (Examples.one 100 100));
                     (Examples.tablet4k 1050, App.TouchMove (Examples.one 130 400))]
                    Examples.relativeApp) in
  In (MouseRelative 30 127) out /\ is_int 30 /\ is_int 127.
Proof.
  cbv zeta.
  assert (H : In (MouseRelative 30 127)
                (snd (App.run sqrt_floor
                        [(Examples.tablet4k 1000, App.TouchStart (Examples.one 100 100));
                         (Examples.tablet4k 1050, App.TouchMove (Examples.one 130 400))]
                        Examples.relativeApp))).
  { vm_compute. left. reflexivity. }
  split; [exact H |].
  destruct (X1_relative_moves_are_nonzero_int8 sqrt_floor _ _ 30 127 H) as (A & B & _).
  split; [exact A | exact B].
Defined.

End RelativeRangeFacts.

(** ** Long press, double tap and drag *)

Module PressFacts.
Import Js JsFacts Dom Wire Mouse TapSpec PressSpec TapFacts.

(** What a one-finger move leaves alone. *)
Lemma move_frame Msqrt zc e t s :
  forall s1 out,
    step Msqrt zc e (TouchMove (oneTouch t)) s = (s1, out) ->
    _enabled s1 = _enabled s /\ _mode s1 = _mode s
    /\ _lastTapTime s1 = _lastTapTime s /\ _lastTapPos s1 = _lastTapPos s
    /\ _singleTapTimer s1 = _singleTapTimer s /\ pulses s1 = pulses s
    /\ _longPressFired s1 = _longPressFired s
    /\ _touchStartPos s1 = _touchStartPos s /\ _touchStartTime s1 = _touchStartTime s
    /\ _isSecondTapDown s1 = _isSecondTapDown s
    /\ _twoFingerTapDetected s1 = _twoFingerTapDetected s
    /\ (_isSecondTapDown s = false \/ _isDragging s = true ->
        _isDragging s1 = _isDragging s /\ filter is_button out = []).
Proof.
  intros s1 out. cbn [step]. unfold _handleTouchMove.
  destruct (_enabled s) eqn:He; cbn [negb];
    [| intros H; inversion H; subst; rewrite ?He; auto 20].
  destruct (_isZoomGesture zc);
    [intros H; inversion H; subst; rewrite ?He; auto 20 |].
  cbn [oneTouch touches].
  set (p := _getTouchPos zc e t) in *.
  match goal with
  | |- (match ?first with pair _ _ => _ end) = _ -> _ =>
    destruct first as [sa oa] eqn:Ea
  end.
  assert (K : _enabled sa = _enabled s /\ _mode sa = _mode s
              /\ _lastTapTime sa = _lastTapTime s /\ _lastTapPos sa = _lastTapPos s
              /\ _singleTapTimer sa = _singleTapTimer s /\ pulses sa = pulses s
              /\ _longPressFired sa = _longPressFired s
              /\ _touchStartPos sa = _touchStartPos s
              /\ _touchStartTime sa = _touchStartTime s
              /\ _isSecondTapDown sa = _isSecondTapDown s
              /\ _twoFingerTapDetected sa = _twoFingerTapDetected s
              /\ (_isSecondTapDown s = false \/ _isDragging s = true ->
                  _isDragging sa = _isDragging s /\ oa = [])).
  { destruct (_touchStartPos s) as [sp |] eqn:Esp;
      [| inversion Ea; subst; rewrite ?Esp; auto 20].
    destruct (gtb (distance Msqrt p sp) TAP_MAX_DISTANCE);
      [| inversion Ea; subst; rewrite ?Esp; auto 20].
    revert Ea. msimpl.
    destruct (_isSecondTapDown s) eqn:E2; destruct (_isDragging s) eqn:Ed; msimpl;
      intros Ea; inversion Ea; subst; msimpl; rewrite ?Esp, ?E2, ?Ed;
      repeat (lazymatch goal with |- _ /\ _ => split end); auto;
      intros [X | X]; try discriminate X; auto. }
  destruct K as (K1 & K2 & K3 & K4 & K5 & K6 & K7 & K8 & K9 & K10 & K11 & K12).
  assert (R : forall sb ob,
             (match _mode sa with
              | Absolute => (set_absPos (Some p) sa, oa)
              | Relative => let '(s, mv) := relativeMove p sa in (s, oa ++ mv)
              end) = (sb, ob) ->
             exists mv, ob = oa ++ mv /\ filter is_button mv = []
               /\ (sb = set_absPos (Some p) sa \/ sb = set_relTouchStart (Some p) sa
                   \/ sb = sa)).
  { intros sb ob. destruct (_mode sa).
    - intros H; inversion H; subst. exists []. rewrite app_nil_r. auto.
    - destruct (relativeMove_cases p sa) as (o & [[E Ho] | E]); rewrite E;
        intros H; inversion H; subst; eexists; eauto. }
  intros H.
  assert (H' : exists mv, out = oa ++ mv /\ filter is_button mv = []
               /\ (s1 = set_absPos (Some p) sa \/ s1 = set_relTouchStart (Some p) sa
                   \/ s1 = sa)).
  { destruct (_isDragging sa); apply R; exact H. }
  destruct H' as (mv & Eo & Hmv & Hs1).
  assert (F : forall (f : state -> Prop),
             f sa -> f (set_absPos (Some p) sa) -> f (set_relTouchStart (Some p) sa) -> f s1).
  { intros f F1 F2 F3. destruct Hs1 as [-> | [-> | ->]]; assumption. }
  repeat (lazymatch goal with |- _ /\ _ => split end);
    try (apply (F (fun x => _ x = _)); msimpl; congruence).
  intros Hc. destruct (K12 Hc) as [Kd Ko]. split.
  - apply (F (fun x => _isDragging x = _)); msimpl; assumption.
  - subst out oa. exact Hmv.
Qed.


(** The end of [_handleTouchMove] for one finger: the move itself. *)
Lemma move_tail p sa (oa : list hid) sb ob :
  (if _isDragging sa
   then match _mode sa with
        | Absolute => (set_absPos (Some p) sa, oa)
        | Relative => let '(s, mv) := relativeMove p sa in (s, oa ++ mv)
        end
   else match _mode sa with
        | Absolute => (set_absPos (Some p) sa, oa)
        | Relative => let '(s, mv) := relativeMove p sa in (s, oa ++ mv)
        end) = (sb, ob) ->
  exists mv, ob = oa ++ mv /\ filter is_button mv = []
    /\ (sb = set_absPos (Some p) sa \/ sb = set_relTouchStart (Some p) sa \/ sb = sa).
Proof.
  assert (R : match _mode sa with
              | Absolute => (set_absPos (Some p) sa, oa)
              | Relative => let '(s, mv) := relativeMove p sa in (s, oa ++ mv)
              end = (sb, ob) ->
              exists mv, ob = oa ++ mv /\ filter is_button mv = []
                /\ (sb = set_absPos (Some p) sa \/ sb = set_relTouchStart (Some p) sa
                    \/ sb = sa)).
  { destruct (_mode sa).
    - intros H; inversion H; subst. exists []. rewrite app_nil_r. auto.
    - destruct (relativeMove_cases p sa) as (o & [[E Ho] | E]); rewrite E;
        intros H; inversion H; subst; eexists; eauto. }
  destruct (_isDragging sa); exact R.
Qed.

(** A one-finger move that stays within the tap distance of the touch
    start: the timers and the flags of the gesture are as before. *)
Lemma near_move Msqrt zc e t s p0 :
  _touchStartPos s = Some p0 ->
  distance Msqrt (_getTouchPos zc e t) p0 <= TAP_MAX_DISTANCE ->
  forall s1 out,
    step Msqrt zc e (TouchMove (oneTouch t)) s = (s1, out) ->
    _longPressTimer s1 = _longPressTimer s /\ _dragHoldTimer s1 = _dragHoldTimer s
    /\ _touchMoved s1 = _touchMoved s /\ _isDragging s1 = _isDragging s
    /\ filter is_button out = [].
Proof.
  intros Hp Hd s1 out. cbn [step]. unfold _handleTouchMove.
  destruct (negb (_enabled s)); [intros H; inversion H; subst; auto 20 |].
  destruct (_isZoomGesture zc); [intros H; inversion H; subst; auto 20 |].
  cbn [oneTouch touches]. rewrite Hp.
  apply gtb_false in Hd. rewrite Hd. cbv beta iota zeta.
  intros H. apply move_tail in H. destruct H as (mv & Eo & Hmv & Hs1).
  subst out. cbn [app].
  destruct Hs1 as [-> | [-> | ->]]; msimpl; auto.
Qed.

Lemma near_moves Msqrt zc p0 l :
  withinTap Msqrt zc p0 l ->
  forall s, _touchStartPos s = Some p0 ->
  forall s1 out,
    run Msqrt zc (moves l) s = (s1, out) ->
    (_enabled s1 = _enabled s /\ _mode s1 = _mode s
     /\ _lastTapTime s1 = _lastTapTime s /\ _lastTapPos s1 = _lastTapPos s
     /\ _singleTapTimer s1 = _singleTapTimer s /\ pulses s1 = pulses s
     /\ _longPressFired s1 = _longPressFired s
     /\ _touchStartPos s1 = _touchStartPos s /\ _touchStartTime s1 = _touchStartTime s
     /\ _isSecondTapDown s1 = _isSecondTapDown s
     /\ _twoFingerTapDetected s1 = _twoFingerTapDetected s)
    /\ (_longPressTimer s1 = _longPressTimer s /\ _dragHoldTimer s1 = _dragHoldTimer s
        /\ _touchMoved s1 = _touchMoved s /\ _isDragging s1 = _isDragging s)
    /\ filter is_button out = [].
Proof.
  induction l as [| [e t] l IH]; intros Hw s Hp s1 out.
  - cbn. intros H; inversion H; subst. auto 20.
  - inversion Hw as [| x l' Hd Hl]; subst. cbn [fst snd] in Hd.
    cbn [moves map run fst snd]. fold (moves l).
    destruct (step Msqrt zc e (TouchMove (oneTouch t)) s) as [sa oa] eqn:Ea.
    pose proof (move_frame Msqrt zc e t s sa oa Ea)
      as (A1 & A2 & A3 & A4 & A5 & A6 & A7 & A8 & A9 & A10 & A11 & _).
    pose proof (near_move Msqrt zc e t s p0 Hp Hd sa oa Ea) as (B1 & B2 & B3 & B4 & B5).
    destruct (run Msqrt zc (moves l) sa) as [sb ob] eqn:Eb.
    assert (Hpa : _touchStartPos sa = Some p0) by congruence.
    destruct (IH Hl sa Hpa sb ob Eb)
      as ((C1 & C2 & C3 & C4 & C5 & C6 & C7 & C8 & C9 & C10 & C11)
          & (D1 & D2 & D3 & D4) & D5).
    intros H; inversion H; subst.
    rewrite filter_app, B5, D5.
    repeat (lazymatch goal with |- _ /\ _ => split end);
      first [reflexivity | congruence].
Qed.

(** A one-finger move that leaves the tap distance: the long press is
    called off, and a second tap still held turns into a drag at once. *)
Lemma far_move Msqrt zc e t s p0 :
  _enabled s = true -> _isZoomGesture zc = false ->
  _touchStartPos s = Some p0 ->
  TAP_MAX_DISTANCE < distance Msqrt (_getTouchPos zc e t) p0 ->
  forall s1 out,
    step Msqrt zc e (TouchMove (oneTouch t)) s = (s1, out) ->
    _longPressTimer s1 = None /\ _touchMoved s1 = true
    /\ (_isSecondTapDown s = true -> _isDragging s = false ->
        _isDragging s1 = true /\ _dragHoldTimer s1 = None
        /\ exists mv, out = MouseButton Left true :: mv /\ filter is_button mv = []).
Proof.
  intros He Hz Hp Hd s1 out. cbn [step]. unfold _handleTouchMove.
  rewrite He, Hz. cbn [negb oneTouch touches]. rewrite Hp.
  apply gtb_true in Hd. rewrite Hd.
  destruct (_isSecondTapDown (set_touchMoved true s)
            && negb (_isDragging (set_touchMoved true s))) eqn:Ec;
    cbv beta iota zeta; intros H; apply move_tail in H;
    destruct H as (mv & Eo & Hmv & Hs1); subst out;
    cbn [_isSecondTapDown _isDragging set_touchMoved] in Ec;
    (destruct Hs1 as [-> | [-> | ->]]; msimpl;
     (split; [reflexivity | split; [reflexivity |]]);
     intros E2 Ed; rewrite E2, Ed in Ec; cbn [andb negb] in Ec; try discriminate Ec;
     (split; [reflexivity | split; [reflexivity |]]);
     exists mv; (split; [reflexivity | exact Hmv])).
Qed.

(** The touch start of a press that is not a second tap arms the long
    press timer. *)
Lemma start_arms_long_press Msqrt zc e0 t0 s :
  _enabled s = true -> _isZoomGesture zc = false ->
  isSecondTap Msqrt e0 (_getTouchPos zc e0 t0) s = false ->
  forall s1 out,
    step Msqrt zc e0 (TouchStart (oneTouch t0)) s = (s1, out) ->
    _longPressTimer s1 = Some (setTimeout e0 LONG_PRESS_DELAY).
Proof.
  intros He Hz Hsec s1 out.
  cbn [step]. unfold _handleTouchStart. rewrite He, Hz. cbn [negb oneTouch touches].
  set (p0 := _getTouchPos zc e0 t0) in *.
  unfold isSecondTap in *. msimpl. rewrite Hsec. msimpl.
  destruct (_mode s) eqn:Em.
  - match goal with
    | |- _sendPlannedMove e0 ?x = _ -> _ =>
      destruct (sendPlannedMove_cases e0 x) as [(x0 & y0 & E) | E]; rewrite E
    end; intros H; inversion H; subst; clear H; msimpl; reflexivity.
  - intros H; inversion H; subst; clear H; msimpl; reflexivity.
Qed.

(** The touch start of a second tap. *)
Lemma second_tap_start Msqrt zc e0 t0 s :
  _enabled s = true -> _isDragging s = false -> _isZoomGesture zc = false ->
  isSecondTap Msqrt e0 (_getTouchPos zc e0 t0) s = true ->
  forall s1 out,
    step Msqrt zc e0 (TouchStart (oneTouch t0)) s = (s1, out) ->
    secondTapHeld s (_getTouchPos zc e0 t0) e0 s1 /\ filter is_button out = [].
Proof.
  intros He Hd Hz Hsec s1 out.
  cbn [step]. unfold _handleTouchStart. rewrite He, Hz. cbn [negb oneTouch touches].
  set (p0 := _getTouchPos zc e0 t0) in *.
  unfold isSecondTap in *. msimpl. rewrite Hsec. msimpl.
  destruct (_mode s) eqn:Em.
  - match goal with
    | |- _sendPlannedMove e0 ?x = _ -> _ =>
      destruct (sendPlannedMove_cases e0 x) as [(x0 & y0 & E) | E]; rewrite E
    end; intros H; inversion H; subst; clear H; unfold secondTapHeld; msimpl;
      rewrite ?Em; auto 20.
  - intros H; inversion H; subst; clear H; unfold secondTapHeld; msimpl;
      rewrite ?Em; auto 20.
Qed.


(** One-finger moves, however far, while no second tap is waiting to turn
    into a drag: no button frame, and the taps and timers of the click
    logic are as before. *)
Lemma free_moves Msqrt zc l :
  forall s, _isSecondTapDown s = false \/ _isDragging s = true ->
  forall s1 out,
    run Msqrt zc (moves l) s = (s1, out) ->
    _enabled s1 = _enabled s /\ _mode s1 = _mode s
    /\ _lastTapTime s1 = _lastTapTime s /\ _lastTapPos s1 = _lastTapPos s
    /\ _singleTapTimer s1 = _singleTapTimer s /\ pulses s1 = pulses s
    /\ _longPressFired s1 = _longPressFired s
    /\ _isSecondTapDown s1 = _isSecondTapDown s /\ _isDragging s1 = _isDragging s
    /\ filter is_button out = [].
Proof.
  induction l as [| [e t] l IH]; intros s Hc s1 out.
  - cbn. intros H; inversion H; subst. auto 20.
  - cbn [moves map run fst snd]. fold (moves l).
    destruct (step Msqrt zc e (TouchMove (oneTouch t)) s) as [sa oa] eqn:Ea.
    pose proof (move_frame Msqrt zc e t s sa oa Ea)
      as (A1 & A2 & A3 & A4 & A5 & A6 & A7 & _ & _ & A10 & _ & A12).
    destruct (A12 Hc) as [A13 A14].
    destruct (run Msqrt zc (moves l) sa) as [sb ob] eqn:Eb.
    assert (Hca : _isSecondTapDown sa = false \/ _isDragging sa = true).
    { destruct Hc; [left | right]; congruence. }
    destruct (IH sa Hca sb ob Eb) as (C1 & C2 & C3 & C4 & C5 & C6 & C7 & C8 & C9 & C10).
    intros H; inversion H; subst.
    rewrite filter_app, A14, C10.
    repeat (lazymatch goal with |- _ /\ _ => split end);
      first [reflexivity | congruence].
Qed.

(** The last finger is lifted during a drag. *)
Lemma end_of_drag Msqrt zc e lifted s :
  _enabled s = true -> _isZoomGesture zc = false -> _isDragging s = true ->
  forall s1 out,
    step Msqrt zc e (TouchEnd {| touches := []; changedTouches := lifted |}) s = (s1, out) ->
    (exists o, out = o ++ [MouseButton Left false] /\ filter is_button o = [])
    /\ _isDragging s1 = false /\ _isSecondTapDown s1 = false
    /\ _lastTapTime s1 = 0%Z /\ _lastTapPos s1 = None
    /\ _dragHoldTimer s1 = None /\ _longPressTimer s1 = None
    /\ _singleTapTimer s1 = _singleTapTimer s /\ pulses s1 = pulses s
    /\ _enabled s1 = true /\ _mode s1 = _mode s.
Proof.
  intros He Hz Hd s1 out.
  cbn [step]. unfold _handleTouchEnd. rewrite He, Hz. cbn [negb touches].
  destruct (sendPlannedMove_cases e (set_longPressTimer None s)) as [(x & y & E) | E];
    rewrite E; cbv beta iota zeta; msimpl; rewrite Hd; unfold _resetState;
    intros H; inversion H; subst; clear H; msimpl;
    (split; [first [exists [MouseMoveAbs x y] | exists []]; split; reflexivity |]);
    auto 20.
Qed.


(** The last finger is lifted after the long press has fired: the release
    is not a tap. *)
Lemma end_after_long_press Msqrt zc e lifted s :
  _enabled s = true -> _isZoomGesture zc = false ->
  _isDragging s = false -> _isSecondTapDown s = false -> _longPressFired s = true ->
  forall s1 out,
    step Msqrt zc e (TouchEnd {| touches := []; changedTouches := lifted |}) s = (s1, out) ->
    filter is_button out = []
    /\ _lastTapTime s1 = _lastTapTime s /\ _lastTapPos s1 = _lastTapPos s
    /\ _singleTapTimer s1 = _singleTapTimer s /\ pulses s1 = pulses s
    /\ _longPressTimer s1 = None.
Proof.
  intros He Hz Hd H2 Hf s1 out.
  cbn [step]. unfold _handleTouchEnd. rewrite He, Hz. cbn [negb touches].
  destruct (sendPlannedMove_cases e (set_longPressTimer None s)) as [(x & y & E) | E];
    rewrite E; cbv beta iota zeta; msimpl; rewrite Hd, H2, Hf; unfold _resetState;
    intros H; inversion H; subst; clear H; msimpl; auto 20.
Qed.

(** A timer that is not armed, or that has run, does nothing. *)
Lemma longPress_off e s :
  ready e (_longPressTimer s) = false -> fire e LongPressTimer s = (s, []).
Proof. intros H. cbn [fire]. unfold onLongPressTimer. now rewrite H. Qed.

Lemma dragHold_off e s :
  ready e (_dragHoldTimer s) = false -> fire e DragHoldTimer s = (s, []).
Proof. intros H. cbn [fire]. unfold onDragHoldTimer. now rewrite H. Qed.


(** What the long press timer does to a press that has not moved. *)
Lemma longPress_fire e0 e s :
  _longPressTimer s = Some (setTimeout e0 LONG_PRESS_DELAY) ->
  _touchMoved s = false -> _longPressFired s = false -> _isDragging s = false ->
  fire e LongPressTimer s
  = if (now e0 + LONG_PRESS_DELAY <=? now e)%Z
    then (setpulses (pulses s ++ [((now e + 50)%Z, Right)])
            (set_longPressFired true
               (set_longPressTimer
                  (Some {| due := (now e0 + LONG_PRESS_DELAY)%Z; spent := true |}) s)),
          [MouseButton Right true])
    else (s, []).
Proof.
  intros Ht Hmv Hl Hd. cbn [fire]. unfold onLongPressTimer, ready. rewrite Ht.
  cbn [setTimeout spent due negb andb expire].
  destruct (now e0 + LONG_PRESS_DELAY <=? now e)%Z; [| reflexivity].
  msimpl. rewrite Hmv, Hl, Hd. cbn [negb andb]. unfold click. msimpl. reflexivity.
Qed.

(** X2. Tap and hold is a right click.  A finger that goes down on an idle
    recogniser (not as the second tap of a double tap) and stays within
    10 px sends no button frame; the long press timer does nothing before
    500 ms have passed since the touch start, and when it runs after that
    it sends one press of the right button and queues its release 50 ms
    later.  It cannot run twice, and whatever the finger does afterwards,
    lifting it sends no button frame, records no tap and arms no deferred
    click. *)
Theorem X2_long_press_right_click :
  forall (Msqrt : Q -> Q) (zc : option Zoom.state) (s : state) (e0 e1 : env) (t0 : touch)
         (l l' : list (env * touch)),
    idle s -> _isZoomGesture zc = false ->
    isSecondTap Msqrt e0 (_getTouchPos zc e0 t0) s = false ->
    withinTap Msqrt zc (_getTouchPos zc e0 t0) l ->
    (now e0 + LONG_PRESS_DELAY <= now e1)%Z ->
    let r1 := run Msqrt zc (press e0 t0 l) s in
    let r2 := fire e1 LongPressTimer (fst r1) in
    filter is_button (snd r1) = []
    /\ (forall e, (now e < now e0 + LONG_PRESS_DELAY)%Z ->
        fire e LongPressTimer (fst r1) = (fst r1, []))
    /\ snd r2 = [MouseButton Right true]
    /\ pulses (fst r2) = pulses s ++ [((now e1 + 50)%Z, Right)]
    /\ (forall e, fire e LongPressTimer (fst r2) = (fst r2, []))
    /\ (forall e2 lifted,
        let r3 := run Msqrt zc (moves l' ++ [release e2 lifted]) (fst r2) in
        filter is_button (snd r3) = []
        /\ _lastTapTime (fst r3) = _lastTapTime s /\ _lastTapPos (fst r3) = _lastTapPos s
        /\ _singleTapTimer (fst r3) = _singleTapTimer s
        /\ pulses (fst r3) = pulses (fst r2)
        /\ forall e, fire e LongPressTimer (fst r3) = (fst r3, [])).
Proof.
  intros Msqrt zc s e0 e1 t0 l l' Hi Hz Hsec Hw Hdue r1 r2.
  subst r2 r1. unfold press. cbn [run].
  destruct (step Msqrt zc e0 (TouchStart (oneTouch t0)) s) as [sa oa] eqn:Ea.
  destruct (tap_start Msqrt zc e0 t0 s Hi Hz Hsec sa oa Ea) as [Hsa Hoa].
  pose proof (start_arms_long_press Msqrt zc e0 t0 s (proj1 Hi) Hz Hsec sa oa Ea) as Hta.
  destruct (run Msqrt zc (moves l) sa) as [sb ob] eqn:Eb.
  destruct (tap_moves Msqrt zc s _ _ l Hz Hw sa Hsa sb ob Eb) as [Hsb Hob].
  assert (Hpa : _touchStartPos sa = Some (_getTouchPos zc e0 t0)) by apply Hsa.
  destruct (near_moves Msqrt zc _ l Hw sa Hpa sb ob Eb) as (_ & (Htb & _) & _).
  rewrite Hta in Htb. cbn [fst snd].
  destruct Hsb as (He & Hm & Hp & Ht & Hmv & Hl & Hd & H2 & Hf & Hlt & Hlp & Hst & Hpu).
  pose proof (fun e => longPress_fire e0 e sb Htb Hmv Hl Hd) as Hfire.
  split; [now rewrite filter_app, Hoa, Hob |].
  split.
  { intros e Hlt'. rewrite Hfire. apply Z.leb_gt in Hlt'. now rewrite Hlt'. }
  rewrite Hfire. apply Z.leb_le in Hdue. rewrite Hdue. cbn [fst snd].
  set (sc := setpulses _ _).
  assert (Fc : _enabled sc = true /\ _isDragging sc = false /\ _isSecondTapDown sc = false
               /\ _longPressFired sc = true /\ _lastTapTime sc = _lastTapTime s
               /\ _lastTapPos sc = _lastTapPos s /\ _singleTapTimer sc = _singleTapTimer s
               /\ pulses sc = pulses s ++ [((now e1 + 50)%Z, Right)]
               /\ ready e1 (_longPressTimer sc) = false).
  { subst sc. msimpl. rewrite Hpu. auto 20. }
  destruct Fc as (F1 & F2 & F3 & F4 & F5 & F6 & F7 & F8 & _).
  split; [reflexivity |]. split; [exact F8 |]. split.
  { intros e. apply longPress_off. subst sc. msimpl. reflexivity. }
  intros e2 lifted. rewrite run_app.
  destruct (run Msqrt zc (moves l') sc) as [sd od] eqn:Ed.
  destruct (free_moves Msqrt zc l' sc (or_introl F3) sd od Ed)
    as (G1 & G2 & G3 & G4 & G5 & G6 & G7 & G8 & G9 & G10).
  unfold release. cbn [run].
  destruct (step Msqrt zc e2 (TouchEnd {| touches := []; changedTouches := lifted |}) sd)
    as [se oe] eqn:Ee.
  assert (K1 : _enabled sd = true) by congruence.
  assert (K2 : _isDragging sd = false) by congruence.
  assert (K3 : _isSecondTapDown sd = false) by congruence.
  assert (K4 : _longPressFired sd = true) by congruence.
  destruct (end_after_long_press Msqrt zc e2 lifted sd K1 Hz K2 K3 K4 se oe Ee)
    as (L1 & L2 & L3 & L4 & L5 & L6).
  cbn [fst snd]. rewrite app_nil_r, filter_app, G10, L1.
  repeat (lazymatch goal with |- _ /\ _ => split end);
    try first [reflexivity | congruence].
  intros e. apply longPress_off. now rewrite L6.
Qed.


(** Any touch end, and the touch start of a second finger, call the long
    press off. *)
Lemma touchEnd_clears_long_press Msqrt zc e ev s :
  _enabled s = true -> _isZoomGesture zc = false ->
  _longPressTimer (fst (step Msqrt zc e (TouchEnd ev) s)) = None.
Proof.
  intros He Hz. cbn [step]. unfold _handleTouchEnd. rewrite He, Hz. cbn [negb].
  destruct (touches ev) as [| a [| b m]]; [| reflexivity | reflexivity].
  destruct (sendPlannedMove_cases e (set_longPressTimer None s)) as [(x & y & E) | E];
    rewrite E; cbv beta iota zeta; unfold click, _resetState;
    (destruct (_isDragging _); cbv beta iota zeta; [msimpl; reflexivity |]);
    (destruct (_isSecondTapDown _); cbv beta iota zeta; [msimpl; reflexivity |]);
    (destruct (_longPressFired _); cbv beta iota zeta; [msimpl; reflexivity |]);
    match goal with
    | |- context [match ?m with pair _ _ => _ end] =>
      assert (K : _longPressTimer (fst m) = None)
        by (unfold _processTap, click; repeat break_match; msimpl; reflexivity);
      destruct m as [sx ox]; cbn [fst] in K; msimpl; exact K
    end.
Qed.

Lemma second_finger_clears_long_press Msqrt zc e t1 t2 c s :
  _enabled s = true -> _isZoomGesture zc = false ->
  _longPressTimer
    (fst (step Msqrt zc e (TouchStart {| touches := [t1; t2]; changedTouches := c |}) s))
  = None.
Proof.
  intros He Hz. cbn [step]. unfold _handleTouchStart. rewrite He, Hz.
  cbn [negb touches]. msimpl.
  destruct (_mode s); [| reflexivity].
  match goal with
  | |- context [_sendPlannedMove e ?x] =>
    destruct (sendPlannedMove_cases e x) as [(x0 & y0 & E) | E]; rewrite E
  end; reflexivity.
Qed.

(** X3. A long press is called off by whatever ends the hold.  After a
    finger went down on an idle recogniser and stayed within 10 px, a move
    of that finger more than 10 px away from where it went down, a touch end
    and the touch start of a second finger each leave the recogniser in a
    state in which the long press timer, whenever it runs, sends nothing
    and changes nothing: no right click follows. *)
Theorem X3_long_press_called_off :
  forall (Msqrt : Q -> Q) (zc : option Zoom.state) (s : state) (e0 : env) (t0 : touch)
         (l : list (env * touch)),
    idle s -> _isZoomGesture zc = false ->
    isSecondTap Msqrt e0 (_getTouchPos zc e0 t0) s = false ->
    withinTap Msqrt zc (_getTouchPos zc e0 t0) l ->
    let s1 := fst (run Msqrt zc (press e0 t0 l) s) in
    _longPressTimer s1 = Some (setTimeout e0 LONG_PRESS_DELAY)
    /\ (forall e1 t1,
        TAP_MAX_DISTANCE
        < distance Msqrt (_getTouchPos zc e1 t1) (_getTouchPos zc e0 t0) ->
        let s2 := fst (step Msqrt zc e1 (TouchMove (oneTouch t1)) s1) in
        forall e, fire e LongPressTimer s2 = (s2, []))
    /\ (forall e1 ev,
        let s2 := fst (step Msqrt zc e1 (TouchEnd ev) s1) in
        forall e, fire e LongPressTimer s2 = (s2, []))
    /\ (forall e1 t1 t2 c,
        let s2 := fst (step Msqrt zc e1
                         (TouchStart {| touches := [t1; t2]; changedTouches := c |}) s1) in
        forall e, fire e LongPressTimer s2 = (s2, [])).
Proof.
  intros Msqrt zc s e0 t0 l Hi Hz Hsec Hw s1.
  subst s1. unfold press. cbn [run].
  destruct (step Msqrt zc e0 (TouchStart (oneTouch t0)) s) as [sa oa] eqn:Ea.
  destruct (tap_start Msqrt zc e0 t0 s Hi Hz Hsec sa oa Ea) as [Hsa Hoa].
  pose proof (start_arms_long_press Msqrt zc e0 t0 s (proj1 Hi) Hz Hsec sa oa Ea) as Hta.
  destruct (run Msqrt zc (moves l) sa) as [sb ob] eqn:Eb.
  destruct (tap_moves Msqrt zc s _ _ l Hz Hw sa Hsa sb ob Eb) as [Hsb Hob].
  assert (Hpa : _touchStartPos sa = Some (_getTouchPos zc e0 t0)) by apply Hsa.
  destruct (near_moves Msqrt zc _ l Hw sa Hpa sb ob Eb) as (_ & (Htb & _) & _).
  rewrite Hta in Htb. cbn [fst snd].
  destruct Hsb as (He & Hm & Hp & _).
  split; [exact Htb |]. split; [| split].
  - intros e1 t1 Hfar e.
    destruct (step Msqrt zc e1 (TouchMove (oneTouch t1)) sb) as [sc oc] eqn:Ec.
    destruct (far_move Msqrt zc e1 t1 sb _ He Hz Hp Hfar sc oc Ec) as (Hn & _).
    cbn [fst]. apply longPress_off. now rewrite Hn.
  - intros e1 ev e. apply longPress_off.
    now rewrite (touchEnd_clears_long_press Msqrt zc e1 ev sb He Hz).
  - intros e1 t1 t2 c e. apply longPress_off.
    now rewrite (second_finger_clears_long_press Msqrt zc e1 t1 t2 c sb He Hz).
Qed.

(** The second tap of a double tap goes down and stays within 10 px. *)
Lemma second_tap_press Msqrt zc e0 t0 l s :
  _enabled s = true -> _isDragging s = false -> _isZoomGesture zc = false ->
  isSecondTap Msqrt e0 (_getTouchPos zc e0 t0) s = true ->
  withinTap Msqrt zc (_getTouchPos zc e0 t0) l ->
  forall s1 out,
    run Msqrt zc (press e0 t0 l) s = (s1, out) ->
    secondTapHeld s (_getTouchPos zc e0 t0) e0 s1 /\ filter is_button out = [].
Proof.
  intros He Hd Hz Hsec Hw s1 out. unfold press. cbn [run].
  destruct (step Msqrt zc e0 (TouchStart (oneTouch t0)) s) as [sa oa] eqn:Ea.
  destruct (second_tap_start Msqrt zc e0 t0 s He Hd Hz Hsec sa oa Ea) as [Hsa Hoa].
  destruct (run Msqrt zc (moves l) sa) as [sb ob] eqn:Eb.
  destruct Hsa as (A1 & A2 & A3 & A4 & A5 & A6 & A7 & A8 & A9).
  destruct (near_moves Msqrt zc _ l Hw sa A3 sb ob Eb)
    as ((C1 & C2 & C3 & C4 & C5 & C6 & C7 & C8 & C9 & C10 & C11)
        & (D1 & D2 & D3 & D4) & D5).
  intros H; inversion H; subst. rewrite filter_app, Hoa, D5.
  split; [| reflexivity]. unfold secondTapHeld.
  repeat (lazymatch goal with |- _ /\ _ => split end); congruence.
Qed.

(** What the drag hold timer does to a second tap that has not moved. *)
Lemma dragHold_fire e0 e s :
  _dragHoldTimer s = Some (setTimeout e0 DRAG_HOLD_DELAY) ->
  _isSecondTapDown s = true -> _touchMoved s = false ->
  fire e DragHoldTimer s
  = if (now e0 + DRAG_HOLD_DELAY <=? now e)%Z
    then (set_longPressTimer None
            (set_isDragging true
               (set_dragHoldTimer
                  (Some {| due := (now e0 + DRAG_HOLD_DELAY)%Z; spent := true |}) s)),
          [MouseButton Left true])
    else (s, []).
Proof.
  intros Ht H2 Hmv. cbn [fire]. unfold onDragHoldTimer, ready. rewrite Ht.
  cbn [setTimeout spent due negb andb expire].
  destruct (now e0 + DRAG_HOLD_DELAY <=? now e)%Z; [| reflexivity].
  msimpl. rewrite H2, Hmv. reflexivity.
Qed.

(** X4. Double tap and hold is a left press and drag.  The second tap of a
    double tap goes down and stays within 10 px: no button frame.  The drag
    hold timer does nothing before 200 ms have passed since that touch
    start; when it runs after that it sends one press of the left button
    and starts the drag, after which neither it nor the long press timer
    sends anything.  Whatever moves follow, no button frame is sent until
    the finger is lifted; the touch end then sends the release of the left
    button as its last frame, ends the drag, forgets the recorded tap and
    queues no release. *)
Theorem X4_double_tap_and_hold_drags :
  forall (Msqrt : Q -> Q) (zc : option Zoom.state) (s : state) (e0 e1 e2 : env)
         (t0 : touch) (l1 l2 : list (env * touch)) (lifted : list touch),
    _enabled s = true -> _isDragging s = false -> _isZoomGesture zc = false ->
    isSecondTap Msqrt e0 (_getTouchPos zc e0 t0) s = true ->
    withinTap Msqrt zc (_getTouchPos zc e0 t0) l1 ->
    (now e0 + DRAG_HOLD_DELAY <= now e1)%Z ->
    let r1 := run Msqrt zc (press e0 t0 l1) s in
    let r2 := fire e1 DragHoldTimer (fst r1) in
    let r3 := run Msqrt zc (moves l2 ++ [release e2 lifted]) (fst r2) in
    filter is_button (snd r1) = []
    /\ (forall e, (now e < now e0 + DRAG_HOLD_DELAY)%Z ->
        fire e DragHoldTimer (fst r1) = (fst r1, []))
    /\ snd r2 = [MouseButton Left true] /\ _isDragging (fst r2) = true
    /\ (forall e, fire e DragHoldTimer (fst r2) = (fst r2, []))
    /\ (forall e, fire e LongPressTimer (fst r2) = (fst r2, []))
    /\ (exists o, snd r3 = o ++ [MouseButton Left false] /\ filter is_button o = [])
    /\ _isDragging (fst r3) = false
    /\ _lastTapTime (fst r3) = 0%Z /\ _lastTapPos (fst r3) = None
    /\ pulses (fst r3) = pulses s.
Proof.
  intros Msqrt zc s e0 e1 e2 t0 l1 l2 lifted He Hd Hz Hsec Hw Hdue r1 r2 r3.
  subst r3 r2 r1.
  destruct (run Msqrt zc (press e0 t0 l1) s) as [sb ob] eqn:Eb.
  destruct (second_tap_press Msqrt zc e0 t0 l1 s He Hd Hz Hsec Hw sb ob Eb)
    as ((A1 & A2 & A3 & A4 & A5 & A6 & A7 & A8 & A9) & Hob).
  cbn [fst snd].
  pose proof (fun e => dragHold_fire e0 e sb A7 A5 A4) as Hfire.
  split; [exact Hob |]. split.
  { intros e Hlt'. rewrite Hfire. apply Z.leb_gt in Hlt'. now rewrite Hlt'. }
  rewrite Hfire. apply Z.leb_le in Hdue. rewrite Hdue. cbn [fst snd].
  set (sc := set_longPressTimer None _).
  assert (Fc : _enabled sc = true /\ _isDragging sc = true /\ pulses sc = pulses s).
  { subst sc. msimpl. auto. }
  destruct Fc as (F1 & F2 & F3).
  split; [reflexivity |]. split; [exact F2 |]. split.
  { intros e. apply dragHold_off. subst sc. msimpl. reflexivity. }
  split.
  { intros e. apply longPress_off. subst sc. msimpl. reflexivity. }
  rewrite run_app.
  destruct (run Msqrt zc (moves l2) sc) as [sd od] eqn:Ed.
  destruct (free_moves Msqrt zc l2 sc (or_intror F2) sd od Ed)
    as (G1 & G2 & G3 & G4 & G5 & G6 & G7 & G8 & G9 & G10).
  unfold release. cbn [run].
  destruct (step Msqrt zc e2 (TouchEnd {| touches := []; changedTouches := lifted |}) sd)
    as [se oe] eqn:Ee.
  assert (K1 : _enabled sd = true) by congruence.
  assert (K2 : _isDragging sd = true) by congruence.
  destruct (end_of_drag Msqrt zc e2 lifted sd K1 Hz K2 se oe Ee)
    as ((o & Eo & Ho) & L1 & L2 & L3 & L4 & L5 & L6 & L7 & L8 & L9 & L10).
  cbn [fst snd]. rewrite app_nil_r. split.
  { exists (od ++ o). subst oe. rewrite app_assoc. split; [reflexivity |].
    now rewrite filter_app, G10, Ho. }
  repeat (lazymatch goal with |- _ /\ _ => split end); congruence.
Qed.

(** X5. A second tap that moves turns into a drag at once.  While the
    second tap of a double tap is held within 10 px, a move more than 10 px
    away from where it went down sends the press of the left button as the
    first frame of that move, without waiting for the drag hold timer, and
    disarms that timer and the long press.  The moves that follow send no
    button frame, and the touch end sends the release of the left button as
    its last frame. *)
Theorem X5_second_tap_moved_drags_at_once :
  forall (Msqrt : Q -> Q) (zc : option Zoom.state) (s : state) (e0 e1 e2 : env)
         (t0 t1 : touch) (l1 l2 : list (env * touch)) (lifted : list touch),
    _enabled s = true -> _isDragging s = false -> _isZoomGesture zc = false ->
    isSecondTap Msqrt e0 (_getTouchPos zc e0 t0) s = true ->
    withinTap Msqrt zc (_getTouchPos zc e0 t0) l1 ->
    TAP_MAX_DISTANCE < distance Msqrt (_getTouchPos zc e1 t1) (_getTouchPos zc e0 t0) ->
    let r1 := run Msqrt zc (press e0 t0 l1) s in
    let r2 := step Msqrt zc e1 (TouchMove (oneTouch t1)) (fst r1) in
    let r3 := run Msqrt zc (moves l2 ++ [release e2 lifted]) (fst r2) in
    filter is_button (snd r1) = []
    /\ (exists mv, snd r2 = MouseButton Left true :: mv /\ filter is_button mv = [])
    /\ _isDragging (fst r2) = true
    /\ (forall e, fire e DragHoldTimer (fst r2) = (fst r2, []))
    /\ (forall e, fire e LongPressTimer (fst r2) = (fst r2, []))
    /\ (exists o, snd r3 = o ++ [MouseButton Left false] /\ filter is_button o = [])
    /\ _isDragging (fst r3) = false
    /\ _lastTapTime (fst r3) = 0%Z /\ _lastTapPos (fst r3) = None
    /\ pulses (fst r3) = pulses s.
Proof.
  intros Msqrt zc s e0 e1 e2 t0 t1 l1 l2 lifted He Hd Hz Hsec Hw Hfar r1 r2 r3.
  subst r3 r2 r1.
  destruct (run Msqrt zc (press e0 t0 l1) s) as [sb ob] eqn:Eb.
  destruct (second_tap_press Msqrt zc e0 t0 l1 s He Hd Hz Hsec Hw sb ob Eb)
    as ((A1 & A2 & A3 & A4 & A5 & A6 & A7 & A8 & A9) & Hob).
  cbn [fst snd].
  destruct (step Msqrt zc e1 (TouchMove (oneTouch t1)) sb) as [sc oc] eqn:Ec.
  destruct (far_move Msqrt zc e1 t1 sb _ A1 Hz A3 Hfar sc oc Ec) as (B1 & B2 & B3).
  destruct (B3 A5 A6) as (B4 & B5 & B6).
  pose proof (move_frame Msqrt zc e1 t1 sb sc oc Ec)
    as (M1 & M2 & M3 & M4 & M5 & M6 & _).
  cbn [fst snd].
  split; [exact Hob |]. split; [exact B6 |]. split; [exact B4 |]. split.
  { intros e. apply dragHold_off. now rewrite B5. }
  split.
  { intros e. apply longPress_off. now rewrite B1. }
  rewrite run_app.
  destruct (run Msqrt zc (moves l2) sc) as [sd od] eqn:Ed.
  destruct (free_moves Msqrt zc l2 sc (or_intror B4) sd od Ed)
    as (G1 & G2 & G3 & G4 & G5 & G6 & G7 & G8 & G9 & G10).
  unfold release. cbn [run].
  destruct (step Msqrt zc e2 (TouchEnd {| touches := []; changedTouches := lifted |}) sd)
    as [se oe] eqn:Ee.
  assert (K1 : _enabled sd = true) by congruence.
  assert (K2 : _isDragging sd = true) by congruence.
  destruct (end_of_drag Msqrt zc e2 lifted sd K1 Hz K2 se oe Ee)
    as ((o & Eo & Ho) & L1 & L2 & L3 & L4 & L5 & L6 & L7 & L8 & L9 & L10).
  cbn [fst snd]. rewrite app_nil_r. split.
  { exists (od ++ o). subst oe. rewrite app_assoc. split; [reflexivity |].
    now rewrite filter_app, G10, Ho. }
  repeat (lazymatch goal with |- _ /\ _ => split end); congruence.
Qed.




(** Decides a closed comparison of rationals or integers. *)
Ltac decided :=
  lazymatch goal with
  | |- ~ _ => let K := fresh in intro K; vm_compute in K; discriminate K
  | |- _ => vm_compute; first [reflexivity | let K := fresh in intro K; discriminate K]
  end.

(** X2 for a finger that rests on (100, 100) from 1000 ms on. *)
Lemma X2_witness :
  snd (fire (Examples.tablet4k 1500) LongPressTimer
         (fst (run sqrt_floor None
                 (press (Examples.tablet4k 1000) (Examples.finger 100 100)
                    (PressExamples.rest 1200))
                 Examples.relativeIdle)))
  = [MouseButton Right true].
Proof.
  assert (I : idle Examples.relativeIdle) by (repeat split).
  assert (W : withinTap sqrt_floor None
                (_getTouchPos None (Examples.tablet4k 1000) (Examples.finger 100 100))
                (PressExamples.rest 1200)).
  { constructor; [decided | constructor]. }
  assert (D : (now (Examples.tablet4k 1000) + LONG_PRESS_DELAY
               <= now (Examples.tablet4k 1500))%Z) by decided.
  pose proof (X2_long_press_right_click sqrt_floor None Examples.relativeIdle
                (Examples.tablet4k 1000) (Examples.tablet4k 1500)
                (Examples.finger 100 100) (PressExamples.rest 1200) []
                I eq_refl eq_refl W D) as H.
  cbv zeta in H. exact (proj1 (proj2 (proj2 H))).
Defined.

(** X3 for the same finger, lifted at 1300 ms. *)
Lemma X3_witness :
  let s2 := fst (step sqrt_floor None (Examples.tablet4k 1300)
                   (TouchEnd (Examples.lift [Examples.finger 103 100] []))
                   (fst (run sqrt_floor None
                           (press (Examples.tablet4k 1000) (Examples.finger 100 100)
                              (PressExamples.rest 1200))
                           Examples.relativeIdle))) in
  fire (Examples.tablet4k 1500) LongPressTimer s2 = (s2, []).
Proof.
  assert (I : idle Examples.relativeIdle) by (repeat split).
  assert (W : withinTap sqrt_floor None
                (_getTouchPos None (Examples.tablet4k 1000) (Examples.finger 100 100))
                (PressExamples.rest 1200)).
  { constructor; [decided | constructor]. }
  pose proof (X3_long_press_called_off sqrt_floor None Examples.relativeIdle
                (Examples.tablet4k 1000) (Examples.finger 100 100)
                (PressExamples.rest 1200) I eq_refl eq_refl W) as H.
  cbv zeta in H. destruct H as (_ & _ & H & _).
  exact (H (Examples.tablet4k 1300) (Examples.lift [Examples.finger 103 100] [])
           (Examples.tablet4k 1500)).
Defined.

(** X4 for a second tap at 1200 ms that is held until 1400 ms. *)
Lemma X4_witness :
  snd (fire (Examples.tablet4k 1400) DragHoldTimer
         (fst (run sqrt_floor None
                 (press (Examples.tablet4k 1200) (Examples.finger 100 100)
                    (PressExamples.rest 1300))
                 PressExamples.tapped)))
  = [MouseButton Left true].
Proof.
  assert (W : withinTap sqrt_floor None
                (_getTouchPos None (Examples.tablet4k 1200) (Examples.finger 100 100))
                (PressExamples.rest 1300)).
  { constructor; [decided | constructor]. }
  assert (D : (now (Examples.tablet4k 1200) + DRAG_HOLD_DELAY
               <= now (Examples.tablet4k 1400))%Z) by decided.
  pose proof (X4_double_tap_and_hold_drags sqrt_floor None PressExamples.tapped
                (Examples.tablet4k 1200) (Examples.tablet4k 1400) (Examples.tablet4k 1600)
                (Examples.finger 100 100) (PressExamples.rest 1300) []
                [Examples.finger 103 100]
                eq_refl eq_refl eq_refl eq_refl W D) as H.
  cbv zeta in H. exact (proj1 (proj2 (proj2 H))).
Defined.

(** X5 for a second tap at 1200 ms that moves 30 px to the right at
    1250 ms. *)
Lemma X5_witness :
  _isDragging
    (fst (step sqrt_floor None (Examples.tablet4k 1250)
            (TouchMove (oneTouch (Examples.finger 130 100)))
            (fst (run sqrt_floor None
                    (press (Examples.tablet4k 1200) (Examples.finger 100 100) [])
                    PressExamples.tapped))))
  = true.
Proof.
  assert (W : withinTap sqrt_floor None
                (_getTouchPos None (Examples.tablet4k 1200) (Examples.finger 100 100)) [])
    by constructor.
  assert (F : TAP_MAX_DISTANCE
              < distance sqrt_floor
                  (_getTouchPos None (Examples.tablet4k 1250) (Examples.finger 130 100))
                  (_getTouchPos None (Examples.tablet4k 1200) (Examples.finger 100 100)))
    by decided.
  pose proof (X5_second_tap_moved_drags_at_once sqrt_floor None PressExamples.tapped
                (Examples.tablet4k 1200) (Examples.tablet4k 1250) (Examples.tablet4k 1600)
                (Examples.finger 100 100) (Examples.finger 130 100) [] []
                [Examples.finger 130 100]
                eq_refl eq_refl eq_refl eq_refl W F) as H.
  cbv zeta in H. exact (proj1 (proj2 (proj2 H))).
Defined.


End PressFacts.

(** ** The pointer recogniser and the zoom controller together *)

Module YieldFacts.
Import Js JsFacts Dom Wire Frames Contact.



Lemma app_run_app Msqrt l1 l2 s :
  App.run Msqrt (l1 ++ l2) s
  = let '(s1, o1) := App.run Msqrt l1 s in
    let '(s2, o2) := App.run Msqrt l2 s1 in
    (s2, o1 ++ o2).
Proof.
  revert s. induction l1 as [| [e a] l1 IH]; intros s.
  - cbn [app App.run]. now destruct (App.run Msqrt l2 s).
  - cbn [app App.run]. destruct (App.dispatch Msqrt e a s) as [sa oa].
    rewrite IH. destruct (App.run Msqrt l1 sa) as [sb ob].
    destruct (App.run Msqrt l2 sb) as [sc oc]. now rewrite app_assoc.
Qed.

Lemma claimed_flags z :
  claimed z -> Zoom._gestureUndecided z = false /\ Zoom.isPanningOrPinching z = true.
Proof.
  unfold claimed, Zoom.isPanningOrPinching.
  intros [H | H]; apply GestureFacts.gesture_flags in H;
    destruct H as (-> & -> & _ & ->); auto.
Qed.

(** The three handlers of the recogniser return at once while the
    controller pans or pinches. *)
Lemma mouse_yields Msqrt z e ev m :
  Zoom.isPanningOrPinching z = true ->
  Mouse._handleTouchStart Msqrt (Some z) e ev m = (m, [])
  /\ Mouse._handleTouchMove Msqrt (Some z) e ev m = (m, [])
  /\ Mouse._handleTouchEnd (Some z) e ev m = (m, []).
Proof.
  intros H.
  unfold Mouse._handleTouchStart, Mouse._handleTouchMove, Mouse._handleTouchEnd.
  cbn [Mouse._isZoomGesture]. rewrite H.
  destruct (negb (Mouse._enabled m)); auto.
Qed.

Lemma touch_yields Msqrt zh mh ze e ev s :
  (forall z m, Zoom.isPanningOrPinching z = true -> mh (Some z) e ev m = (m, [])) ->
  zh e ev (App.zoom s) = Zoom.step Msqrt e ze (App.zoom s) ->
  claimed (App.zoom s) -> Zoom.keepsTwoFingers ze ->
  forall s1 out,
    App.touch zh mh e ev s = (s1, out) ->
    out = [] /\ App.mouse s1 = App.mouse s
    /\ Zoom.gesture (App.zoom s1) = Zoom.gesture (App.zoom s).
Proof.
  intros Hmh Hzh Hc Hk s1 out. unfold App.touch. rewrite Hzh.
  destruct (claimed_flags _ Hc) as [Hu Hpp].
  pose proof (GestureFacts.step_frozen Msqrt e ze (App.zoom s) Hu Hk) as Hg.
  destruct (Zoom.step Msqrt e ze (App.zoom s)) as [[z stopped] fx].
  cbn [fst] in Hg.
  destruct stopped.
  - intros H; inversion H; subst. auto.
  - assert (Hz : Zoom.isPanningOrPinching z = true).
    { unfold Zoom.isPanningOrPinching in *. unfold Zoom.gesture in Hg.
      inversion Hg as [[G1 G2 G3 G4]]. now rewrite G2, G4. }
    rewrite (Hmh z (App.mouse s) Hz).
    intros H; inversion H; subst. auto.
Qed.

Lemma dispatch_yields Msqrt e a s :
  claimed (App.zoom s) -> held a ->
  forall s1 out,
    App.dispatch Msqrt e a s = (s1, out) ->
    out = [] /\ App.mouse s1 = App.mouse s /\ claimed (App.zoom s1).
Proof.
  intros Hc Hh s1 out H.
  assert (K : out = [] /\ App.mouse s1 = App.mouse s
              /\ Zoom.gesture (App.zoom s1) = Zoom.gesture (App.zoom s)).
  { destruct a; cbn [held zoomEvent] in Hh; try contradiction;
      cbn [App.dispatch] in H.
    - apply (touch_yields Msqrt (Zoom._handleTouchStart Msqrt)
               (Mouse._handleTouchStart Msqrt) (Zoom.TouchStart ev) e ev s);
        [intros z m Hz; apply (mouse_yields Msqrt z e ev m Hz)
        | reflexivity | exact Hc | exact Hh | exact H].
    - apply (touch_yields Msqrt (Zoom._handleTouchMove Msqrt)
               (Mouse._handleTouchMove Msqrt) (Zoom.TouchMove ev) e ev s);
        [intros z m Hz; apply (mouse_yields Msqrt z e ev m Hz)
        | reflexivity | exact Hc | exact Hh | exact H].
    - apply (touch_yields Msqrt Zoom._handleTouchEnd Mouse._handleTouchEnd
               (Zoom.TouchEnd ev) e ev s);
        [intros z m Hz; apply (mouse_yields Msqrt z e ev m Hz)
        | reflexivity | exact Hc | exact Hh | exact H]. }
  destruct K as (K1 & K2 & K3). split; [exact K1 |]. split; [exact K2 |].
  unfold claimed in *. now rewrite K3.
Qed.

(** X8. The pointer recogniser yields to a pinch or a pan for the whole
    contact.  Once the zoom controller has classified a two-finger contact
    as a pinch or as a pan, every touch event across which two fingers stay
    down, and then the touch end that leaves fewer than two, reaches the
    websocket with no frame at all and leaves the state of the recogniser
    exactly as it was; the touch end clears the classification. *)
Theorem X8_pointer_yields_for_the_whole_contact :
  forall (Msqrt : Q -> Q) (s : App.state) (l : list (env * App.event)) (e : env)
         (ev : touch_event),
    claimed (App.zoom s) ->
    Forall (fun ea => held (snd ea)) l ->
    (List.length (touches ev) < 2)%nat ->
    let r := App.run Msqrt (l ++ [(e, App.TouchEnd ev)]) s in
    snd r = [] /\ App.mouse (fst r) = App.mouse s
    /\ Zoom.gesture (App.zoom (fst r)) = Zoom.g_none.
Proof.
  intros Msqrt s l e ev Hc Hall Hlen r. subst r. revert s Hc.
  induction l as [| [e1 a1] l IH]; intros s Hc.
  - cbn [app App.run App.dispatch]. unfold App.touch.
    pose proof (GestureFacts.end_resets e ev (App.zoom s) Hlen) as Hg.
    assert (Hst : snd (fst (Zoom._handleTouchEnd e ev (App.zoom s))) = true).
    { unfold Zoom._handleTouchEnd. apply Nat.ltb_lt in Hlen. rewrite Hlen.
      cbv zeta. cbn [Zoom._isPinching Zoom._isPanning Zoom.set_isPinching
                     Zoom.set_isPanning Zoom.set_gestureUndecided Zoom.set_isScroll].
      destruct (claimed_flags _ Hc) as [_ Hpp].
      unfold Zoom.isPanningOrPinching in Hpp.
      repeat break_match; cbn [fst snd]; rewrite orb_comm; exact Hpp. }
    destruct (Zoom._handleTouchEnd e ev (App.zoom s)) as [[z stopped] fx].
    cbn [fst snd] in *. subst stopped. cbn [fst snd App.zoom App.mouse]. auto.
  - inversion Hall as [| x l' Hh Hl]; subst. cbn [snd] in Hh.
    cbn [app App.run].
    destruct (App.dispatch Msqrt e1 a1 s) as [s1 o1] eqn:E1.
    destruct (dispatch_yields Msqrt e1 a1 s Hc Hh s1 o1 E1) as (K1 & K2 & K3).
    specialize (IH Hl s1 K3).
    destruct (App.run Msqrt (l ++ [(e, App.TouchEnd ev)]) s1) as [s2 o2].
    cbn [fst snd] in *. destruct IH as (I1 & I2 & I3).
    subst o1 o2. repeat split; congruence.
Qed.

(** X8 for a pinch in progress: one more move of the two fingers, and the
    touch end that lifts both. *)
Lemma X8_witness :
  snd (App.run sqrt_floor
         ([(Examples.tablet4k 20, App.TouchMove (Examples.two 100 100 260 100))]
          ++ [(Examples.tablet4k 30,
               App.TouchEnd (Examples.lift [Examples.finger 100 100;
                                            Examples.finger 260 100] []))])
         {| App.zoom := Examples.pinching; App.mouse := Mouse.initial |})
  = [].
Proof.
  assert (C : claimed (App.zoom {| App.zoom := Examples.pinching;
                                   App.mouse := Mouse.initial |})).
  { left. vm_compute. reflexivity. }
  assert (F : Forall (fun ea => held (snd ea))
                [(Examples.tablet4k 20, App.TouchMove (Examples.two 100 100 260 100))]).
  { repeat constructor. }
  assert (L : (List.length (touches (Examples.lift [Examples.finger 100 100;
                                                     Examples.finger 260 100] [])) < 2)%nat).
  { cbn. lia. }
  exact (proj1 (X8_pointer_yields_for_the_whole_contact sqrt_floor _ _
                  (Examples.tablet4k 30) _ C F L)).
Defined.

End YieldFacts.

(** ** Invariants of the zoom controller *)

Module ZoomInvariantFacts.
Import Js JsFacts Dom Zoom Contact View.
Import ZoomFacts.

(** The states a two-finger move can end in. *)
Lemma touchMove_shape Msqrt e ev s :
  fst (fst (_handleTouchMove Msqrt e ev s)) = s
  \/ exists t0 t1 d s1,
       (s1 = s \/ (_gestureUndecided s = true /\ s1 = classify e t0 t1 d s))
       /\ (fst (fst (_handleTouchMove Msqrt e ev s)) = s1
           \/ (_isPanning s1 = true
               /\ fst (fst (_handleTouchMove Msqrt e ev s)) = panUpdate e t0 t1 s1)
           \/ fst (fst (_handleTouchMove Msqrt e ev s))
              = pinchUpdate e (_dist Msqrt t0 t1) s1).
Proof.
  unfold _handleTouchMove.
  destruct (touches ev) as [| t0 [| t1 [| t2 l]]]; try (left; reflexivity).
  destruct (negb (_gestureUndecided s) && negb (_isPinching s) && negb (_isScroll s)
            && negb (_isPanning s)); [left; reflexivity |].
  cbv zeta. right.
  exists t0, t1, (Math_abs (_dist Msqrt t0 t1 - _pinchStartDist s)).
  set (s1 := if _gestureUndecided s then _ else s).
  exists s1. split.
  { subst s1. destruct (_gestureUndecided s); [right; split; reflexivity | left; reflexivity]. }
  destruct (_gestureUndecided s && _gestureUndecided s1); [left; reflexivity |].
  destruct (_isScroll s1); [left; reflexivity |].
  destruct (_isPanning s1); [right; left; split; reflexivity |].
  destruct (_isPinching s1); [right; right; reflexivity | left; reflexivity].
Qed.

(** The states a touch end can end in. *)
Lemma touchEnd_shape e ev s :
  let s0 := set_isScroll false (set_gestureUndecided false
              (set_isPanning false (set_isPinching false s))) in
  let s' := fst (fst (_handleTouchEnd e ev s)) in
  s' = s \/ s' = s0
  \/ (ltb (_scale s) (105 # 100) = true
      /\ (s' = fst (resetZoom s0) \/ s' = _clampTranslation e (fst (resetZoom s0))))
  \/ s' = _clampTranslation e s0
  \/ s' = _clampTranslation e (_clampTranslation e s0).
Proof.
  cbv zeta. unfold _handleTouchEnd.
  destruct (List.length (touches ev) <? 2)%nat; [| left; reflexivity].
  cbv zeta. zsimpl.
  destruct (_isPinching s), (_isPanning s); cbv beta iota zeta;
    try (destruct (ltb (_scale s) (105 # 100)) eqn:E); cbv beta iota zeta; cbn [fst];
    auto 10.
Qed.

Lemma classify_view e t0 t1 d s : view (classify e t0 t1 d s) = view s.
Proof. unfold classify. repeat break_match; reflexivity. Qed.

Lemma classify_gesture e t0 t1 d s :
  gesture s = g_undecided -> oneGesture (classify e t0 t1 d s).
Proof.
  intros H. apply GestureFacts.gesture_flags in H. destruct H as (Hu & Hp & Hc & Ha).
  unfold classify, oneGesture, gesture, g_none, g_undecided, g_pinch, g_scroll, g_pan.
  repeat break_match; zsimpl; rewrite ?Hu, ?Hp, ?Hc, ?Ha; auto 10.
Qed.

Lemma oneGesture_same s s' : gesture s' = gesture s -> oneGesture s -> oneGesture s'.
Proof. unfold oneGesture. intros ->. auto. Qed.

Lemma step_oneGesture Msqrt e a s :
  oneGesture s -> oneGesture (fst (fst (step Msqrt e a s))).
Proof.
  intros H. destruct a; cbn [step].
  - unfold _handleTouchStart.
    destruct (touches ev) as [| t0 [| t1 [| t2 l]]]; try exact H.
    right; left. reflexivity.
  - destruct (touchMove_shape Msqrt e ev s) as [-> | (t0 & t1 & d & s1 & Hs1 & Hs')];
      [exact H |].
    assert (H1 : oneGesture s1).
    { destruct Hs1 as [-> | [Hu ->]]; [exact H |].
      apply classify_gesture.
      destruct H as [H | [H | [H | [H | H]]]]; try exact H;
        apply GestureFacts.gesture_flags in H; destruct H as (Hu' & _);
        congruence. }
    destruct Hs' as [-> | [[_ ->] | ->]]; [exact H1 | |];
      apply (oneGesture_same s1); [reflexivity | exact H1 | reflexivity | exact H1].
  - destruct (List.length (touches ev) <? 2)%nat eqn:E.
    + left. apply GestureFacts.end_resets. now apply Nat.ltb_lt.
    + unfold _handleTouchEnd. rewrite E. exact H.
  - apply (oneGesture_same s); [| exact H].
    pose proof (GestureFacts.toggle_gesture e s) as K.
    destruct (toggle e s) as [s' fx]. exact K.
  - apply (oneGesture_same s); [| exact H].
    pose proof (GestureFacts.zoomToNative_gesture e s) as K.
    destruct (zoomToNative e s) as [s' fx]. exact K.
  - apply (oneGesture_same s); [reflexivity | exact H].
Qed.

(** X9. The classifications of a two-finger contact exclude one another.
    In every reachable state of the zoom controller at most one of the four
    flags undecided, pinch, scroll and pan is set. *)
Theorem X9_at_most_one_classification :
  forall (Msqrt : Q -> Q) (s : state), reachable Msqrt s -> oneGesture s.
Proof.
  intros Msqrt s H. induction H as [| e a s Hr IH Ha].
  - left. reflexivity.
  - now apply step_oneGesture.
Qed.

(** X9 for the controller in the middle of a pinch. *)
Lemma X9_witness : oneGesture Examples.pinching.
Proof.
  apply (X9_at_most_one_classification sqrt_floor).
  apply run_reachable; [apply reach_initial | repeat constructor].
Defined.


Lemma clampTranslation_zoomed e s :
  _zoomed (_clampTranslation e s) = _zoomed s.
Proof. reflexivity. Qed.

Lemma zoomToNative_flag e s :
  _zoomed s = gtb (_scale s) (105 # 100) ->
  _zoomed (fst (zoomToNative e s)) = gtb (_scale (fst (zoomToNative e s))) (105 # 100).
Proof.
  intros H. unfold zoomToNative. repeat break_match; zsimpl; try exact H.
  match goal with E : leb _ _ = false |- _ => apply leb_false in E end.
  symmetry. now apply gtb_true.
Qed.

Lemma step_flag Msqrt e a s :
  _zoomed s = gtb (_scale s) (105 # 100) ->
  _zoomed (fst (fst (step Msqrt e a s)))
  = gtb (_scale (fst (fst (step Msqrt e a s)))) (105 # 100).
Proof.
  intros H. destruct a; cbn [step].
  - unfold _handleTouchStart.
    destruct (touches ev) as [| t0 [| t1 [| t2 l]]]; exact H.
  - destruct (touchMove_shape Msqrt e ev s) as [-> | (t0 & t1 & d & s1 & Hs1 & Hs')];
      [exact H |].
    assert (H1 : _zoomed s1 = gtb (_scale s1) (105 # 100)).
    { destruct Hs1 as [-> | [Hu ->]]; [exact H |].
      pose proof (classify_view e t0 t1 d s) as V. unfold view in V.
      inversion V as [[V1 V2 V3 V4]]. rewrite V1, V2. exact H. }
    destruct Hs' as [-> | [[_ ->] | ->]]; [exact H1 | exact H1 | reflexivity].
  - pose proof (touchEnd_shape e ev s) as K. cbv zeta in K.
    destruct K as [-> | [-> | [[_ [-> | ->]] | [-> | ->]]]];
      first [exact H | reflexivity].
  - pose proof (zoomToNative_flag e s H) as K. clear H.
    unfold toggle. destruct (_zoomed s); [reflexivity |].
    destruct (zoomToNative e s) as [s' fx]. exact K.
  - pose proof (zoomToNative_flag e s H) as K.
    destruct (zoomToNative e s) as [s' fx]. exact K.
  - reflexivity.
Qed.

(** X10. The zoomed flag says whether the scale is above 1.05.  In every
    reachable state of the zoom controller the view counts as zoomed
    exactly when its scale is greater than 1.05: whatever the sequence of
    pinches, button presses and resets, the flag read by the pointer
    recogniser never disagrees with the scale it divides by. *)
Theorem X10_zoomed_iff_scale_above_threshold :
  forall (Msqrt : Q -> Q) (s : state),
    reachable Msqrt s -> (_zoomed s = true <-> 105 # 100 < _scale s).
Proof.
  intros Msqrt s H.
  assert (K : _zoomed s = gtb (_scale s) (105 # 100)).
  { induction H as [| e a s Hr IH Ha]; [reflexivity | now apply step_flag]. }
  rewrite K. apply gtb_true.
Qed.

(** X10 for the controller in the middle of a pinch. *)
Lemma X10_witness : _zoomed Examples.pinching = true <-> 105 # 100 < _scale Examples.pinching.
Proof.
  apply (X10_zoomed_iff_scale_above_threshold sqrt_floor).
  apply run_reachable; [apply reach_initial | repeat constructor].
Defined.












End ZoomInvariantFacts.

(** ** What the jog shuttle sends, and when it stops *)

Module ShuttleInvariantFacts.
Import Js JsFacts Wire Scroll ScrollFacts ShuttleFacts ShuttleSpec.

(** What stays true of the widget: its settings, a direction of -1, 0 or 1,
    and pending burst events of one amount each. *)
Lemma tickValue_amount s :
  _direction s = 1%Z \/ _direction s = (-1)%Z ->
  tickValue s == amount (_getPreset s) (_macMode s)
  \/ tickValue s == - amount (_getPreset s) (_macMode s).
Proof.
  unfold tickValue, amount. intros [H | H]; rewrite H; [left | right];
    destruct (_macMode s); ring.
Qed.

Lemma fireTick_bursts e s :
  exists extra, bursts (fst (_fireTick e s)) = bursts s ++ extra
                /\ Forall (fun dv => snd dv = tickValue s) extra.
Proof.
  unfold _fireTick, tickValue. destruct (_macMode s); cbv zeta; ssimpl.
  - eexists. split; [reflexivity |]. apply Forall_forall. intros x Hin.
    apply in_map_iff in Hin. destruct Hin as (y & <- & _). reflexivity.
  - exists []. rewrite app_nil_r. split; [reflexivity | constructor].
Qed.

Lemma takeBurst_some (P : Q -> Prop) t l v rest :
  takeBurst t l = Some (v, rest) ->
  Forall (fun dv => P (snd dv)) l -> P v /\ Forall (fun dv => P (snd dv)) rest.
Proof.
  revert v rest. induction l as [| [d x] l IH]; intros v rest; cbn [takeBurst].
  - discriminate.
  - intros H Hall. inversion Hall as [| y l' Hx Hl]; subst. cbn [snd] in Hx.
    destruct (leb d t).
    + inversion H; subst. auto.
    + destruct (takeBurst t l) as [[v' r] |]; [| discriminate].
      inversion H; subst. destruct (IH v r eq_refl Hl) as [Hv Hr].
      split; [exact Hv |]. constructor; [exact Hx | exact Hr].
Qed.


Lemma getPreset_name s name : _preset s = name -> _getPreset s = presetOf name.
Proof. intros <-. reflexivity. Qed.

Lemma getPreset_ext s s' : _preset s' = _preset s -> _getPreset s' = _getPreset s.
Proof. unfold _getPreset. now intros ->. Qed.

Lemma steady_same name mac s s' :
  _preset s' = _preset s -> _macMode s' = _macMode s -> _direction s' = _direction s ->
  bursts s' = bursts s -> steady name mac s -> steady name mac s'.
Proof. unfold steady. intros -> -> -> ->. auto. Qed.

Lemma steady_direction name mac s s' :
  _preset s' = _preset s -> _macMode s' = _macMode s ->
  (_direction s' = 0 \/ _direction s' = 1 \/ _direction s' = -1)%Z ->
  bursts s' = bursts s -> steady name mac s -> steady name mac s'.
Proof. unfold steady. intros -> -> Hd ->. intros (A & B & _ & D). auto. Qed.

(** A tick fired in a steady state with a direction. *)
Lemma fireTick_steady name mac e s :
  steady name mac s -> (_direction s = 1 \/ _direction s = -1)%Z ->
  steady name mac (fst (_fireTick e s))
  /\ Forall (tickFrame (presetOf name) mac) (snd (_fireTick e s)).
Proof.
  intros (Hp & Hm & Hd & Hb) Hdir.
  pose proof (tickValue_amount s Hdir) as Hv.
  rewrite (getPreset_name s name Hp), Hm in Hv.
  destruct (fireTick_fields e s) as (F1 & F2 & F3 & F4 & F5 & F6 & F7). cbv zeta in *.
  destruct (fireTick_bursts e s) as (extra & Eb & Hex).
  split.
  - unfold steady. rewrite F2, F3, F5, Eb.
    repeat (lazymatch goal with |- _ /\ _ => split end); auto.
    apply Forall_app. split; [exact Hb |].
    eapply Forall_impl; [| exact Hex]. intros dv ->. exact Hv.
  - rewrite fireTick_out. constructor; [| constructor].
    cbn [tickFrame]. split; [reflexivity | exact Hv].
Qed.

Lemma schedule_steady name mac e s :
  steady name mac s -> steady name mac (_scheduleNextTick e s).
Proof. apply steady_same; reflexivity. Qed.

Lemma update_steady name mac e y s :
  steady name mac s ->
  steady name mac (fst (_updateFromTouch e y s))
  /\ Forall (tickFrame (presetOf name) mac) (snd (_updateFromTouch e y s)).
Proof.
  intros Hs. rewrite update_cases. cbv zeta.
  set (c := Math_max (- _trackHalf s) (Math_min (_trackHalf s) (y - _centerY s))).
  destruct (reversal_facts c s) as (R1 & _). cbv zeta in R1.
  set (s1 := if negb _ then _ else _) in *.
  assert (H1 : steady name mac s1).
  { apply (steady_direction name mac s); try exact Hs.
    - subst s1. destruct (negb _); reflexivity.
    - subst s1. destruct (negb _); reflexivity.
    - rewrite R1. destruct (gtb c 0); auto.
    - subst s1. destruct (negb _); reflexivity. }
  destruct (ltb (Math_abs c) (deadZone (_getPreset s))).
  - cbn [fst snd]. split; [| constructor].
    apply (steady_direction name mac s); try exact Hs; try reflexivity. now left.
  - destruct (geb _ _ && _); cbn [fst snd]; [| split; [exact H1 | constructor]].
    assert (Hd1 : (_direction s1 = 1 \/ _direction s1 = -1)%Z).
    { rewrite R1. destruct (gtb c 0); auto. }
    destruct (fireTick_steady name mac e s1 H1 Hd1) as [K1 K2].
    split; [| exact K2].
    apply schedule_steady. revert K1. apply steady_same; reflexivity.
Qed.

Lemma step_steady name mac e a s :
  steady name mac s ->
  steady name mac (fst (step e a s))
  /\ Forall (tickFrame (presetOf name) mac) (snd (step e a s)).
Proof.
  intros Hs. destruct a; cbn [step].
  - unfold _handleTouchStart.
    destruct (negb (touchCount ev =? 1)%nat); [split; [exact Hs | constructor] |].
    apply update_steady. revert Hs. apply steady_same; reflexivity.
  - unfold _handleTouchMove.
    destruct (negb (_active s) || (touchCount ev <? 1)%nat);
      [split; [exact Hs | constructor] |].
    now apply update_steady.
  - unfold _handleTouchEnd. cbn [fst snd]. split; [| constructor].
    apply (steady_direction name mac s); try exact Hs; try reflexivity. now left.
  - unfold onRepeatTimer.
    destruct (_repeatTimer s) as [d |]; [| split; [exact Hs | constructor]].
    destruct (leb d (inject_Z (now e))); [| split; [exact Hs | constructor]].
    ssimpl.
    assert (H0 : steady name mac (set_repeatTimer None s)).
    { revert Hs. apply steady_same; reflexivity. }
    destruct (_active s); cbn [negb orb]; [| split; [exact H0 | constructor]].
    destruct (Z.eqb_spec (_direction s) 0) as [E | E];
      [split; [exact H0 | constructor] |].
    assert (Hd : (_direction (set_repeatTimer None s) = 1
                  \/ _direction (set_repeatTimer None s) = -1)%Z).
    { destruct Hs as (_ & _ & [D | D] & _); [contradiction | exact D]. }
    destruct (fireTick_steady name mac e _ H0 Hd) as [K1 K2].
    destruct (_fireTick e (set_repeatTimer None s)) as [s2 o2]. cbn [fst snd] in *.
    split; [now apply schedule_steady | exact K2].
  - unfold onBurstTimer.
    destruct (takeBurst (inject_Z (now e)) (bursts s)) as [[v rest] |] eqn:E;
      [| split; [exact Hs | constructor]].
    destruct Hs as (Hp & Hm & Hd & Hb).
    destruct (takeBurst_some
                (fun v => v == amount (presetOf name) mac
                          \/ v == - amount (presetOf name) mac) _ _ _ _ E Hb)
      as [Hv Hr].
    cbn [fst snd]. split.
    + unfold steady. ssimpl. auto.
    + constructor; [| constructor]. cbn [tickFrame]. split; [reflexivity | exact Hv].
Qed.

Lemma run_steady name mac l :
  forall s, steady name mac s ->
            Forall (tickFrame (presetOf name) mac) (snd (run l s)).
Proof.
  induction l as [| [e a] l IH]; intros s Hs; cbn [run]; [constructor |].
  destruct (step_steady name mac e a s Hs) as [K1 K2].
  destruct (step e a s) as [s1 o1]. cbn [fst snd] in *.
  specialize (IH s1 K1). destruct (run l s1) as [s2 o2]. cbn [snd] in *.
  apply Forall_app. now split.
Qed.

Lemma run_ticks name mac l :
  Forall (tickFrame (presetOf name) mac) (snd (run l (initial name mac))).
Proof.
  apply run_steady. unfold steady, initial. ssimpl.
  repeat (lazymatch goal with |- _ /\ _ => split end); auto.
Qed.

(** X13. The jog shuttle only ever sends vertical ticks of one size.
    Whatever the touches on the widget and the expiries of its timers,
    every frame it sends is a wheel event with no horizontal part whose
    vertical part is the units of the preset (three times as much in macOS
    mode), up or down: never a zero scroll, never a larger step. *)
Theorem X13_shuttle_sends_single_ticks :
  forall (name : string) (mac : bool) (l : list (env * event)),
    Forall (tickFrame (presetOf name) mac) (snd (run l (initial name mac))).
Proof. intros name mac l. apply run_ticks. Qed.

(** The events after which the widget is at rest keep it at rest. *)
Lemma step_released e a s :
  released s -> passive a -> released (fst (step e a s)) /\ snd (step e a s) = [].
Proof.
  intros (Ha & Hd & Ht & Hx) Hp. destruct a; cbn [passive] in Hp; try contradiction;
    cbn [step].
  - unfold _handleTouchMove. rewrite Ha. cbn [negb orb fst snd].
    unfold released. auto.
  - unfold _handleTouchEnd, released, _stopRepeat. ssimpl. auto.
  - unfold onRepeatTimer. rewrite Ht. cbn [fst snd]. unfold released. auto.
Qed.

(** X14. Releasing the shuttle stops the scrolling.  After the touch end
    (or touch cancel) the widget is inactive with no direction and no
    repeat timer, whatever its state was; from then on the expiries of the
    repeat timer, the moves of a finger that was never put down on the
    widget again and further touch ends send nothing and leave it at rest.
    Only a new touch start scrolls again (and the burst events of a tick
    already fired in macOS mode are still delivered). *)
Theorem X14_release_stops_scrolling :
  forall (e : env) (s : state) (l : list (env * event)),
    Forall (fun ea => passive (snd ea)) l ->
    let s1 := fst (step e TouchEnd s) in
    snd (step e TouchEnd s) = [] /\ released s1
    /\ snd (run l s1) = [] /\ released (fst (run l s1)).
Proof.
  intros e s l Hl s1.
  assert (R1 : released s1).
  { subst s1. cbn [step]. unfold _handleTouchEnd, released, _stopRepeat. ssimpl. auto. }
  split; [reflexivity |]. split; [exact R1 |].
  clearbody s1. revert s1 R1.
  induction l as [| [e1 a1] l IH]; intros s1 R1; cbn [run]; [auto |].
  inversion Hl as [| x l' Hp Hl']; subst. cbn [snd] in Hp.
  destruct (step_released e1 a1 s1 R1 Hp) as [K1 K2].
  destruct (step e1 a1 s1) as [s2 o2]. cbn [fst snd] in *. subst o2.
  destruct (IH Hl' s2 K1) as [I1 I2].
  destruct (run l s2) as [s3 o3]. cbn [fst snd] in *. subst o3. auto.
Qed.

(** X14 for the shuttle held 30 px below its centre, released, and the
    repeat timer expiring afterwards. *)
Lemma X14_witness :
  snd (run [(Examples.strip 1294, RepeatTimer)]
         (fst (step (Examples.strip 1200) TouchEnd
                 (fst (run (Examples.shuttleTo 96) Examples.held)))))
  = [].
Proof.
  assert (F : Forall (fun ea => passive (snd ea)) [(Examples.strip 1294, RepeatTimer)]).
  { repeat constructor. }
  exact (proj1 (proj2 (proj2
           (X14_release_stops_scrolling (Examples.strip 1200)
              (fst (run (Examples.shuttleTo 96) Examples.held)) _ F)))).
Defined.


(** The clamp of [_updateFromTouch] keeps the thumb on the track, also for
    a widget so short that its track has a negative half length. *)
Lemma clamp_on_track t r : Qabs (Math_max (- t) (Math_min t r)) <= Qabs t.
Proof.
  unfold Math_max, Math_min.
  destruct (Qlt_le_dec t 0) as [Hn | Hp].
  - assert (E : Qmax (- t) (Qmin t r) == - t).
    { apply Q.max_l. apply Qle_trans with t; [apply Q.le_min_l | lra]. }
    rewrite E, Qabs_opp. apply Qle_refl.
  - rewrite (Qabs_pos t Hp). now apply max_min_abs.
Qed.

(** What an update leaves of the state it was given. *)
Lemma update_fields e y s :
  let s' := fst (_updateFromTouch e y s) in
  _trackHalf s' = _trackHalf s /\ _preset s' = _preset s
  /\ _displacement s' = clampedDisplacement y s
  /\ (_direction s' = 0%Z
      \/ (ltb (Math_abs (clampedDisplacement y s)) (deadZone (_getPreset s)) = false
          /\ _direction s' = if gtb (clampedDisplacement y s) 0 then 1%Z else (-1)%Z)).
Proof.
  cbv zeta. split; [| split; [| split; [apply update_displacement |]]];
    rewrite update_cases; cbv zeta; fold (clampedDisplacement y s);
    set (c := clampedDisplacement y s);
    (destruct (ltb (Math_abs c) (deadZone (_getPreset s))) eqn:El;
     [cbn [fst]; ssimpl; auto |]);
    destruct (reversal_facts c s) as (R1 & _); cbv zeta in R1;
    set (s1 := if negb _ then _ else _) in *;
    (assert (H1 : _trackHalf s1 = _trackHalf s /\ _preset s1 = _preset s)
      by (subst s1; destruct (negb _); split; reflexivity));
    destruct H1 as [T1 P1];
    (destruct (geb _ _ && _); cbn [fst];
     [destruct (fireTick_fields e s1) as (F1 & F2 & F3 & F4 & F5 & F6 & F7);
      cbv zeta in *; unfold _scheduleNextTick; ssimpl | ]);
    try congruence; right; (split; [reflexivity | congruence]).
Qed.

Lemma repeat_fields e s :
  let s' := fst (onRepeatTimer e s) in
  _trackHalf s' = _trackHalf s /\ _preset s' = _preset s
  /\ _displacement s' = _displacement s /\ _direction s' = _direction s.
Proof.
  cbv zeta. unfold onRepeatTimer.
  destruct (_repeatTimer s) as [d |]; [| auto].
  destruct (leb d (inject_Z (now e))); [| auto]. ssimpl.
  destruct (negb (_active s) || (_direction s =? 0)%Z); [cbn; auto |].
  destruct (fireTick_fields e (set_repeatTimer None s)) as (F1 & F2 & F3 & F4 & _).
  cbv zeta in *.
  destruct (_fireTick e (set_repeatTimer None s)) as [s2 o2]. cbn [fst] in *.
  unfold _scheduleNextTick. ssimpl. auto.
Qed.

Lemma burst_fields e s :
  let s' := fst (onBurstTimer e s) in
  _trackHalf s' = _trackHalf s /\ _preset s' = _preset s
  /\ _displacement s' = _displacement s /\ _direction s' = _direction s.
Proof.
  cbv zeta. unfold onBurstTimer.
  destruct (takeBurst (inject_Z (now e)) (bursts s)) as [[v rest] |]; cbn; auto.
Qed.

Lemma update_on_track e y s : onTrack (fst (_updateFromTouch e y s)).
Proof.
  destruct (update_fields e y s) as (T & _ & D & _). cbv zeta in *.
  unfold onTrack. rewrite T, D. apply clamp_on_track.
Qed.

Lemma update_directed e y s : directed (fst (_updateFromTouch e y s)).
Proof.
  destruct (update_fields e y s) as (_ & P & D & [Z | [L Dir]]). - now left.
  - cbv zeta in *. unfold directed.
    rewrite (getPreset_ext _ _ P), D, Dir.
    apply ltb_false in L.
    destruct (gtb (clampedDisplacement y s) 0) eqn:G; right; [left | right];
      (split; [reflexivity |]).
    + apply gtb_true in G. unfold Math_abs in L. rewrite Qabs_pos in L; lra.
    + apply gtb_false in G. unfold Math_abs in L. rewrite Qabs_neg in L; lra.
Qed.

Lemma step_shape e a s :
  onTrack s -> directed s ->
  onTrack (fst (step e a s)) /\ directed (fst (step e a s)).
Proof.
  intros Ht Hd.
  assert (Same : forall s', _trackHalf s' = _trackHalf s /\ _preset s' = _preset s
                            /\ _displacement s' = _displacement s
                            /\ _direction s' = _direction s ->
                            onTrack s' /\ directed s').
  { intros s' (A & B & C & D). unfold onTrack, directed.
    rewrite (getPreset_ext _ _ B), A, C, D. auto. }
  destruct a; cbn [step].
  - unfold _handleTouchStart.
    destruct (negb (touchCount ev =? 1)%nat); [auto |].
    split; [apply update_on_track | apply update_directed].
  - unfold _handleTouchMove.
    destruct (negb (_active s) || (touchCount ev <? 1)%nat); [auto |].
    split; [apply update_on_track | apply update_directed].
  - unfold _handleTouchEnd, onTrack, directed, _stopRepeat. ssimpl. split; [| now left].
    apply Qabs_nonneg.
  - apply Same. apply repeat_fields.
  - apply Same. apply burst_fields.
Qed.

Lemma run_shape l :
  forall s, onTrack s -> directed s ->
            onTrack (fst (run l s)) /\ directed (fst (run l s)).
Proof.
  induction l as [| [e a] l IH]; intros s Ht Hd; cbn [run]; [auto |].
  destruct (step_shape e a s Ht Hd) as [K1 K2].
  destruct (step e a s) as [s1 o1]. cbn [fst] in *.
  specialize (IH s1 K1 K2). destruct (run l s1) as [s2 o2]. exact IH.
Qed.

Lemma initial_shape name mac : onTrack (initial name mac) /\ directed (initial name mac).
Proof.
  unfold onTrack, directed, initial. ssimpl. split; [apply Qle_refl | now left].
Qed.

(** X15. The shuttle never scrolls against its thumb.  After every script
    of touches and timer expiries, the direction of the widget is 0, or 1
    with the thumb at least a dead zone below the centre, or -1 with the
    thumb at least a dead zone above it; since every tick is the direction
    times the units of the preset, the wheel events always go the way the
    thumb is held, and none is due to a thumb inside the dead zone. *)
Theorem X15_direction_follows_the_thumb :
  forall (name : string) (mac : bool) (l : list (env * event)),
    directed (fst (run l (initial name mac))).
Proof.
  intros name mac l.
  destruct (initial_shape name mac) as [A B].
  exact (proj2 (run_shape l _ A B)).
Qed.

(** X16. The thumb stays on the track.  After every script of touches and
    timer expiries the displacement kept by the widget is at most the half
    length of its track in absolute value, whatever the height of the
    widget (a track of negative half length included). *)
Theorem X16_thumb_stays_on_track :
  forall (name : string) (mac : bool) (l : list (env * event)),
    onTrack (fst (run l (initial name mac))).
Proof.
  intros name mac l.
  destruct (initial_shape name mac) as [A B].
  exact (proj1 (run_shape l _ A B)).
Qed.


Lemma square_nonneg (a : Q) : 0 <= a * a.
Proof. nra. Qed.

Lemma interval_ceiling p th d el :
  minInterval p <= MAX_INTERVAL -> interval p th d el <= MAX_INTERVAL.
Proof.
  intros Hp. unfold interval. cbv zeta. unfold Math_max, Math_min.
  apply Q.max_lub; [exact Hp |].
  eapply Qle_trans; [apply Q.le_min_r |].
  set (r := Qmin 1 (el / RAMP_DURATION)).
  pose proof (square_nonneg r) as Hr.
  assert (0 <= r * r * (MAX_INTERVAL - minInterval p)).
  { apply Qmult_le_0_compat; lra. }
  lra.
Qed.

Lemma interval_saturates p th d el :
  RAMP_DURATION <= el -> interval p th d el == minInterval p.
Proof.
  intros Hel. unfold interval. cbv zeta. unfold Math_max, Math_min.
  assert (E : Qmin 1 (el / RAMP_DURATION) == 1).
  { apply Q.min_l. apply Qle_shift_div_l; unfold RAMP_DURATION in *; lra. }
  set (A := MAX_INTERVAL - _ * _ * _).
  assert (B : MAX_INTERVAL
              - Qmin 1 (el / RAMP_DURATION) * Qmin 1 (el / RAMP_DURATION)
                * (MAX_INTERVAL - minInterval p) == minInterval p).
  { rewrite E. ring. }
  apply Q.max_l. rewrite B. apply Q.le_min_r.
Qed.

(** X17. The repeat interval of the shuttle.  Whatever the state of the
    widget, the interval computed for the next tick lies between the
    minimum interval of the preset and 300 ms; and once the repeat has run
    for one second the interval is the minimum of the preset, however
    close to the first tick threshold the thumb is held. *)
Theorem X17_repeat_interval_range :
  forall (e : env) (s : state),
    minInterval (_getPreset s) <= _computeInterval e s
    /\ _computeInterval e s <= MAX_INTERVAL
    /\ ((_repeatStartTime s + 1000 <= now e)%Z ->
        _computeInterval e s == minInterval (_getPreset s)).
Proof.
  intros e s. rewrite computeInterval_eq.
  destruct (preset_order s) as (_ & _ & _ & Hle).
  split; [apply interval_floor |]. split; [now apply interval_ceiling |].
  intros H. apply interval_saturates. unfold RAMP_DURATION.
  change 1000 with (inject_Z 1000). rewrite <- Zle_Qle. lia.
Qed.

(** X17 for the shuttle held 30 px below its centre for 1200 ms. *)
Lemma X17_witness :
  _computeInterval (Examples.strip 2200) (fst (run (Examples.shuttleTo 96) Examples.held))
  == minInterval (_getPreset (fst (run (Examples.shuttleTo 96) Examples.held))).
Proof.
  apply (proj2 (proj2 (X17_repeat_interval_range (Examples.strip 2200)
                         (fst (run (Examples.shuttleTo 96) Examples.held))))).
  vm_compute. intros K. discriminate K.
Defined.

End ShuttleInvariantFacts.

(** ** The bytes on the wire *)

Module EncoderFacts.
Import Js JsFacts Dom Wire Frames Encoder.

Lemma trunc_int z : trunc (inject_Z z) = z.
Proof.
  unfold trunc. destruct (Qle_bool 0 (inject_Z z)); [apply Qfloor_Z | apply Qceiling_Z].
Qed.

Lemma trunc_comp a b : a == b -> trunc a = trunc b.
Proof.
  intros H. unfold trunc.
  assert (E : Qle_bool 0 a = Qle_bool 0 b).
  { destruct (Qle_bool 0 a) eqn:Ea, (Qle_bool 0 b) eqn:Eb; try reflexivity.
    - apply Qle_bool_iff in Ea. rewrite H in Ea. apply Qle_bool_iff in Ea. congruence.
    - apply Qle_bool_iff in Eb. rewrite <- H in Eb. apply Qle_bool_iff in Eb. congruence. }
  rewrite E. destruct (Qle_bool 0 b); [now apply Qfloor_comp | now apply Qceiling_comp].
Qed.

Lemma ToInt32_small z : (- 2 ^ 31 <= z < 2 ^ 31)%Z -> ToInt32 (inject_Z z) = z.
Proof.
  intros H. unfold ToInt32. rewrite trunc_int.
  rewrite Z.mod_small; lia.
Qed.

Lemma land_255 a : Z.land a 255 = (a mod 256)%Z.
Proof. change 255%Z with (Z.ones 8). now rewrite Z.land_ones by lia. Qed.

Lemma shiftr_8 a : Z.shiftr a 8 = (a / 256)%Z.
Proof. now rewrite Z.shiftr_div_pow2 by lia. Qed.

(** The two bytes of a 16-bit coordinate, read back. *)
Lemma int16_bytes z :
  (-32768 <= z <= 32767)%Z ->
  isByte (highByte (inject_Z z)) /\ isByte (lowByte (inject_Z z))
  /\ readInt16 (highByte (inject_Z z)) (lowByte (inject_Z z)) = z.
Proof.
  intros H. unfold highByte, lowByte, isByte, readInt16, signed.
  rewrite ToInt32_small by lia. rewrite !land_255, shiftr_8.
  change (2 ^ (16 - 1))%Z with 32768%Z. change (2 ^ 16)%Z with 65536%Z.
  destruct (Z.ltb_spec ((z / 256) mod 256 * 256 + z mod 256) 32768);
    Z.div_mod_to_equations; lia.
Qed.

(** The byte of an 8-bit delta, read back. *)
Lemma int8_byte z :
  (-128 <= z <= 127)%Z ->
  isByte (int8Byte (inject_Z z)) /\ readInt8 (int8Byte (inject_Z z)) = z.
Proof.
  intros H. unfold int8Byte, isByte, readInt8, signed. rewrite trunc_int.
  change (2 ^ (8 - 1))%Z with 128%Z. change (2 ^ 8)%Z with 256%Z.
  destruct (Z.ltb_spec (z mod 256) 128); Z.div_mod_to_equations; lia.
Qed.

Lemma absolute_received x y zx zy :
  x == inject_Z zx -> y == inject_Z zy ->
  (-32768 <= zx <= 32767)%Z -> (-32768 <= zy <= 32767)%Z ->
  exists f, sendMouseMoveAbs true x y = Some f /\ received f (MouseMoveAbs x y).
Proof.
  intros Ex Ey Hx Hy. eexists. split; [reflexivity |]. cbn [received].
  unfold highByte, lowByte, ToInt32.
  rewrite (trunc_comp _ _ Ex), (trunc_comp _ _ Ey).
  fold (ToInt32 (inject_Z zx)). fold (ToInt32 (inject_Z zy)).
  fold (highByte (inject_Z zx)). fold (lowByte (inject_Z zx)).
  fold (highByte (inject_Z zy)). fold (lowByte (inject_Z zy)).
  destruct (int16_bytes zx Hx) as (A1 & A2 & A3).
  destruct (int16_bytes zy Hy) as (B1 & B2 & B3).
  do 4 eexists. split; [reflexivity |].
  rewrite A3, B3.
  split; [exact A1 |]. split; [exact A2 |]. split; [exact B1 |]. split; [exact B2 |].
  split; symmetry; assumption.
Qed.

Lemma int8_pair_received dx dy zx zy :
  dx == inject_Z zx -> dy == inject_Z zy ->
  (-128 <= zx <= 127)%Z -> (-128 <= zy <= 127)%Z ->
  isByte (int8Byte dx) /\ isByte (int8Byte dy)
  /\ inject_Z (readInt8 (int8Byte dx)) == dx /\ inject_Z (readInt8 (int8Byte dy)) == dy.
Proof.
  intros Ex Ey Hx Hy. unfold int8Byte.
  rewrite (trunc_comp _ _ Ex), (trunc_comp _ _ Ey).
  fold (int8Byte (inject_Z zx)). fold (int8Byte (inject_Z zy)).
  destruct (int8_byte zx Hx) as (A1 & A2). destruct (int8_byte zy Hy) as (B1 & B2).
  rewrite A2, B2.
  split; [exact A1 |]. split; [exact B1 |]. split; symmetry; assumption.
Qed.

(** X18. The senders of the websocket are read back exactly.  For whole
    numbers within the range of the field, the five bytes of an absolute
    move read as two big-endian signed 16-bit integers give back x and y,
    and the four bytes of a relative move or of a wheel event read as
    signed 8-bit integers give back dx and dy; every byte is between 0 and
    255.  When the socket is not connected no sender produces a frame. *)
Theorem X18_senders_are_read_back :
  (forall x y : Z,
      (-32768 <= x <= 32767)%Z -> (-32768 <= y <= 32767)%Z ->
      exists f, sendMouseMoveAbs true (inject_Z x) (inject_Z y) = Some f
                /\ received f (MouseMoveAbs (inject_Z x) (inject_Z y)))
  /\ (forall dx dy : Z,
      (-128 <= dx <= 127)%Z -> (-128 <= dy <= 127)%Z ->
      (exists f, sendMouseRelative true (inject_Z dx) (inject_Z dy) = Some f
                 /\ received f (MouseRelative (inject_Z dx) (inject_Z dy)))
      /\ (exists f, sendMouseWheel true (inject_Z dx) (inject_Z dy) = Some f
                    /\ received f (MouseWheel (inject_Z dx) (inject_Z dy))))
  /\ (forall (h : hid) (key : string) (state : bool),
      send false h = None /\ sendKey false key state = None).
Proof.
  split; [| split].
  - intros x y Hx Hy. apply (absolute_received _ _ x y); auto; reflexivity.
  - intros dx dy Hx Hy.
    destruct (int8_pair_received (inject_Z dx) (inject_Z dy) dx dy
                (Qeq_refl _) (Qeq_refl _) Hx Hy) as (A & B & C & D).
    split; (eexists; split; [reflexivity |]); cbn [received];
      do 2 eexists; (split; [reflexivity |]); auto.
  - intros h key state. destruct h; split; reflexivity.
Qed.

(** X18 for the absolute move (-24556, 100) and the relative move (-3, 127). *)
Lemma X18_witness :
  sendMouseMoveAbs true (-24556) 100 = Some [3; 160; 20; 0; 100]%Z
  /\ readInt16 160 20 = (-24556)%Z
  /\ exists f, sendMouseRelative true (inject_Z (-3)) (inject_Z 127) = Some f
               /\ received f (MouseRelative (inject_Z (-3)) (inject_Z 127)).
Proof.
  split; [vm_compute; reflexivity |]. split; [vm_compute; reflexivity |].
  apply (proj1 (proj2 X18_senders_are_read_back) (-3)%Z 127%Z); lia.
Defined.

Lemma run_abs_ok Msqrt l s : Forall abs_ok (snd (App.run Msqrt l s)).
Proof.
  revert s. induction l as [| [e a] l IH]; intros s; cbn [App.run].
  - constructor.
  - pose proof (RangeFacts.dispatch_ok Msqrt e a s) as K.
    destruct (App.dispatch Msqrt e a s) as [s1 o1].
    specialize (IH s1). destruct (App.run Msqrt l s1) as [s2 o2].
    cbn [snd] in *. apply Forall_app. now split.
Qed.

Lemma int_in_range v z lo hi :
  v == inject_Z z -> inject_Z lo <= v -> v <= inject_Z hi -> (lo <= z <= hi)%Z.
Proof.
  intros E L U. rewrite E in L, U. rewrite <- Zle_Qle in L, U. lia.
Qed.

(** X19. The moves of the pointer recogniser survive the wire.  Whatever
    the touch events, timers and panel buttons, every absolute move,
    relative move and button frame that the recogniser hands to a connected
    websocket is encoded into bytes that read back as the very numbers it
    was called with: no absolute coordinate and no relative delta is ever
    truncated or wrapped by the encoder. *)
Theorem X19_moves_survive_the_wire :
  forall (Msqrt : Q -> Q) (l : list (env * App.event)) (s : App.state) (h : hid),
    In h (snd (App.run Msqrt l s)) -> is_wheel h = false ->
    exists f, send true h = Some f /\ received f h.
Proof.
  intros Msqrt l s h Hin Hw.
  pose proof (RelativeRangeFacts.run_sound Msqrt l s) as S.
  pose proof (run_abs_ok Msqrt l s) as A.
  rewrite Forall_forall in S, A. specialize (S h Hin). specialize (A h Hin).
  destruct h as [b st | x y | dx dy | dx dy]; cbn [send]; try discriminate Hw.
  - eexists. split; reflexivity.
  - destruct S as [[zx Ex] [zy Ey]]. destruct A as [[Lx Ux] [Ly Uy]].
    apply (absolute_received x y zx zy Ex Ey).
    + apply (int_in_range x); assumption.
    + apply (int_in_range y); assumption.
  - destruct S as ([zx Ex] & [zy Ey] & [Lx Ux] & [Ly Uy] & _).
    assert (Hx : (-127 <= zx <= 127)%Z) by (apply (int_in_range dx); assumption).
    assert (Hy : (-127 <= zy <= 127)%Z) by (apply (int_in_range dy); assumption).
    destruct (int8_pair_received dx dy zx zy Ex Ey) as (B1 & B2 & B3 & B4); try lia.
    eexists. split; [reflexivity |]. cbn [received].
    do 2 eexists. split; [reflexivity |]. auto.
Qed.

(** X19 for the relative move of a finger that goes 30 px right and 300 px
    down. *)
Lemma X19_witness :
  exists f, send true (MouseRelative 30 127) = Some f
            /\ received f (MouseRelative 30 127).
Proof.
  apply (X19_moves_survive_the_wire sqrt_floor
           [(Examples.tablet4k 1000, App.TouchStart (Examples.one 100 100));
            (Examples.tablet4k 1050, App.TouchMove (Examples.one 130 400))]
           Examples.relativeApp).
  - vm_compute. left. reflexivity.
  - reflexivity.
Defined.


Lemma amount_small name mac :
  exists z, ShuttleSpec.amount (ShuttleSpec.presetOf name) mac == inject_Z z
            /\ (0 <= z <= 12)%Z.
Proof.
  unfold ShuttleSpec.presetOf.
  destruct (ScrollFacts.getPreset_cases (Scroll.initial name false)) as [E | [E | E]];
    rewrite E; destruct mac;
    [exists 3%Z | exists 1%Z | exists 6%Z | exists 2%Z | exists 12%Z | exists 4%Z];
    (split; [vm_compute; reflexivity | lia]).
Qed.

(** X20. The ticks of the jog shuttle survive the wire.  Whatever the
    preset (an unknown name falls back to the normal one), in macOS mode or
    not, and whatever the touches and timer expiries, every frame that the
    widget hands to a connected websocket is encoded into four bytes that
    read back as the wheel event it was called with. *)
Theorem X20_shuttle_ticks_survive_the_wire :
  forall (name : string) (mac : bool) (l : list (Scroll.env * Scroll.event)) (h : hid),
    In h (snd (Scroll.run l (Scroll.initial name mac))) ->
    exists f, send true h = Some f /\ received f h.
Proof.
  intros name mac l h Hin.
  pose proof (ShuttleInvariantFacts.run_ticks name mac l) as T.
  rewrite Forall_forall in T. specialize (T h Hin).
  destruct h as [b st | x y | dx dy | dx dy]; cbn [ShuttleSpec.tickFrame] in T;
    try contradiction.
  destruct T as [Ex Ey].
  destruct (amount_small name mac) as (z & Ez & Hz).
  assert (Ey' : exists zy, dy == inject_Z zy /\ (-128 <= zy <= 127)%Z).
  { destruct Ey as [Ey | Ey]; rewrite Ez in Ey.
    - exists z. split; [exact Ey | lia].
    - exists (- z)%Z. split; [| lia]. rewrite Ey, inject_Z_opp. reflexivity. }
  destruct Ey' as (zy & Ezy & Hzy).
  destruct (int8_pair_received dx dy 0 zy Ex Ezy) as (B1 & B2 & B3 & B4); try lia.
  cbn [send]. eexists. split; [reflexivity |]. cbn [received].
  do 2 eexists. split; [reflexivity |]. auto.
Qed.

(** X20 for the first tick of the shuttle touched 30 px below its centre. *)
Lemma X20_witness :
  exists f, send true (MouseWheel 0 2) = Some f /\ received f (MouseWheel 0 2).
Proof.
  apply (X20_shuttle_ticks_survive_the_wire "normal" false
           [(Examples.strip 1000, Scroll.TouchStart (Examples.at_ 96))]).
  vm_compute. left. reflexivity.
Defined.

End EncoderFacts.

(** ** The rectangle of the displayed stream *)

Module GeometryFacts.
Import Js JsFacts Dom.

Lemma Math_round_le a b : a <= b -> Math_round a <= Math_round b.
Proof.
  intros H. unfold Math_round. rewrite <- Zle_Qle. apply Qfloor_resp_le. lra.
Qed.

Lemma Math_round_Z z : Math_round (inject_Z z) == inject_Z z.
Proof.
  unfold Math_round.
  assert (E : Qfloor (inject_Z z + (1 # 2)) = z).
  { pose proof (Qfloor_le (inject_Z z + (1 # 2))) as L.
    pose proof (Qlt_floor (inject_Z z + (1 # 2))) as U.
    set (f := Qfloor (inject_Z z + (1 # 2))) in *.
    rewrite inject_Z_plus in U. change (inject_Z 1) with 1 in U.
    assert (L' : inject_Z f < inject_Z (z + 1)).
    { rewrite inject_Z_plus. change (inject_Z 1) with 1.
      set (a := inject_Z f) in *. set (b := inject_Z z) in *. lra. }
    assert (U' : inject_Z (z + -1) < inject_Z f).
    { rewrite inject_Z_plus. change (inject_Z (-1)) with (-1).
      set (a := inject_Z f) in *. set (b := inject_Z z) in *. lra. }
    rewrite <- Zlt_Qlt in L', U'. lia. }
  now rewrite E.
Qed.

Lemma num_of_N_pos n : n <> 0%N -> 0 < num_of_N n.
Proof.
  intros H. unfold num_of_N. change 0 with (inject_Z 0). rewrite <- Zlt_Qlt. lia.
Qed.

Lemma truthy_num n : truthy (num_of_N n) = negb (n =? 0)%N.
Proof.
  destruct (N.eqb_spec n 0) as [-> | H]; [reflexivity |].
  apply truthy_true. pose proof (num_of_N_pos n H). lra.
Qed.

(** One axis of the geometry: the extent [r] of the scaled stream against
    the extent [v] of the view, a whole number. *)
Lemma axis_facts (vz : Z) (r : Q) :
  let v := inject_Z vz in
  0 <= r -> r <= v ->
  0 <= Math_round ((v - r) / 2) /\ Math_round r <= v
  /\ Qabs (2 * Math_round ((v - r) / 2) + Math_round r - v) <= 3 # 2
  /\ (r == v -> Math_round ((v - r) / 2) == 0 /\ Math_round r == v).
Proof.
  intros v H0 H1.
  assert (Hh : 0 <= (v - r) / 2) by (apply Qle_shift_div_l; lra).
  split; [| split; [| split]].
  - apply Qle_trans with (Math_round 0); [vm_compute; discriminate |].
    now apply Math_round_le.
  - apply Qle_trans with (Math_round v); [now apply Math_round_le |].
    subst v. rewrite Math_round_Z. apply Qle_refl.
  - destruct (Math_round_near ((v - r) / 2)) as [A B].
    destruct (Math_round_near r) as [C D].
    assert (E : (v - r) / 2 == (v - r) * (1 # 2)) by field.
    set (m := Math_round ((v - r) / 2)) in *. set (n := Math_round r) in *.
    rewrite E in A, B. apply Qabs_Qle_condition. split; lra.
  - intros E. split.
    + assert (Z0 : (v - r) / 2 == inject_Z 0) by (rewrite E; field).
      rewrite (Math_round_compat _ _ Z0). apply Math_round_Z.
    + rewrite (Math_round_compat _ _ E). subst v. apply Math_round_Z.
Qed.

(** X21. The geometry of the stream is the letterboxed rectangle.  The
    callback installed by the application returns nothing exactly when the
    real width or the real height of the stream is 0.  Otherwise the
    rectangle it returns has non-negative offsets, is no wider and no higher
    than the view, fills the view on one axis at least (offset 0 and the
    full extent), and is centred on each axis up to the rounding: twice the
    offset plus the extent differs from the extent of the view by 3/2 at
    most. *)
Theorem X21_stream_geometry_is_letterboxed :
  forall res : resolution,
    (getStreamGeometry res = None
     <-> realWidth res = 0%N \/ realHeight res = 0%N)
    /\ forall geo : geometry,
        getStreamGeometry res = Some geo ->
        let vw := num_of_N (viewWidth res) in
        let vh := num_of_N (viewHeight res) in
        0 <= geo_x geo /\ 0 <= geo_y geo
        /\ geo_width geo <= vw /\ geo_height geo <= vh
        /\ ((geo_x geo == 0 /\ geo_width geo == vw)
            \/ (geo_y geo == 0 /\ geo_height geo == vh))
        /\ Qabs (2 * geo_x geo + geo_width geo - vw) <= 3 # 2
        /\ Qabs (2 * geo_y geo + geo_height geo - vh) <= 3 # 2.
Proof.
  intros res. unfold getStreamGeometry. cbv zeta. rewrite !truthy_num, !negb_involutive.
  destruct (N.eqb_spec (realWidth res) 0) as [Ew | Ew];
    [split; [split; auto | discriminate] |].
  destruct (N.eqb_spec (realHeight res) 0) as [Eh | Eh];
    [split; [split; auto | discriminate] |].
  cbn [orb]. split; [split; [discriminate | tauto] |].
  intros geo H. inversion H; subst; clear H. cbn [geo_x geo_y geo_width geo_height].
  pose proof (num_of_N_pos _ Ew) as Pw. pose proof (num_of_N_pos _ Eh) as Ph.
  pose proof (num_of_N_nonneg (viewWidth res)) as Vw.
  pose proof (num_of_N_nonneg (viewHeight res)) as Vh.
  set (vw := num_of_N (viewWidth res)) in *. set (vh := num_of_N (viewHeight res)) in *.
  set (rw := num_of_N (realWidth res)) in *. set (rh := num_of_N (realHeight res)) in *.
  unfold Math_min.
  set (k := Qmin (vw / rw) (vh / rh)).
  assert (Kw : k <= vw / rw) by apply Q.le_min_l.
  assert (Kh : k <= vh / rh) by apply Q.le_min_r.
  assert (K0 : 0 <= k).
  { apply Q.min_glb; apply Qle_shift_div_l; lra. }
  assert (Rw : k * rw <= vw).
  { apply Qle_trans with (vw / rw * rw); [apply Qmult_le_compat_r; lra |].
    assert (E : vw / rw * rw == vw) by (field; lra). rewrite E. apply Qle_refl. }
  assert (Rh : k * rh <= vh).
  { apply Qle_trans with (vh / rh * rh); [apply Qmult_le_compat_r; lra |].
    assert (E : vh / rh * rh == vh) by (field; lra). rewrite E. apply Qle_refl. }
  assert (Nw : 0 <= k * rw) by (apply Qmult_le_0_compat; lra).
  assert (Nh : 0 <= k * rh) by (apply Qmult_le_0_compat; lra).
  destruct (axis_facts (Z.of_N (viewWidth res)) (k * rw) Nw Rw) as (A1 & A2 & A3 & A4).
  destruct (axis_facts (Z.of_N (viewHeight res)) (k * rh) Nh Rh) as (B1 & B2 & B3 & B4).
  fold (num_of_N (viewWidth res)) in A1, A2, A3, A4. fold vw in A1, A2, A3, A4.
  fold (num_of_N (viewHeight res)) in B1, B2, B3, B4. fold vh in B1, B2, B3, B4.
  repeat (lazymatch goal with |- _ /\ _ => split end); try assumption.
  destruct (Q.min_spec (vw / rw) (vh / rh)) as [[_ E] | [_ E]]; fold k in E.
  - left. apply A4. rewrite E. field. lra.
  - right. apply B4. rewrite E. field. lra.
Qed.

(** X21 for a 1920x1080 stream in a 500x225 view: 50 px of letterbox on
    either side. *)
Lemma X21_witness :
  getStreamGeometry {| realWidth := 1920; realHeight := 1080;
                       viewWidth := 500; viewHeight := 225 |}
  = Some {| geo_x := 50; geo_y := 0; geo_width := 400; geo_height := 225 |}
  /\ 400 <= num_of_N 500.
Proof.
  assert (E : getStreamGeometry {| realWidth := 1920; realHeight := 1080;
                                   viewWidth := 500; viewHeight := 225 |}
              = Some {| geo_x := 50; geo_y := 0; geo_width := 400; geo_height := 225 |})
    by (vm_compute; reflexivity).
  split; [exact E |].
  exact (proj1 (proj2 (proj2 (proj2 (X21_stream_geometry_is_letterboxed _) _ E)))).
Defined.

End GeometryFacts.

(** ** Two-finger scroll *)

Module PairScrollFacts.
Import Js JsFacts Dom Wire Mouse ScrollSpec TapFacts.

(** A two-finger move whose midpoint is within the dead zone. *)
Lemma pair_move_near Msqrt zc e t s a :
  _enabled s = true -> _isZoomGesture zc = false ->
  _scrollAnchor s = Some a -> nearAnchor a t ->
  step Msqrt zc e (pairMove t) s = (set_absPos None s, []).
Proof.
  intros He Hz Ha [Hx Hy]. cbn [step pairMove]. unfold _handleTouchMove.
  rewrite He, Hz. cbn [negb touches]. rewrite Ha.
  apply gtb_false in Hx. apply gtb_false in Hy.
  unfold Math_abs. rewrite Hx, Hy. reflexivity.
Qed.

(** A two-finger move whose midpoint has left the dead zone. *)
Lemma pair_move_far Msqrt zc e t s a :
  _enabled s = true -> _isZoomGesture zc = false ->
  _scrollAnchor s = Some a -> ~ nearAnchor a t ->
  let mid := _getMidpoint (fst t) (snd t) in
  step Msqrt zc e (pairMove t) s
  = (set_absPos None
       (set_scrollAnchor (Some mid)
          (set_twoFingerTapDetected false (set_twoFingerMoved true s))),
     [MouseWheel (wheelOf (_scrollSensitivity s) (pos_x mid - pos_x a))
                 (wheelOf (_scrollSensitivity s) (pos_y mid - pos_y a))]).
Proof.
  intros He Hz Ha Hn. cbv zeta. cbn [step pairMove]. unfold _handleTouchMove.
  rewrite He, Hz. cbn [negb touches]. rewrite Ha.
  set (mid := _getMidpoint (fst t) (snd t)) in *.
  assert (Hc : gtb (Math_abs (pos_y mid - pos_y a)) 5
               || gtb (Math_abs (pos_x mid - pos_x a)) 5 = true).
  { destruct (gtb (Math_abs (pos_y mid - pos_y a)) 5) eqn:Ey; [reflexivity |].
    destruct (gtb (Math_abs (pos_x mid - pos_x a)) 5) eqn:Ex; [reflexivity |].
    exfalso. apply Hn. apply gtb_false in Ex. apply gtb_false in Ey. split; assumption. }
  rewrite Hc. reflexivity.
Qed.

(** X22. Two-finger scrolling has a dead zone of 5 px that does not lose
    movement.  While the midpoint of the two fingers stays within 5 px of
    the scroll anchor on both axes, however many move events that takes,
    the recogniser sends nothing, keeps the anchor where it is and still
    counts the contact as a possible two-finger tap.  The first move whose
    midpoint is more than 5 px away on some axis sends exactly one wheel
    frame: on each axis nothing if that axis is within 5 px, else the scroll
    sensitivity with the sign of the displacement from the anchor
    (displacements add up since the anchor stayed); the anchor then moves
    to that midpoint and the contact no longer counts as a tap. *)
Theorem X22_two_finger_scroll_dead_zone :
  forall (Msqrt : Q -> Q) (zc : option Zoom.state) (s : state) (a : pos)
         (l : list (env * (touch * touch))) (e : env) (t : touch * touch),
    _enabled s = true -> _isZoomGesture zc = false -> _scrollAnchor s = Some a ->
    Forall (fun et => nearAnchor a (snd et)) l -> ~ nearAnchor a t ->
    let r1 := run Msqrt zc (pairMoves l) s in
    let r2 := step Msqrt zc e (pairMove t) (fst r1) in
    let mid := _getMidpoint (fst t) (snd t) in
    snd r1 = [] /\ _scrollAnchor (fst r1) = Some a
    /\ _twoFingerTapDetected (fst r1) = _twoFingerTapDetected s
    /\ snd r2 = [MouseWheel (wheelOf (_scrollSensitivity s) (pos_x mid - pos_x a))
                            (wheelOf (_scrollSensitivity s) (pos_y mid - pos_y a))]
    /\ _scrollAnchor (fst r2) = Some mid /\ _twoFingerTapDetected (fst r2) = false.
Proof.
  intros Msqrt zc s a l e t He Hz Ha Hl Hn r1 r2 mid.
  assert (G : forall s0, _enabled s0 = true -> _scrollAnchor s0 = Some a ->
                snd (run Msqrt zc (pairMoves l) s0) = []
                /\ _enabled (fst (run Msqrt zc (pairMoves l) s0)) = true
                /\ _scrollAnchor (fst (run Msqrt zc (pairMoves l) s0)) = Some a
                /\ _twoFingerTapDetected (fst (run Msqrt zc (pairMoves l) s0))
                   = _twoFingerTapDetected s0
                /\ _scrollSensitivity (fst (run Msqrt zc (pairMoves l) s0))
                   = _scrollSensitivity s0).
  { clear r1 r2. induction l as [| [e1 t1] l IH]; intros s0 He0 Ha0.
    - cbn. auto.
    - inversion Hl as [| x l' Hx Hl']; subst. cbn [snd] in Hx.
      cbn [pairMoves map run fst snd]. fold (pairMoves l).
      rewrite (pair_move_near Msqrt zc e1 t1 s0 a He0 Hz Ha0 Hx).
      destruct (IH Hl' (set_absPos None s0) He0 Ha0) as (I1 & I2 & I3 & I4 & I5).
      destruct (run Msqrt zc (pairMoves l) (set_absPos None s0)) as [s2 o2].
      cbn [fst snd] in *. subst o2. auto. }
  destruct (G s He Ha) as (G1 & G2 & G3 & G4 & G5).
  subst r2 r1.
  destruct (run Msqrt zc (pairMoves l) s) as [s1 o1]. cbn [fst snd] in *.
  pose proof (pair_move_far Msqrt zc e t s1 a G2 Hz G3 Hn) as F. cbv zeta in F.
  rewrite F. cbn [fst snd]. msimpl. subst mid. rewrite G5. auto 10.
Qed.

(** X22 for two fingers that drift 4 px down, then 4 px more. *)
Lemma X22_witness :
  snd (step sqrt_floor None (Examples.tablet4k 1080)
         (pairMove (Examples.finger 100 108, Examples.finger 200 108))
         (fst (run sqrt_floor None
                 (pairMoves [(Examples.tablet4k 1060,
                              (Examples.finger 100 104, Examples.finger 200 104))])
                 (App.mouse (fst (App.run sqrt_floor Examples.twoDown
                                    Examples.relativeApp))))))
  = [MouseWheel 0 2].
Proof.
  pose proof (X22_two_finger_scroll_dead_zone sqrt_floor None
                (App.mouse (fst (App.run sqrt_floor Examples.twoDown Examples.relativeApp)))
                {| pos_x := 300 # 2; pos_y := 200 # 2 |}
                [(Examples.tablet4k 1060,
                  (Examples.finger 100 104, Examples.finger 200 104))]
                (Examples.tablet4k 1080)
                (Examples.finger 100 108, Examples.finger 200 108)) as H.
  cbv zeta in H.
  destruct H as (_ & _ & _ & H & _).
  - reflexivity.
  - reflexivity.
  - vm_compute. reflexivity.
  - constructor; [| constructor]. split; vm_compute; intros K; discriminate K.
  - intros [_ K]. vm_compute in K. apply K. reflexivity.
  - rewrite H. vm_compute. reflexivity.
Defined.

End PairScrollFacts.

(** ** The releases queued by the clicks *)

Module PulseFacts.
Import Js JsFacts Dom Wire Mouse.





End PulseFacts.

(** ** The modifiers of the on-screen keyboard *)

Module KeyboardFacts.
Import Keyboard.

Lemma heldCount_app key l1 l2 :
  heldCount key (l1 ++ l2) = (heldCount key l1 + heldCount key l2)%Z.
Proof.
  induction l1 as [| [k st] l1 IH]; cbn [app heldCount]; [reflexivity |].
  rewrite IH. lia.
Qed.

Lemma has_app key l1 l2 : has key (l1 ++ l2) = has key l1 || has key l2.
Proof. unfold has. apply existsb_app. Qed.

Lemma has_delete key k l :
  has key (delete k l) = has key l && negb (String.eqb k key).
Proof.
  unfold has, delete. induction l as [| x l IH]; cbn [filter existsb]; [reflexivity |].
  destruct (String.eqb_spec k x) as [-> | Hkx]; cbn [negb existsb].
  - rewrite IH. destruct (String.eqb_spec key x) as [-> | Hx].
    + rewrite String.eqb_refl. cbn. now rewrite andb_false_r.
    + reflexivity.
  - rewrite IH. destruct (String.eqb_spec key x) as [-> | Hx]; [| reflexivity].
    cbn [orb]. destruct (String.eqb_spec k x); [contradiction | reflexivity].
Qed.

(** The active set never holds a key twice. *)
Lemma NoDup_add key l : NoDup l -> NoDup (add key l).
Proof.
  intros H. unfold add. destruct (has key l) eqn:E; [exact H |].
  apply NoDup_app; [exact H | repeat constructor; auto |].
  intros x Hx [<- | []]. unfold has in E.
  assert (K : existsb (String.eqb key) l = true).
  { apply existsb_exists. exists key. split; [exact Hx | apply String.eqb_refl]. }
  congruence.
Qed.

Lemma NoDup_delete key l : NoDup l -> NoDup (delete key l).
Proof. apply NoDup_filter. Qed.

Lemma heldCount_release key l :
  NoDup l ->
  heldCount key (map (fun k => (k, false)) l) = (if has key l then -1 else 0)%Z.
Proof.
  induction l as [| x l IH]; intros H; [reflexivity |].
  inversion H as [| y l' Hx Hl]; subst. cbn [map heldCount]. rewrite (IH Hl).
  unfold has. cbn [existsb].
  destruct (String.eqb_spec key x) as [-> | Hk]; cbn [orb]; [| reflexivity].
  fold (has x l). destruct (has x l) eqn:E; [| reflexivity].
  exfalso. apply Hx. unfold has in E. apply existsb_exists in E.
  destruct E as (y & Hy & Ey). apply String.eqb_eq in Ey. now subst.
Qed.

Lemma step_modifiers key a s :
  NoDup (_activeModifiers s) ->
  NoDup (_activeModifiers (fst (step a s)))
  /\ heldCount key (snd (step a s))
     = ((if isModifierActive key (fst (step a s)) then 1 else 0)
        - (if isModifierActive key s then 1 else 0))%Z.
Proof.
  intros H.
  assert (R : forall c,
             NoDup (_activeModifiers
                      (fst (releaseAll {| _captureEnabled := c;
                                          _activeModifiers := _activeModifiers s |})))
             /\ heldCount key
                  (snd (releaseAll {| _captureEnabled := c;
                                      _activeModifiers := _activeModifiers s |}))
                = ((if isModifierActive key
                         (fst (releaseAll {| _captureEnabled := c;
                                             _activeModifiers := _activeModifiers s |}))
                    then 1 else 0)
                   - (if isModifierActive key s then 1 else 0))%Z).
  { intros c. unfold releaseAll, isModifierActive. cbn [fst snd _activeModifiers].
    split; [constructor |]. rewrite (heldCount_release key _ H).
    cbn [has existsb]. destruct (has key (_activeModifiers s)); reflexivity. }
  assert (C : forall c,
             NoDup (_activeModifiers (fst (setCaptureEnabled c s)))
             /\ heldCount key (snd (setCaptureEnabled c s))
                = ((if isModifierActive key (fst (setCaptureEnabled c s)) then 1 else 0)
                   - (if isModifierActive key s then 1 else 0))%Z).
  { intros c. unfold setCaptureEnabled. cbv zeta. destruct c; cbn [negb].
    - unfold isModifierActive. cbn [fst snd _activeModifiers heldCount].
      split; [exact H |]. destruct (has key (_activeModifiers s)); reflexivity.
    - apply R. }
  destruct a as [k | | c |]; cbn [step].
  - unfold toggleModifier, isModifierActive.
    destruct (has k (_activeModifiers s)) eqn:E; cbn [fst snd _activeModifiers heldCount].
    + split; [now apply NoDup_delete |]. rewrite has_delete.
      destruct (String.eqb_spec key k) as [-> | Hk].
      * rewrite E, String.eqb_refl. reflexivity.
      * destruct (String.eqb_spec k key) as [-> | _]; [contradiction |].
        rewrite andb_true_r. destruct (has key (_activeModifiers s)); reflexivity.
    + split; [now apply NoDup_add |]. unfold add. rewrite E, has_app.
      unfold has at 2. cbn [existsb]. rewrite orb_false_r.
      destruct (String.eqb_spec key k) as [-> | Hk].
      * rewrite E. reflexivity.
      * rewrite orb_false_r. destruct (has key (_activeModifiers s)); reflexivity.
  - destruct s as [c m]. apply (R c).
  - apply C.
  - unfold toggleCapture. apply C.
Qed.

(** X23. A modifier of the on-screen keyboard is held on the remote side
    exactly when it is in the active set.  After every sequence of modifier
    toggles, releases of all modifiers and changes of the keyboard capture,
    the calls made to the websocket hold, for every key, one more press
    than releases if the key is active and as many presses as releases
    otherwise: no modifier is ever pressed twice in a row or left down once
    it has left the active set. *)
Theorem X23_modifier_held_iff_active :
  forall (l : list event) (key : string),
    heldCount key (snd (run l initial))
    = (if isModifierActive key (fst (run l initial)) then 1 else 0)%Z.
Proof.
  intros l key.
  assert (G : forall s, NoDup (_activeModifiers s) ->
                heldCount key (snd (run l s))
                = ((if isModifierActive key (fst (run l s)) then 1 else 0)
                   - (if isModifierActive key s then 1 else 0))%Z).
  { induction l as [| a l IH]; intros s H; cbn [run].
    - cbn [fst snd heldCount]. lia.
    - destruct (step_modifiers key a s H) as [K1 K2].
      destruct (step a s) as [s1 o1]. cbn [fst snd] in *.
      specialize (IH s1 K1). destruct (run l s1) as [s2 o2]. cbn [fst snd] in *.
      rewrite heldCount_app. lia. }
  rewrite (G initial); [| constructor].
  unfold isModifierActive at 2. cbn. lia.
Qed.

End KeyboardFacts.

(** ** Send-as-you-type *)

Module TextInputFacts.
Import TextInput.

Section WithChar.
Variable char : Type.

Lemma replay_backspaces (d r : list char) :
  replay char (repeat (BackspaceDown char) (List.length d)) (r ++ d) = r.
Proof.
  induction d as [| x d IH] using rev_ind.
  - cbn. apply app_nil_r.
  - rewrite length_app. cbn [List.length]. rewrite Nat.add_1_r. cbn [repeat].
    unfold replay in *. cbn [fold_left typed].
    rewrite app_assoc, removelast_last. exact IH.
Qed.

Lemma replay_app (c1 c2 : list (call char)) r :
  replay char (c1 ++ c2) r = replay char c2 (replay char c1 r).
Proof. unfold replay. apply fold_left_app. Qed.

Lemma last_cons (v : list char) l d : last (v :: l) d = last l v.
Proof.
  revert v d. induction l as [| y l IH]; intros v d; [reflexivity |].
  change (last (v :: y :: l) d) with (last (y :: l) d).
  rewrite (IH y d). symmetry. apply (IH y v).
Qed.

(** One input event that edits the end of the text. *)
Lemma handle_endEdit (prev current remote : list char) :
  endEdit char prev current ->
  replay char (snd (_handleTextInput char current prev)) (remote ++ prev)
  = remote ++ current.
Proof.
  intros [[added ->] | [deleted ->]]; unfold _handleTextInput; cbn [snd].
  - rewrite length_app.
    destruct added as [| x added].
    + cbn [List.length]. rewrite Nat.add_0_r, Nat.ltb_irrefl, app_nil_r. reflexivity.
    + assert (E : (List.length prev <? List.length prev + List.length (x :: added))%nat
                  = true) by (apply Nat.ltb_lt; cbn; lia).
      rewrite E. rewrite skipn_app, skipn_all, Nat.sub_diag. cbn [skipn app].
      unfold replay. cbn [fold_left typed]. now rewrite app_assoc.
  - rewrite length_app.
    assert (E : (List.length current + List.length deleted <? List.length current)%nat
                = false) by (apply Nat.ltb_ge; lia).
    rewrite E.
    destruct deleted as [| x deleted].
    + cbn [List.length]. rewrite Nat.add_0_r, Nat.ltb_irrefl, app_nil_r. reflexivity.
    + assert (F : (List.length current
                   <? List.length current + List.length (x :: deleted))%nat = true)
        by (apply Nat.ltb_lt; cbn; lia).
      rewrite F.
      replace (List.length current + List.length (x :: deleted) - List.length current)%nat
        with (List.length (x :: deleted)) by lia.
      rewrite app_assoc. apply replay_backspaces.
Qed.

(** X24. Send-as-you-type keeps the remote text in step with the field.
    If every input event of a session edits the end of the text (characters
    appended, or characters deleted from the end), then a remote machine
    that appends what is printed and deletes its last character at every
    Backspace press, and that held the previous value of the field after
    some text of its own, holds the last value of the field after that
    same text when the session ends; and that value is the one the panel
    remembers. *)
Theorem X24_remote_text_follows_end_edits :
  forall (values : list (list char)) (prev remote : list char),
    endEdits char prev values ->
    fst (session char values prev) = last values prev
    /\ replay char (snd (session char values prev)) (remote ++ prev)
       = remote ++ last values prev.
Proof.
  induction values as [| v l IH]; intros prev remote H.
  - cbn. auto.
  - destruct H as [H1 H2]. cbn [session].
    pose proof (handle_endEdit prev v remote H1) as K.
    destruct (_handleTextInput char v prev) as [p1 o1] eqn:E.
    assert (Ep : p1 = v) by (unfold _handleTextInput in E; now inversion E).
    subst p1. cbn [snd] in K.
    destruct (IH v remote H2) as [I1 I2].
    destruct (session char l v) as [p2 o2]. cbn [fst snd] in *.
    assert (L : last (v :: l) prev = last l v) by apply last_cons.
    rewrite L. split; [exact I1 |].
    rewrite replay_app, K. exact I2.
Qed.

End WithChar.

(** X24 for the word [ab] typed, its last letter deleted and [c] typed
    instead, the letters being numbers. *)
Lemma X24_witness :
  replay nat (snd (session nat [[1]; [1; 2]; [1]; [1; 3]]%nat [])) ([9]%nat ++ [])
  = [9]%nat ++ [1; 3]%nat.
Proof.
  apply (proj2 (X24_remote_text_follows_end_edits nat
                  [[1]; [1; 2]; [1]; [1; 3]]%nat [] [9]%nat
                  (conj (or_introl (ex_intro _ [1]%nat eq_refl))
                     (conj (or_introl (ex_intro _ [2]%nat eq_refl))
                        (conj (or_intror (ex_intro _ [2]%nat eq_refl))
                           (conj (or_introl (ex_intro _ [3]%nat eq_refl)) I)))))).
Defined.

End TextInputFacts.

(** ** The heartbeat of the websocket *)

Module SocketFacts.
Import Socket.

Lemma ping_alive s :
  alive s -> (S (_missedHeartbeats s) < 15)%nat ->
  step PingTick s
  = ({| _ws := Some OPEN; _pingTimer := true;
        _missedHeartbeats := S (_missedHeartbeats s);
        _reconnectTimer := _reconnectTimer s; _stopped := _stopped s |},
     [Send [0%Z]]).
Proof.
  intros [Hw Hp] Hm. cbn [step]. rewrite Hp. unfold _ping. cbv zeta.
  cbn [_missedHeartbeats].
  assert (E : (15 <=? S (_missedHeartbeats s))%nat = false) by (apply Nat.leb_gt; lia).
  rewrite E. unfold trySend. cbn [_ws]. rewrite Hw, Hp. reflexivity.
Qed.

Lemma ping_dead s :
  alive s -> _missedHeartbeats s = 14%nat ->
  step PingTick s
  = ({| _ws := None; _pingTimer := false; _missedHeartbeats := 15;
        _reconnectTimer := negb (_stopped s); _stopped := _stopped s |},
     [CloseSocket; Emit "close"]).
Proof.
  intros [Hw Hp] Hm. cbn [step]. rewrite Hp. unfold _ping. cbv zeta.
  cbn [_missedHeartbeats]. rewrite Hm. cbn [Nat.leb].
  unfold _scheduleReconnect, _cleanup. cbn [_ws _stopped _pingTimer _missedHeartbeats].
  rewrite Hw. reflexivity.
Qed.

Lemma pings_alive n :
  forall s, alive s -> (_missedHeartbeats s + n < 15)%nat ->
    snd (run (repeat PingTick n) s) = repeat (Send [0%Z]) n
    /\ alive (fst (run (repeat PingTick n) s))
    /\ _missedHeartbeats (fst (run (repeat PingTick n) s)) = (_missedHeartbeats s + n)%nat
    /\ _stopped (fst (run (repeat PingTick n) s)) = _stopped s.
Proof.
  induction n as [| n IH]; intros s Ha Hm.
  - cbn. auto.
  - cbn [repeat run]. rewrite (ping_alive s Ha) by lia.
    set (s1 := {| _ws := Some OPEN; _pingTimer := true;
                  _missedHeartbeats := S (_missedHeartbeats s);
                  _reconnectTimer := _reconnectTimer s; _stopped := _stopped s |}).
    assert (A1 : alive s1) by (split; reflexivity).
    assert (M1 : (_missedHeartbeats s1 + n < 15)%nat) by (cbn; lia).
    destruct (IH s1 A1 M1) as (I1 & I2 & I3 & I4).
    destruct (run (repeat PingTick n) s1) as [s2 o2]. cbn [fst snd] in *.
    subst o2. split; [reflexivity |]. split; [exact I2 |]. split; [| exact I4].
    rewrite I3. cbn. lia.
Qed.

(** X25. The connection is given up at the fifteenth unanswered ping.
    While the socket is open and the heartbeat runs, every tick of the ping
    timer that leaves the count of missed heartbeats below 15 sends the
    one-byte frame [0] and nothing else; the tick that brings the count to
    15 sends no frame: it closes the socket, tells the listeners, stops the
    heartbeat and arms the reconnect timer unless the connection was
    stopped.  A binary message whose first byte is 255 resets the count, so
    that fourteen more ticks are answered by a frame whatever the count
    was. *)
Theorem X25_fifteen_missed_heartbeats :
  forall s : state,
    alive s ->
    (forall n : nat,
        (_missedHeartbeats s + n < 15)%nat ->
        snd (run (repeat PingTick n) s) = repeat (Send [0%Z]) n
        /\ alive (fst (run (repeat PingTick n) s)))
    /\ (forall n : nat,
        (_missedHeartbeats s + n = 14)%nat ->
        let r := run (repeat PingTick n ++ [PingTick]) s in
        snd r = repeat (Send [0%Z]) n ++ [CloseSocket; Emit "close"]
        /\ connected (fst r) = false /\ _pingTimer (fst r) = false
        /\ _reconnectTimer (fst r) = negb (_stopped s))
    /\ (forall n : nat,
        (n < 15)%nat ->
        let r := run (Binary 255 :: repeat PingTick n) s in
        snd r = repeat (Send [0%Z]) n /\ alive (fst r)).
Proof.
  intros s Ha. split; [| split].
  - intros n Hm. destruct (pings_alive n s Ha Hm) as (I1 & I2 & _). auto.
  - intros n Hm r. subst r.
    assert (Hlt : (_missedHeartbeats s + n < 15)%nat) by lia.
    destruct (pings_alive n s Ha Hlt) as (I1 & I2 & I3 & I4).
    assert (R : forall l1 l2 s0,
               run (l1 ++ l2) s0
               = let '(s1, o1) := run l1 s0 in
                 let '(s2, o2) := run l2 s1 in (s2, o1 ++ o2)).
    { induction l1 as [| a l1 IH]; intros l2 s0; cbn [app run].
      - now destruct (run l2 s0).
      - destruct (step a s0) as [sa oa]. rewrite IH.
        destruct (run l1 sa) as [sb ob]. destruct (run l2 sb) as [sc oc].
        now rewrite app_assoc. }
    rewrite R. destruct (run (repeat PingTick n) s) as [s1 o1]. cbn [fst snd] in *.
    cbn [run]. rewrite (ping_dead s1 I2) by lia. cbn [fst snd].
    subst o1. rewrite I4. auto.
  - intros n Hn r. subst r. cbn [run step].
    destruct Ha as [Hw Hp]. rewrite Hw. unfold onmessage.
    cbn [Z.eqb Pos.eqb].
    set (s1 := {| _ws := _ws s; _pingTimer := _pingTimer s; _missedHeartbeats := 0;
                  _reconnectTimer := _reconnectTimer s; _stopped := _stopped s |}).
    assert (A1 : alive s1) by (split; assumption).
    assert (M1 : (_missedHeartbeats s1 + n < 15)%nat) by (cbn; lia).
    destruct (pings_alive n s1 A1 M1) as (I1 & I2 & _).
    destruct (run (repeat PingTick n) s1) as [s2 o2]. cbn [fst snd] in *. auto.
Qed.

(** X25 for a socket that has just opened. *)
Lemma X25_witness :
  snd (run (repeat PingTick 14 ++ [PingTick]) (fst (run [Connect; Open] initial)))
  = repeat (Send [0%Z]) 14 ++ [CloseSocket; Emit "close"].
Proof.
  assert (A : alive (fst (run [Connect; Open] initial))) by (split; reflexivity).
  exact (proj1 (proj1 (proj2 (X25_fifteen_missed_heartbeats _ A)) 14%nat eq_refl)).
Defined.

Lemma step_stopped a s :
  a <> Connect -> _ws s = None -> _pingTimer s = false -> _reconnectTimer s = false ->
  _stopped s = true -> step a s = (s, []).
Proof.
  intros Ha Hw Hp Hr Hs. destruct a; cbn [step]; try contradiction;
    rewrite ?Hw, ?Hp, ?Hr; cbn [Js.isSome]; try reflexivity.
  unfold disconnect, _cleanup. cbn [_ws _missedHeartbeats _stopped]. rewrite Hw.
  destruct s; cbn in *; subst; reflexivity.
Qed.

(** X26. A disconnect is final.  After [disconnect()], whatever the state
    of the connection was, the socket is gone and both timers are cleared;
    from then on no event of the old socket, no timer and no further
    disconnect sends a frame, opens a socket or changes anything: only a
    call of [connect()] brings the connection back. *)
Theorem X26_disconnect_is_final :
  forall (s : state) (l : list event),
    ~ In Connect l ->
    let s1 := fst (step Disconnect s) in
    connected s1 = false /\ _reconnectTimer s1 = false /\ run l s1 = (s1, []).
Proof.
  intros s l Hl s1.
  assert (F : _ws s1 = None /\ _pingTimer s1 = false /\ _reconnectTimer s1 = false
              /\ _stopped s1 = true).
  { subst s1. cbn. auto. }
  destruct F as (Hw & Hp & Hr & Hs).
  split; [unfold connected; now rewrite Hw |]. split; [exact Hr |].
  clearbody s1. induction l as [| a l IH]; [reflexivity |].
  cbn [run]. rewrite (step_stopped a s1); auto.
  - rewrite IH; [reflexivity |]. intros K. apply Hl. now right.
  - intros ->. apply Hl. now left.
Qed.

(** X26 for a socket that was open: the close event and the timers that
    follow the disconnect do nothing. *)
Lemma X26_witness :
  run [Close; PingTick; ReconnectTick]
      (fst (step Disconnect (fst (run [Connect; Open] initial))))
  = (fst (step Disconnect (fst (run [Connect; Open] initial))), []).
Proof.
  apply (X26_disconnect_is_final (fst (run [Connect; Open] initial))
           [Close; PingTick; ReconnectTick]).
  intros [K | [K | [K | []]]]; discriminate K.
Defined.

End SocketFacts.


(** ** The results at concrete inputs *)

Module Witnesses.
Import Js Dom Wire.

(** Decides a closed comparison of rationals or integers, or its negation. *)
Ltac closed :=
  lazymatch goal with
  | |- ~ _ => let K := fresh in intro K; vm_compute in K; discriminate K
  | |- _ => vm_compute; first [reflexivity | let K := fresh in intro K; discriminate K]
  end.

(** C3 at the position (100, 100) behind a 50 px letterbox, stream 400x225. *)
Lemma C3_witness :
  exists x y,
    Mouse._sendPlannedMove (Examples.letterboxed 0) Examples.planned
    = (Mouse.set_absPos None Examples.planned, [MouseMoveAbs x y])
    /\ x = RemapSpec.axis 100 50 400 /\ y = RemapSpec.axis 100 0 225.
Proof.
  destruct (proj1 RemapFacts.C3_absolute_move_is_linear_remap
              (Examples.letterboxed 0) Examples.planned
              {| pos_x := 100; pos_y := 100 |}
              {| geo_x := 50; geo_y := 0; geo_width := 400; geo_height := 225 |}
              eq_refl eq_refl eq_refl)
    as (x & y & H & _ & _ & Hx & Hy).
  exists x, y. split; [exact H |]. split; [apply Hx | apply Hy]; closed.
Defined.

(** C9 at [remap(50, 0, 399, -32768, 32767)]. *)
Lemma C9_witness :
  -32768 <= Mouse._remap 50 0 399 (-32768) 32767
  /\ Mouse._remap 50 0 399 (-32768) 32767 <= 32767.
Proof.
  apply (proj1 RangeFacts.C9_remap_total_and_in_range 50 0 399 (-32768) 32767). closed.
Defined.

(** C10 at sensitivity 1/2 for two moves of one pixel. *)
Lemma C10_witness :
  filter is_relative
    (snd (Mouse.run sqrt_floor None (Mouse.moves Examples.creep) Examples.slow)) = []
  /\ Mouse._relTouchStart
       (fst (Mouse.run sqrt_floor None (Mouse.moves Examples.creep) Examples.slow))
     = Some (Mouse.lastPos None {| pos_x := 0; pos_y := 0 |} Examples.creep).
Proof.
  apply (proj2 (RelativeFacts.C10_zero_delta_moves_anchor_without_frame
                  sqrt_floor None Examples.slow {| pos_x := 0; pos_y := 0 |}
                  eq_refl eq_refl eq_refl eq_refl) Examples.creep).
  cbn [Mouse.subPixel Examples.creep]. repeat split; closed.
Defined.






(** C8 for a touch 30 px below the centre of an idle shuttle. *)
Lemma C8_witness :
  let r := Scroll._updateFromTouch (Examples.strip 1000) 96 Examples.held in
  snd r = [MouseWheel 0 (Scroll.tickValue (fst r))]
  /\ Scroll._repeatStartTime (fst r) = 1000%Z.
Proof.
  cbv zeta.
  destruct (ShuttleFacts.C8_shuttle_update (Examples.strip 1000) 96 Examples.held)
    as (_ & H & _).
  cbv zeta in H. destruct H as (H1 & _ & H3 & _); [closed | reflexivity |].
  split; [exact H1 | exact H3].
Defined.

End Witnesses.
